(** * Retrieval-augmented answer pipeline: a shallow embedding

    The development follows the Python sources of the backend:
    - [app/services/chunking.py]   (module [ChunkingService])
    - [app/agents/router.py]       (module [RouterAgent])
    - [app/agents/retriever.py]    (module [RetrieverAgent])
    - [app/agents/selected_text.py] (module [SelectedTextAgent])
    - [app/agents/rag_agent.py]    (module [RAGAgent])
    - [app/api/chat.py]            (module [ChatApi])
    - [scripts/ingest_book.py]     (module [BookIngestionOrchestrator])

    Python [str] values are sequences of Unicode code points, Python [int]
    values are [Z], Python [float] values are binary64 primitive floats.
    Calls to the embedding endpoint, the vector index and the completion
    endpoint are effects: they are run in a small monad that threads the log
    of the calls issued so far and propagates Python exceptions. *)

From Stdlib Require Import PrimFloat.
From Stdlib Require Import List ZArith NArith Bool Lia String Ascii Sorted.
Import ListNotations.
Local Open Scope Z_scope.

(* ===================================================================== *)
(** ** Python strings *)
(* ===================================================================== *)

Module PyStr.

(** A code point. *)
Definition char : Type := N.

(** A Python [str]. *)
Definition str : Type := list char.

(** Literals of the sources (ASCII only). *)
Definition of_string (s : string) : str :=
  map N_of_ascii (list_ascii_of_string s).

(** [len(s)], of a string or of a list *)
Definition len {A : Type} (s : list A) : Z := Z.of_nat (List.length s).

(** Truth value of a string in a condition: non-empty. *)
Definition truthy (s : str) : bool :=
  match s with [] => false | _ :: _ => true end.

Definition newline : char := 10%N.

Definition in_range (lo hi c : N) : bool := (N.leb lo c && N.leb c hi)%bool.

(** [c.isspace()] for one code point: the set used by [str.strip],
    [str.split] and by the class [\s] of the [re] module on [str]
    patterns. *)
Definition isspace (c : char) : bool :=
  (in_range 0x09 0x0D c || in_range 0x1C 0x20 c
   || N.eqb c 0x85 || N.eqb c 0xA0 || N.eqb c 0x1680
   || in_range 0x2000 0x200A c
   || N.eqb c 0x2028 || N.eqb c 0x2029 || N.eqb c 0x202F
   || N.eqb c 0x205F || N.eqb c 0x3000)%bool.

(** [s.lstrip()] *)
Fixpoint lstrip (s : str) : str :=
  match s with
  | [] => []
  | c :: r => if isspace c then lstrip r else s
  end.

(** [s.rstrip()] *)
Definition rstrip (s : str) : str := rev (lstrip (rev s)).

(** [s.strip()] *)
Definition strip (s : str) : str := rstrip (lstrip s).

(** [s.split()]: the maximal runs of non-space code points, in order.
    [word] is the run being read. *)
Fixpoint split_from (word : str) (s : str) : list str :=
  match s with
  | [] => match word with [] => [] | _ :: _ => [word] end
  | c :: r =>
      if isspace c
      then match word with
           | [] => split_from [] r
           | _ :: _ => word :: split_from [] r
           end
      else split_from (word ++ [c]) r
  end.

Definition split (s : str) : list str := split_from [] s.

(** [sep.join(parts)] *)
Fixpoint join (sep : str) (parts : list str) : str :=
  match parts with
  | [] => []
  | [w] => w
  | w :: rest => w ++ sep ++ join sep rest
  end.

(** [s[:n]] for [n >= 0] *)
Definition upto {A : Type} (n : nat) (s : list A) : list A := firstn n s.

(** [l[-k:]] for [k > 0]: the last [k] items, or all of them. *)
Definition last_items {A : Type} (k : Z) (l : list A) : list A :=
  skipn (List.length l - Z.to_nat k)%nat l.

(** Rendering of an optional value inside an f-string: [None] prints as
    the four letters of its name. *)
Definition fmt (o : option str) : str :=
  match o with
  | Some s => s
  | None => of_string "None"
  end.

(** Truth value of an [Optional[str]]. *)
Definition truthy_opt (o : option str) : bool :=
  match o with
  | Some s => truthy s
  | None => false
  end.

End PyStr.

Import PyStr.

Notation "'py' s" := (of_string s%string) (at level 9, s at level 0, only parsing).

(** [[xs[i:i+n] for i in range(0, len(xs), n)]] for a positive step [n]: the
    loop that cuts an answer into deltas ([chat_stream], 24) and a list into
    batches ([_generate_embeddings], 10; [_store_in_qdrant], 50). *)
Definition slices {A : Type} (n : nat) (xs : list A) : list (list A) :=
  map (fun k => firstn n (skipn (k * n) xs))
      (seq 0 ((List.length xs + n - 1) / n)).

(* ===================================================================== *)
(** ** Configuration: [app/config/settings.py] *)
(* ===================================================================== *)

Record Settings : Type := mkSettings {
  settings_chat_model : str;
  settings_cohere_base_url : str;
  settings_chunk_size : Z;
  settings_chunk_overlap : Z
}.

(** [x or d] on integers: [None] and [0] are both false. *)
Definition int_or (x : option Z) (d : Z) : Z :=
  match x with
  | None => d
  | Some v => if Z.eqb v 0 then d else v
  end.

(* ===================================================================== *)
(** ** Segmentation: [app/services/chunking.py] *)
(* ===================================================================== *)

(** The dataclass [Chunk]. *)
Module Chunk.
Record t : Type := mk {
  text : str;
  source_file : str;
  chapter : option str;
  section : option str;
  position : Z;
  token_count : Z;
  embedding : option (list float)
}.

(** [chunk.position = p] *)
Definition set_position (p : Z) (c : t) : t :=
  {| text := c.(text);
     source_file := c.(source_file);
     chapter := c.(chapter);
     section := c.(section);
     position := p;
     token_count := c.(token_count);
     embedding := c.(embedding) |}.
End Chunk.

Module ChunkingService.

(** The attributes of an instance. *)
Record t : Type := mk {
  size : Z;       (* self.chunk_size *)
  overlap : Z     (* self.chunk_overlap *)
}.

(** [__init__]: an argument that is absent or zero is replaced by the
    configured value. *)
Definition init (settings : Settings) (chunk_size chunk_overlap : option Z) : t :=
  {| size := int_or chunk_size settings.(settings_chunk_size);
     overlap := int_or chunk_overlap settings.(settings_chunk_overlap) |}.

(** [re.split(r'\n\n+', text)].  A run of two or more line feeds is one
    separator; a single line feed stays in the piece.  [piece] is the
    piece being read and [pending] the number of line feeds seen since
    its last other code point, counted up to two. *)
Fixpoint re_split_blank (piece : str) (pending : nat) (s : str) : list str :=
  match s with
  | [] =>
      match pending with
      | O => [piece]
      | S O => [piece ++ [newline]]
      | _ => [piece; []]
      end
  | c :: r =>
      if N.eqb c newline
      then re_split_blank piece (Nat.min (S pending) 2) r
      else match pending with
           | O => re_split_blank (piece ++ [c]) 0 r
           | S O => re_split_blank (piece ++ [newline; c]) 0 r
           | _ => piece :: re_split_blank [c] 0 r
           end
  end.

(** [_split_into_paragraphs] *)
Definition _split_into_paragraphs (text : str) : list str :=
  map strip (filter (fun p => truthy (strip p)) (re_split_blank [] 0 text)).

(** The longest prefix of code points satisfying [f], and the rest. *)
Fixpoint span (f : char -> bool) (s : str) : str * str :=
  match s with
  | [] => ([], [])
  | c :: r =>
      if f c then let (a, b) := span f r in (c :: a, b) else ([], s)
  end.

(** [s] without the prefix [p], when it starts with it. *)
Fixpoint strip_prefix (p s : str) : option str :=
  match p, s with
  | [], _ => Some s
  | _ :: _, [] => None
  | a :: p', b :: s' => if N.eqb a b then strip_prefix p' s' else None
  end.

(** The last item of [l], from its second one on, that is not a line
    feed. *)
Definition last_inline_after_first (l : str) : option char :=
  match l with
  | [] => None
  | _ :: l' =>
      fold_left (fun found c => if N.eqb c newline then found else Some c)
                l' None
  end.

(** What [\s+(.+)$] captures at the front of [rest], under
    [re.MULTILINE].  [\s+] takes the whole run of spaces; when a code
    point follows, it starts the group, which runs to the end of its
    line.  When the run ends the text, [\s+] gives back code points until
    the group can start on one that is not a line feed, and that single
    code point is the group. *)
Definition match_after_marker (rest : str) : option str :=
  let (w, r) := span isspace rest in
  match w, r with
  | [], _ => None
  | _ :: _, _ :: _ => Some (fst (span (fun c => negb (N.eqb c newline)) r))
  | _ :: _, [] =>
      match last_inline_after_first w with
      | Some c => Some [c]
      | None => None
      end
  end.

(** [re.search('^' + marker + r'\s+(.+)$', s, re.MULTILINE)], the first
    group of the leftmost match.  [bol] tells that the position is the
    start of the text or follows a line feed. *)
Fixpoint re_search_heading (marker : str) (bol : bool) (s : str) : option str :=
  match s with
  | [] => None
  | c :: r =>
      let here :=
        if bol
        then match strip_prefix marker s with
             | Some rest => match_after_marker rest
             | None => None
             end
        else None in
      match here with
      | Some g => Some g
      | None => re_search_heading marker (N.eqb c newline) r
      end
  end.

(** [_extract_chapter] *)
Definition _extract_chapter (text : str) : option str :=
  option_map strip (re_search_heading (py "#") true text).

(** [_extract_section] *)
Definition _extract_section (text : str) : option str :=
  option_map strip (re_search_heading (py "##") true text).

(** [_get_overlap_text] *)
Definition _get_overlap_text (self : t) (text : str) : str :=
  let words := split text in
  let overlap_words :=
    if Z.gtb self.(overlap) 0 then last_items self.(overlap) words else [] in
  join (py " ") overlap_words.

(** [_estimate_tokens] *)
Definition _estimate_tokens (text : str) : Z := len text / 4.

(** The variables of the loop of [chunk_text]. *)
Record loop : Type := mkLoop {
  chunks : list Chunk.t;
  current_chunk : str;
  current_position : Z
}.

(** The [Chunk(...)] built from the buffer, at both places. *)
Definition close (source_file : str) (st : loop) : Chunk.t :=
  {| Chunk.text := strip st.(current_chunk);
     Chunk.source_file := source_file;
     Chunk.chapter := _extract_chapter st.(current_chunk);
     Chunk.section := _extract_section st.(current_chunk);
     Chunk.position := st.(current_position);
     Chunk.token_count := _estimate_tokens st.(current_chunk);
     Chunk.embedding := None |}.

Definition blank : str := [newline; newline].

(** One iteration of [for paragraph in paragraphs]. *)
Definition step (self : t) (source_file : str) (st : loop) (paragraph : str) : loop :=
  if Z.gtb (len st.(current_chunk) + len paragraph) self.(size)
  then
    let st1 :=
      if truthy st.(current_chunk)
      then {| chunks := st.(chunks) ++ [close source_file st];
              current_chunk := st.(current_chunk);
              current_position := st.(current_position) + 1 |}
      else st in
    if (Z.gtb self.(overlap) 0 && Z.gtb (len st1.(chunks)) 0)%bool
    then {| chunks := st1.(chunks);
            current_chunk :=
              _get_overlap_text self st1.(current_chunk) ++ blank ++ paragraph;
            current_position := st1.(current_position) |}
    else {| chunks := st1.(chunks);
            current_chunk := paragraph;
            current_position := st1.(current_position) |}
  else
    {| chunks := st.(chunks);
       current_chunk :=
         if truthy st.(current_chunk)
         then st.(current_chunk) ++ blank ++ paragraph
         else paragraph;
       current_position := st.(current_position) |}.

Definition start : loop :=
  {| chunks := []; current_chunk := []; current_position := 0 |}.

(** The part of [chunk_text] after the loop. *)
Definition finish (source_file : str) (st : loop) : list Chunk.t :=
  if truthy (strip st.(current_chunk))
  then st.(chunks) ++ [close source_file st]
  else st.(chunks).

(** [chunk_text] applied to a list of paragraphs. *)
Definition chunk_paragraphs (self : t) (source_file : str) (paragraphs : list str)
  : list Chunk.t :=
  finish source_file (fold_left (step self source_file) paragraphs start).

(** [chunk_text] *)
Definition chunk_text (self : t) (text : str) (source_file : str) : list Chunk.t :=
  chunk_paragraphs self source_file (_split_into_paragraphs text).

End ChunkingService.


(* ===================================================================== *)
(** ** Exceptions, external calls and the monad of the request handlers *)
(* ===================================================================== *)

(** A Python exception: its class and [str(e)]. *)
Module Exception.
Record t : Type := mk {
  class : str;
  message : str
}.
End Exception.

(** What a call produces. *)
Inductive outcome (A : Type) : Type :=
| Return (a : A)
| Raise (e : Exception.t).

Arguments Return {A} a.
Arguments Raise {A} e.

(** [for x in xs: out.append(f(x))], stopping at the first exception. *)
Fixpoint for_each {A B : Type} (f : A -> outcome B) (xs : list A) : outcome (list B) :=
  match xs with
  | [] => Return []
  | x :: r =>
      match f x with
      | Raise e => Raise e
      | Return y =>
          match for_each f r with
          | Raise e => Raise e
          | Return ys => Return (y :: ys)
          end
      end
  end.

(** [{"role": ..., "content": ...}] *)
Module Message.
Record t : Type := mk {
  role : str;
  content : str
}.
End Message.

(** The payload of an indexed point, read with [payload.get(key)]: a key
    that is missing reads as [None]. *)
Module Payload.
Record t : Type := mk {
  chunk_id : option str;
  text : option str;
  source_file : option str;
  chapter : option str;
  section : option str;
  position : option Z
}.
End Payload.

(** One result of the vector index. *)
Module ScoredPoint.
Record t : Type := mk {
  payload : Payload.t;
  score : float
}.
End ScoredPoint.

(** The requests that leave the process, with their arguments. *)
Inductive Call : Type :=
| EmbeddingsCreate (input : str)
| QueryPoints (query : list float) (limit : Z) (query_filter : option str)
              (score_threshold : option float)
| ChatCompletionsCreate (messages : list Message.t) (temperature : float)
                        (max_tokens : Z).

(** The collaborators of the pipeline.  An endpoint answers from the calls
    issued before it and from its arguments, with a value of its declared
    return type or with an exception. *)
Record Env : Type := mkEnv {
  settings : Settings;
  (** [qdrant_service.client is not None] *)
  qdrant_client : bool;
  embeddings_create : list Call -> str -> outcome (list float);
  query_points :
    list Call -> list float -> Z -> option str -> option float ->
    outcome (list ScoredPoint.t);
  chat_completions_create :
    list Call -> list Message.t -> float -> Z -> outcome str;
  (** [str(e)] of the error raised by a model whose listed required fields
      were given [None] *)
  validation_error_text : str -> list str -> str
}.

(** A handler: from the log of the calls issued so far, an outcome and the
    extended log. *)
Definition M (A : Type) : Type := list Call -> outcome A * list Call.

Definition ret {A : Type} (a : A) : M A := fun log => (Return a, log).

Definition raise {A : Type} (e : Exception.t) : M A := fun log => (Raise e, log).

Definition bind {A B : Type} (m : M A) (k : A -> M B) : M B :=
  fun log =>
    match m log with
    | (Return a, log') => k a log'
    | (Raise e, log') => (Raise e, log')
    end.

Definition lift {A : Type} (o : outcome A) : M A := fun log => (o, log).

(** [try: body  except Exception as e: handler(e)] *)
Definition try_except {A : Type} (body : M A) (handler : Exception.t -> M A) : M A :=
  fun log =>
    match body log with
    | (Return a, log') => (Return a, log')
    | (Raise e, log') => handler e log'
    end.

Declare Scope handler_scope.
Delimit Scope handler_scope with handler.
Notation "x <- m ;; k" := (bind m (fun x => k))
  (at level 61, m at next level, right associativity) : handler_scope.
Local Open Scope handler_scope.

Definition is_chat_call (c : Call) : bool :=
  match c with
  | ChatCompletionsCreate _ _ _ => true
  | _ => false
  end.

(** No request was sent to the completion endpoint. *)
Definition model_not_invoked (log : list Call) : bool :=
  forallb (fun c => negb (is_chat_call c)) log.

Fixpoint str_eqb (a b : str) : bool :=
  match a, b with
  | [], [] => true
  | x :: a', y :: b' => (N.eqb x y && str_eqb a' b')%bool
  | _, _ => false
  end.

Definition nl : str := [newline].
Definition dquote : str := [34%N].

(** [app/services/cohere_service.py].  Building the client object on first
    use sends nothing and is left out. *)
Module CohereService.

(** [embed_text] *)
Definition embed_text (env : Env) (text : str) : M (list float) :=
  fun log => (env.(embeddings_create) log text, log ++ [EmbeddingsCreate text]).

(** The defaults [temperature=0.3] and [max_tokens=1000] of [chat]. *)
Definition default_temperature : float := 0x1.3333333333333p-2%float.
Definition default_max_tokens : Z := 1000.

(** [chat], called with [messages] only *)
Definition chat (env : Env) (messages : list Message.t) : M str :=
  fun log =>
    (env.(chat_completions_create) log messages default_temperature
       default_max_tokens,
     log ++ [ChatCompletionsCreate messages default_temperature
               default_max_tokens]).

(** [cohere_service.chat_model] *)
Definition chat_model (env : Env) : str := env.(settings).(settings_chat_model).

End CohereService.

(** [app/services/qdrant_service.py] *)
Module QdrantService.

(** [search] *)
Definition search (env : Env) (query_vector : list float) (limit : Z)
           (score_threshold : option float) (book_id : option str)
  : M (list ScoredPoint.t) :=
  if negb env.(qdrant_client)
  then raise (Exception.mk (py "RuntimeError") (py "Qdrant client not initialized"))
  else
    let query_filter := if truthy_opt book_id then book_id else None in
    fun log =>
      (env.(query_points) log query_vector limit query_filter score_threshold,
       log ++ [QueryPoints query_vector limit query_filter score_threshold]).

End QdrantService.

(* ===================================================================== *)
(** ** Requests and responses: [app/models/chat.py] *)
(* ===================================================================== *)

Definition no_len : Exception.t :=
  Exception.mk (py "TypeError") (py "object of type 'NoneType' has no len()").

Module Citation.
Record t : Type := mk {
  chunk_id : str;
  text : str;
  source : str;
  chapter : option str;
  section : option str;
  score : float
}.

Definition missing (name : str) (v : option str) : list str :=
  match v with
  | None => [name]
  | Some _ => []
  end.

(** [Citation(chunk_id=..., text=..., source=..., chapter=..., section=...,
    score=...)]: the three [str] fields refuse [None]. *)
Definition new (env : Env) (chunk_id text source chapter section : option str)
           (score : float) : outcome t :=
  match chunk_id, text, source with
  | Some i, Some x, Some s => Return (mk i x s chapter section score)
  | _, _, _ =>
      Raise (Exception.mk (py "ValidationError")
               (env.(validation_error_text) (py "Citation")
                  (missing (py "chunk_id") chunk_id ++ missing (py "text") text
                   ++ missing (py "source") source)))
  end.
End Citation.

Module ChatRequest.
(** The request object as the handlers read it, attribute by attribute.
    The field declarations are enforced where a request is built from a
    payload ([validate] below), not where its attributes are read: the
    router tests [request.mode] for truth, so [mode] ranges here over what
    that test can meet ([None], the empty string, any string). *)
Record t : Type := mk {
  query : str;
  selected_text : option str;
  book_id : option str;
  mode : option str;
  max_chunks : Z
}.

Definition allowed_mode (m : str) : bool :=
  (str_eqb m (py "full_book") || str_eqb m (py "selected_text"))%bool.

(** The field declarations: a field left out takes its default, and the
    bounds are checked.  [None] stands for a field left out. *)
Definition validate (query : str) (selected_text book_id mode : option str)
           (max_chunks : option Z) : option t :=
  let mode' := match mode with None => py "full_book" | Some m => m end in
  let max_chunks' := match max_chunks with None => 5 | Some k => k end in
  if (Z.leb 1 (len query) && Z.leb (len query) 1000
      && match selected_text with None => true | Some s => Z.leb (len s) 5000 end
      && allowed_mode mode'
      && Z.leb 1 max_chunks' && Z.leb max_chunks' 20)%bool
  then Some (mk query selected_text book_id (Some mode') max_chunks')
  else None.
End ChatRequest.

(** [ChatResponse], and the dictionary with the same keys that
    [RAGAgent.chat] returns.  [latency_ms] is a difference of wall-clock
    readings and is left out. *)
Module ChatResponse.
Record t : Type := mk {
  answer : str;
  citations : list Citation.t;
  mode : str;
  chunks_retrieved : Z;
  model_used : str
}.
End ChatResponse.

(* ===================================================================== *)
(** ** Mode detection: [app/agents/router.py] *)
(* ===================================================================== *)

Module RouterAgent.

(** [detect_mode] *)
Definition detect_mode (request : ChatRequest.t) : str :=
  match request.(ChatRequest.mode) with
  | Some (c :: m) => c :: m
  | _ =>
      match request.(ChatRequest.selected_text) with
      | Some s =>
          if (truthy s && truthy (strip s))%bool
          then py "selected_text"
          else py "full_book"
      | None => py "full_book"
      end
  end.

End RouterAgent.

(* ===================================================================== *)
(** ** Retrieval: [app/agents/retriever.py] *)
(* ===================================================================== *)

Module RetrieverAgent.

(** The dictionary built for one result. *)
Record chunk : Type := mkChunk {
  chunk_id : option str;
  text : option str;
  source_file : option str;
  chapter : option str;
  section : option str;
  position : option Z;
  score : float
}.

Definition of_point (result : ScoredPoint.t) : chunk :=
  let p := result.(ScoredPoint.payload) in
  {| chunk_id := p.(Payload.chunk_id);
     text := p.(Payload.text);
     source_file := p.(Payload.source_file);
     chapter := p.(Payload.chapter);
     section := p.(Payload.section);
     position := p.(Payload.position);
     score := result.(ScoredPoint.score) |}.

(** [retrieve] *)
Definition retrieve (env : Env) (query : str) (book_id : option str) (top_k : Z)
           (score_threshold : option float) : M (list chunk) :=
  query_embedding <- CohereService.embed_text env query ;;
  results <- QdrantService.search env query_embedding top_k score_threshold book_id ;;
  ret (map of_point results).

End RetrieverAgent.

(* ===================================================================== *)
(** ** Selected passage: [app/agents/selected_text.py] *)
(* ===================================================================== *)

Module SelectedTextAgent.

(** One entry of [additional_chunks]. *)
Record chunk : Type := mkChunk {
  chunk_id : option str;
  text : option str;
  source : option str;
  score : float
}.

Definition of_point (r : ScoredPoint.t) : chunk :=
  let p := r.(ScoredPoint.payload) in
  {| chunk_id := p.(Payload.chunk_id);
     text := p.(Payload.text);
     source := p.(Payload.source_file);
     score := r.(ScoredPoint.score) |}.

(** The dictionary returned by [answer_with_selected_text]. *)
Record result : Type := mkResult {
  forced_context : str;
  selected_text : str;
  additional_chunks : list chunk;
  mode : str
}.

(** [answer_with_selected_text] *)
Definition answer_with_selected_text (env : Env) (query : str) (selected_text : str)
           (book_id : option str) (retrieve_additional : bool) : M result :=
  let selected_text := upto 5000 (strip selected_text) in
  let forced_context := py "[Selected Text]" ++ nl ++ selected_text ++ nl in
  additional_chunks <-
    (if retrieve_additional
     then
       selected_embedding <- CohereService.embed_text env selected_text ;;
       results <- QdrantService.search env selected_embedding 3 None book_id ;;
       ret (map of_point results)
     else ret []) ;;
  ret {| forced_context := forced_context;
         selected_text := selected_text;
         additional_chunks := additional_chunks;
         mode := py "selected_text" |}.

End SelectedTextAgent.

(* ===================================================================== *)
(** ** The orchestrator: [app/agents/rag_agent.py] *)
(* ===================================================================== *)

Module RAGAgent.

Record t : Type := mk {
  chat_model : str;
  base_url : str
}.

(** [__init__] *)
Definition init (settings : Settings) : t :=
  {| chat_model := settings.(settings_chat_model);
     base_url := settings.(settings_cohere_base_url) |}.

Definition SYSTEM_PROMPT : str :=
  join nl
    [ py "You are a helpful AI assistant that answers questions based ONLY on the provided book content.";
      [];
      py "CRITICAL RULES:";
      py "1. You MUST answer questions using ONLY the retrieved book passages provided in the context";
      py "2. Every answer MUST include citations to specific book passages";
      py "3. If the retrieved passages do not contain information to answer the question, respond with: "
        ++ dquote ++ py "I cannot answer this from the book content provided" ++ dquote;
      py "4. DO NOT use any outside knowledge or information not present in the retrieved passages";
      py "5. DO NOT make up or hallucinate information";
      [];
      py "Response Format:";
      py "- Provide a clear, direct answer to the question";
      py "- Include citations in format: [Chapter Name](source_file) or [Section Name](source_file)";
      py "- If multiple passages are relevant, synthesize information from all of them";
      [];
      py "Remember: Your goal is to be accurate and helpful while staying strictly grounded in the provided book content." ].

Definition FALLBACK_RESPONSE : str :=
  py "I cannot answer this from the book content provided.".

(** The dictionary returned by the two paths. *)
Record result : Type := mkResult {
  answer : str;
  citations : list Citation.t;
  chunks_retrieved : Z
}.

(** [_build_context] *)
Definition _build_context (chunks : list RetrieverAgent.chunk) : str :=
  join (nl ++ nl)
    (map (fun chunk =>
            let source := py "[" ++ fmt chunk.(RetrieverAgent.source_file) in
            let source :=
              if truthy_opt chunk.(RetrieverAgent.chapter)
              then source ++ py " - " ++ fmt chunk.(RetrieverAgent.chapter)
              else source in
            source ++ nl ++ fmt chunk.(RetrieverAgent.text))
         chunks).

(** [_extract_citations] *)
Definition _extract_citations (env : Env) (chunks : list RetrieverAgent.chunk)
  : outcome (list Citation.t) :=
  for_each
    (fun chunk =>
       match chunk.(RetrieverAgent.text) with
       | None => Raise no_len
       | Some s =>
           Citation.new env
             chunk.(RetrieverAgent.chunk_id)
             (Some (if Z.gtb (len s) 200 then upto 200 s ++ py "..." else s))
             chunk.(RetrieverAgent.source_file)
             chunk.(RetrieverAgent.chapter)
             chunk.(RetrieverAgent.section)
             chunk.(RetrieverAgent.score)
       end)
    chunks.

Definition user_message (context query : str) : str :=
  py "Context:" ++ nl ++ context ++ nl ++ nl ++ py "Question: " ++ query.

(** [_chat_full_book] *)
Definition _chat_full_book (env : Env) (request : ChatRequest.t) : M result :=
  chunks <- RetrieverAgent.retrieve env request.(ChatRequest.query)
              request.(ChatRequest.book_id) request.(ChatRequest.max_chunks) None ;;
  match chunks with
  | [] =>
      ret {| answer := FALLBACK_RESPONSE; citations := []; chunks_retrieved := 0 |}
  | _ :: _ =>
      let context := _build_context chunks in
      let messages :=
        [ Message.mk (py "system") SYSTEM_PROMPT;
          Message.mk (py "user") (user_message context request.(ChatRequest.query)) ] in
      answer <- CohereService.chat env messages ;;
      citations <- lift (_extract_citations env chunks) ;;
      ret {| answer := answer; citations := citations;
             chunks_retrieved := len chunks |}
  end.

Definition no_strip : Exception.t :=
  Exception.mk (py "AttributeError")
    (py "'NoneType' object has no attribute 'strip'").

(** [_chat_with_selected_text] *)
Definition _chat_with_selected_text (env : Env) (request : ChatRequest.t) : M result :=
  match request.(ChatRequest.selected_text) with
  | None => raise no_strip
  | Some selected =>
      result <- SelectedTextAgent.answer_with_selected_text env
                  request.(ChatRequest.query) selected
                  request.(ChatRequest.book_id) true ;;
      let context := result.(SelectedTextAgent.forced_context) in
      let context :=
        match result.(SelectedTextAgent.additional_chunks) with
        | [] => context
        | _ :: _ =>
            let additional_context :=
              join (nl ++ nl)
                (map (fun ch => py "[" ++ fmt ch.(SelectedTextAgent.source) ++ py "] "
                                ++ fmt ch.(SelectedTextAgent.text))
                     result.(SelectedTextAgent.additional_chunks)) in
            context ++ nl ++ nl ++ py "[Additional Relevant Content]" ++ nl
            ++ additional_context
        end in
      let messages :=
        [ Message.mk (py "system") SYSTEM_PROMPT;
          Message.mk (py "user") (user_message context request.(ChatRequest.query)) ] in
      answer <- CohereService.chat env messages ;;
      first <- lift (Citation.new env
                       (Some (py "selected"))
                       (Some (if Z.gtb (len selected) 200
                              then upto 200 selected ++ py "..."
                              else selected))
                       (Some (py "User Selection"))
                       None None 1%float) ;;
      others <- lift (for_each
                        (fun ch =>
                           match ch.(SelectedTextAgent.text) with
                           | None => Raise no_len
                           | Some s =>
                               Citation.new env
                                 ch.(SelectedTextAgent.chunk_id)
                                 (Some (if Z.gtb (len s) 200
                                        then upto 200 s ++ py "..."
                                        else s))
                                 ch.(SelectedTextAgent.source)
                                 None None
                                 ch.(SelectedTextAgent.score)
                           end)
                        result.(SelectedTextAgent.additional_chunks)) ;;
      ret {| answer := answer;
             citations := first :: others;
             chunks_retrieved := len result.(SelectedTextAgent.additional_chunks) + 1 |}
  end.

(** [chat] *)
Definition chat (self : t) (env : Env) (request : ChatRequest.t) (mode : str)
  : M ChatResponse.t :=
  try_except
    (result <-
       (if (str_eqb mode (py "selected_text")
            && truthy_opt request.(ChatRequest.selected_text))%bool
        then _chat_with_selected_text env request
        else _chat_full_book env request) ;;
     ret {| ChatResponse.answer := result.(answer);
            ChatResponse.citations := result.(citations);
            ChatResponse.mode := mode;
            ChatResponse.chunks_retrieved := result.(chunks_retrieved);
            ChatResponse.model_used := self.(chat_model) |})
    (fun e =>
       ret {| ChatResponse.answer := FALLBACK_RESPONSE;
              ChatResponse.citations := [];
              ChatResponse.mode := mode;
              ChatResponse.chunks_retrieved := 0;
              ChatResponse.model_used := self.(chat_model) |}).

End RAGAgent.

(* ===================================================================== *)
(** ** The endpoints: [app/api/chat.py] *)
(* ===================================================================== *)

Module ChatApi.

Definition RAG_SYSTEM_PROMPT : str :=
  join nl
    [ py "You are a helpful AI assistant that answers questions based on the provided book passages.";
      [];
      py "CRITICAL RULES:";
      py "1. You MUST answer questions using ONLY the retrieved book passages provided in the context";
      py "2. If the passages do not contain information to answer the question, say "
        ++ dquote
        ++ py "Based on the provided content, I don't have enough information to answer this question."
        ++ dquote;
      py "3. DO NOT use outside knowledge or information not present in the retrieved passages";
      py "4. DO NOT make up or hallucinate information";
      [];
      py "Response Format:";
      py "- Provide a clear, direct answer to the question";
      py "- Reference the passages you used in your answer";
      py "- Synthesize information from multiple passages if relevant" ].

Definition SIMPLE_SYSTEM_PROMPT : str :=
  join nl
    [ py "You are a helpful AI assistant.";
      [];
      py "Your role is to:";
      py "- Answer questions clearly and concisely";
      py "- Provide practical examples when relevant";
      py "- Be friendly and conversational";
      py "- Help users with software development, AI, and technical topics";
      py "- If you don't know something specific, be honest about it" ].

(** The dictionary built for one result. *)
Record chunk : Type := mkChunk {
  chunk_id : option str;
  text : option str;
  source_file : option str;
  chapter : option str;
  section : option str;
  score : float
}.

Definition of_point (result : ScoredPoint.t) : chunk :=
  let p := result.(ScoredPoint.payload) in
  {| chunk_id := p.(Payload.chunk_id);
     text := p.(Payload.text);
     source_file := p.(Payload.source_file);
     chapter := p.(Payload.chapter);
     section := p.(Payload.section);
     score := result.(ScoredPoint.score) |}.

(** [retrieve_context] *)
Definition retrieve_context (env : Env) (query : str) (book_id : option str)
           (top_k : Z) : M (list chunk) :=
  query_embedding <- CohereService.embed_text env query ;;
  results <- QdrantService.search env query_embedding top_k None book_id ;;
  ret (map of_point results).

(** [build_context] *)
Definition build_context (chunks : list chunk) : str :=
  join (nl ++ nl)
    (map (fun chunk =>
            let source := py "[" ++ fmt chunk.(source_file) in
            let source :=
              if truthy_opt chunk.(chapter)
              then source ++ py " - " ++ fmt chunk.(chapter)
              else source in
            source ++ nl ++ fmt chunk.(text))
         chunks).

(** [extract_citations] *)
Definition extract_citations (env : Env) (chunks : list chunk)
  : outcome (list Citation.t) :=
  for_each
    (fun chunk =>
       match chunk.(text) with
       | None => Raise no_len
       | Some s =>
           Citation.new env
             chunk.(chunk_id)
             (Some (if Z.gtb (len s) 200 then upto 200 s ++ py "..." else s))
             chunk.(source_file)
             chunk.(chapter)
             chunk.(section)
             chunk.(score)
       end)
    chunks.

(** The floor [0.4] on the score of a relevant chunk. *)
Definition relevance_floor : float := 0x1.999999999999ap-2%float.

Definition error_prefix : str := py "Sorry, I encountered an error: ".

(** [rag_chat] *)
Definition rag_chat (env : Env) (request : ChatRequest.t) : M ChatResponse.t :=
  try_except
    (chunks <- retrieve_context env request.(ChatRequest.query)
                 request.(ChatRequest.book_id)
                 (int_or (Some request.(ChatRequest.max_chunks)) 5) ;;
     let relevant_chunks :=
       filter (fun c => PrimFloat.leb relevance_floor c.(score)) chunks in
     match relevant_chunks with
     | _ :: _ =>
         let context := build_context relevant_chunks in
         let messages :=
           [ Message.mk (py "system") RAG_SYSTEM_PROMPT;
             Message.mk (py "user")
               (py "Context:" ++ nl ++ context ++ nl ++ nl ++ py "Question: "
                ++ request.(ChatRequest.query)) ] in
         answer <- CohereService.chat env messages ;;
         citations <- lift (extract_citations env relevant_chunks) ;;
         ret {| ChatResponse.answer := answer;
                ChatResponse.citations := citations;
                ChatResponse.mode := py "rag";
                ChatResponse.chunks_retrieved := len relevant_chunks;
                ChatResponse.model_used := CohereService.chat_model env |}
     | [] =>
         let messages :=
           [ Message.mk (py "system") SIMPLE_SYSTEM_PROMPT;
             Message.mk (py "user") request.(ChatRequest.query) ] in
         answer <- CohereService.chat env messages ;;
         ret {| ChatResponse.answer := answer;
                ChatResponse.citations := [];
                ChatResponse.mode := py "simple";
                ChatResponse.chunks_retrieved := 0;
                ChatResponse.model_used := CohereService.chat_model env |}
     end)
    (fun e =>
       ret {| ChatResponse.answer := error_prefix ++ e.(Exception.message);
              ChatResponse.citations := [];
              ChatResponse.mode := py "rag";
              ChatResponse.chunks_retrieved := 0;
              ChatResponse.model_used := CohereService.chat_model env |}).

(** [chat_unified] *)
Definition chat_unified (env : Env) (request : ChatRequest.t) : M ChatResponse.t :=
  rag_chat env request.

(** [simple_chat] *)
Definition simple_chat (env : Env) (request : ChatRequest.t) : M ChatResponse.t :=
  try_except
    (let messages :=
       [ Message.mk (py "system") SIMPLE_SYSTEM_PROMPT;
         Message.mk (py "user") request.(ChatRequest.query) ] in
     answer <- CohereService.chat env messages ;;
     ret {| ChatResponse.answer := answer;
            ChatResponse.citations := [];
            ChatResponse.mode := py "simple";
            ChatResponse.chunks_retrieved := 0;
            ChatResponse.model_used := CohereService.chat_model env |})
    (fun e =>
       ret {| ChatResponse.answer := error_prefix ++ e.(Exception.message);
              ChatResponse.citations := [];
              ChatResponse.mode := py "simple";
              ChatResponse.chunks_retrieved := 0;
              ChatResponse.model_used := CohereService.chat_model env |}).

(** The payload of an event of [chat_stream], before [json.dumps] frames
    it; the latency of the final event is left out. *)
Inductive event : Type :=
| Delta (delta : str)
| Final (citations : list Citation.t) (mode : str) (chunks_retrieved : Z)
        (model_used : str)
| Error (message : str).

(** [event_generator] of [chat_stream]: the events in the order in which
    they are yielded.  Nothing can raise between two [yield]s, so the
    events are given as one list. *)
Definition event_generator (env : Env) (request : ChatRequest.t) : M (list event) :=
  try_except
    (response <- rag_chat env request ;;
     let answer := response.(ChatResponse.answer) in
     let chunk_size := 24%nat in
     ret (map Delta (slices chunk_size answer)
          ++ [Final response.(ChatResponse.citations)
                    response.(ChatResponse.mode)
                    response.(ChatResponse.chunks_retrieved)
                    response.(ChatResponse.model_used)]))
    (fun e => ret [Error e.(Exception.message)]).

End ChatApi.

(* ===================================================================== *)
(** ** Ingestion: [scripts/ingest_book.py] *)
(* ===================================================================== *)

Module BookIngestionOrchestrator.

(** [for chunk in chunks: chunk.position = position; position += 1] *)
Fixpoint renumber (position : Z) (chunks : list Chunk.t) : list Chunk.t * Z :=
  match chunks with
  | [] => ([], position)
  | chunk :: r =>
      let (r', position') := renumber (position + 1) r in
      (Chunk.set_position position chunk :: r', position')
  end.

(** The variables of the loop of [_process_files]. *)
Record loop : Type := mkLoop {
  position : Z;
  chunks : list Chunk.t;      (* self.chunks *)
  errors : list str
}.

(** One iteration over a file: its path and what reading it gives. *)
Definition step (service : ChunkingService.t) (st : loop)
           (file : str * outcome str) : loop :=
  match snd file with
  | Return text =>
      let (chunks', position') :=
        renumber st.(position) (ChunkingService.chunk_text service text (fst file)) in
      {| position := position';
         chunks := st.(chunks) ++ chunks';
         errors := st.(errors) |}
  | Raise e =>
      {| position := st.(position);
         chunks := st.(chunks);
         errors := st.(errors) ++ [fst file ++ py ": " ++ e.(Exception.message)] |}
  end.

(** [_process_files], on an orchestrator just built *)
Definition _process_files (service : ChunkingService.t)
           (files : list (str * outcome str)) : loop :=
  fold_left (step service) files
    {| position := 0; chunks := []; errors := [] |}.

(** The loop of [_store_in_qdrant] over the batches of points.  [upsert]
    is [qdrant_service.upsert_chunks], answering from the attempts made so
    far; [attempts] logs the batches in the order they were sent.  A batch
    that fails is sent once more (after the pause), and a second failure is
    raised again. *)
Fixpoint upsert_batches {P : Type}
         (upsert : list (list P) -> list P -> outcome unit)
         (attempts : list (list P)) (batches : list (list P)) (batches_stored : Z)
  : outcome Z * list (list P) :=
  match batches with
  | [] => (Return batches_stored, attempts)
  | batch :: rest =>
      match upsert attempts batch with
      | Return _ =>
          upsert_batches upsert (attempts ++ [batch]) rest (batches_stored + 1)
      | Raise e =>
          match upsert (attempts ++ [batch]) batch with
          | Return _ =>
              upsert_batches upsert ((attempts ++ [batch]) ++ [batch]) rest
                (batches_stored + 1)
          | Raise e2 => (Raise e2, (attempts ++ [batch]) ++ [batch])
          end
      end
  end.

(** The loop started on the points, cut in batches of [batch_size = 50]. *)
Definition store_points {P : Type}
           (upsert : list (list P) -> list P -> outcome unit) (points : list P)
  : outcome Z * list (list P) :=
  upsert_batches upsert [] (slices 50 points) 0.

(** [chunk.embedding = embedding] *)
Definition set_embedding (embedding : list float) (c : Chunk.t) : Chunk.t :=
  {| Chunk.text := c.(Chunk.text);
     Chunk.source_file := c.(Chunk.source_file);
     Chunk.chapter := c.(Chunk.chapter);
     Chunk.section := c.(Chunk.section);
     Chunk.position := c.(Chunk.position);
     Chunk.token_count := c.(Chunk.token_count);
     Chunk.embedding := Some embedding |}.

(** [xs] with [x] at the index [i], for an index in range. *)
Fixpoint set_item {A : Type} (i : nat) (x : A) (xs : list A) : list A :=
  match xs, i with
  | [], _ => []
  | _ :: r, O => x :: r
  | y :: r, S i' => y :: set_item i' x r
  end.

Definition index_error : Exception.t :=
  Exception.mk (py "IndexError") (py "list index out of range").

(** [for j, embedding in enumerate(embeddings):
       self.chunks[i + j].embedding = embedding]
    with [chunk_idx] the running value of [i + j]; the chunks are changed
    in place, so what was assigned before a fault stays. *)
Fixpoint store_embeddings (chunk_idx : nat) (embeddings : list (list float))
         (chunks : list Chunk.t) : outcome unit * list Chunk.t :=
  match embeddings with
  | [] => (Return tt, chunks)
  | embedding :: r =>
      match nth_error chunks chunk_idx with
      | Some c =>
          store_embeddings (S chunk_idx) r
            (set_item chunk_idx (set_embedding embedding c) chunks)
      | None => (Raise index_error, chunks)
      end
  end.

(** The loop of [_generate_embeddings] over the batches of texts.
    [embed_batch] is [cohere_service.embed_batch], answering from the
    batches sent so far; [i] is the index of the first text of the batch. *)
Fixpoint embed_batches
         (embed_batch : list (list str) -> list str -> outcome (list (list float)))
         (sent : list (list str)) (i : nat) (batches : list (list str))
         (chunks : list Chunk.t) : outcome unit * list Chunk.t :=
  match batches with
  | [] => (Return tt, chunks)
  | batch :: rest =>
      match embed_batch sent batch with
      | Raise e => (Raise e, chunks)
      | Return embeddings =>
          match store_embeddings i embeddings chunks with
          | (Raise e, chunks') => (Raise e, chunks')
          | (Return _, chunks') =>
              embed_batches embed_batch (sent ++ [batch]) (i + 10) rest chunks'
          end
      end
  end.

(** [_generate_embeddings]: the outcome and [self.chunks] afterwards. *)
Definition _generate_embeddings
           (embed_batch : list (list str) -> list str -> outcome (list (list float)))
           (chunks : list Chunk.t) : outcome unit * list Chunk.t :=
  let batch_size := 10%nat in
  let batch_texts := map Chunk.text chunks in
  embed_batches embed_batch [] 0 (slices batch_size batch_texts) chunks.

End BookIngestionOrchestrator.

(* ===================================================================== *)
(** * Properties *)
(* ===================================================================== *)

(** ** Strings without surrounding white space *)

(** The first code point exists and is not a space. *)
Definition starts_clean (s : str) : bool :=
  match s with
  | [] => false
  | c :: _ => negb (isspace c)
  end.

(** Non-empty, with no space at either end. *)
Definition clean (s : str) : bool := (starts_clean s && starts_clean (rev s))%bool.

(** The buffer of the loop of [chunk_text] is empty while nothing was
    appended, and clean afterwards. *)
Definition buffer_ok (st : ChunkingService.loop) : Prop :=
  (st.(ChunkingService.current_chunk) = [] /\ st.(ChunkingService.chunks) = [])
  \/ clean st.(ChunkingService.current_chunk) = true.

(** The bound on the units as the specification words it: the estimate of
    every unit is at most a quarter of the size limit, unless some paragraph
    of the input is on its own longer than the limit. *)
Definition segmentation_bound (self : ChunkingService.t) (text source : str) : Prop :=
  forall u,
    In u (ChunkingService.chunk_text self text source) ->
    u.(Chunk.token_count) <= self.(ChunkingService.size) / 4
    \/ Exists (fun p => self.(ChunkingService.size) < len p)
              (ChunkingService._split_into_paragraphs text).

(** The text of the last unit of [units]. *)
Definition last_text (units : list Chunk.t) : option str :=
  match rev units with
  | [] => None
  | u :: _ => Some u.(Chunk.text)
  end.

(** The shapes of a buffer [s] that follows the unit of text [prev]: within
    the limit up to one separator; one paragraph longer than the limit; or
    the overlap words of [prev], a blank line and one paragraph. *)
Definition buffer_shape (self : ChunkingService.t) (paragraphs : list str)
           (prev : option str) (s : str) : Prop :=
  len s <= self.(ChunkingService.size) + 2
  \/ (exists p, In p paragraphs /\ s = p /\ self.(ChunkingService.size) < len p)
  \/ (0 < self.(ChunkingService.overlap)
      /\ exists v p,
           prev = Some v
           /\ In p paragraphs
           /\ s = ChunkingService._get_overlap_text self v
                  ++ ChunkingService.blank ++ p).

(** Every unit of the list has one of the shapes, after the unit before it,
    and its estimate is that of its text. *)
Inductive units_shaped (self : ChunkingService.t) (paragraphs : list str)
  : list Chunk.t -> Prop :=
| shaped_nil : units_shaped self paragraphs []
| shaped_snoc (units : list Chunk.t) (u : Chunk.t) :
    units_shaped self paragraphs units ->
    buffer_shape self paragraphs (last_text units) u.(Chunk.text) ->
    u.(Chunk.token_count) = len u.(Chunk.text) / 4 ->
    units_shaped self paragraphs (units ++ [u]).

(** The service of the unit tests: [ChunkingService(chunk_size=100,
    chunk_overlap=20)]. *)
Definition fixture_service : ChunkingService.t := ChunkingService.mk 100 20.

(** Two paragraphs of sixty letters each, separated by a blank line. *)
Definition two_paragraphs : str :=
  repeat 97%N 60 ++ ChunkingService.blank ++ repeat 98%N 60.

(** The text of the scenario of the specification. *)
Definition scenario_text : str :=
  py "# Ch1" ++ ChunkingService.blank ++ py "Para A." ++ ChunkingService.blank
  ++ py "## Sec1" ++ ChunkingService.blank ++ py "Para B.".

(** *** Requests and environments used in the examples *)

(** The defaults of [Settings]. *)
Definition default_settings : Settings :=
  {| settings_chat_model := py "command-a-03-2025";
     settings_cohere_base_url := py "https://api.cohere.ai/compatibility/v1";
     settings_chunk_size := 500;
     settings_chunk_overlap := 50 |}.

(** An index that holds nothing, and a model that greets. *)
Definition empty_index_env : Env :=
  {| settings := default_settings;
     qdrant_client := true;
     embeddings_create := fun _ _ => Return [1%float];
     query_points := fun _ _ _ _ _ => Return [];
     chat_completions_create := fun _ _ _ _ => Return (py "Hello");
     validation_error_text := fun _ _ => py "validation error" |}.

(** An embedding endpoint that is down. *)
Definition embedding_down_env : Env :=
  {| settings := default_settings;
     qdrant_client := true;
     embeddings_create :=
       fun _ _ => Raise (Exception.mk (py "APIConnectionError") (py "Connection error."));
     query_points := fun _ _ _ _ _ => Return [];
     chat_completions_create := fun _ _ _ _ => Return (py "Hello");
     validation_error_text := fun _ _ => py "validation error" |}.

(** An index that is down. *)
Definition index_down_env : Env :=
  {| settings := default_settings;
     qdrant_client := true;
     embeddings_create := fun _ _ => Return [1%float];
     query_points :=
       fun _ _ _ _ _ => Raise (Exception.mk (py "ResponseHandlingException") (py "timed out"));
     chat_completions_create := fun _ _ _ _ => Return (py "Hello");
     validation_error_text := fun _ _ => py "validation error" |}.

(** [ChatQuery{query="What is X?", selected_text=None}] *)
Definition what_is_x : ChatRequest.t :=
  ChatRequest.mk (py "What is X?") None None (Some (py "full_book")) 5.

(** *** The grounding policy, in the words of the specification *)

(** The result of a refusal. *)
Definition is_refusal (r : ChatResponse.t) : Prop :=
  r.(ChatResponse.answer) = RAGAgent.FALLBACK_RESPONSE
  /\ r.(ChatResponse.citations) = []
  /\ r.(ChatResponse.chunks_retrieved) = 0.

(** Started after [log], the handler returns a refusal and leaves the log
    at [log']: when [log'] is the log as retrieval left it, nothing was sent
    to the model. *)
Definition refuses_at (handle : M ChatResponse.t) (log log' : list Call) : Prop :=
  exists r, handle log = (Return r, log') /\ is_refusal r.

(** The endpoint [rag_chat] refuses whenever its retrieval returns no
    unit. *)
Definition endpoint_refuses_on_empty_retrieval : Prop :=
  forall (env : Env) (request : ChatRequest.t) (log log' : list Call),
    ChatApi.retrieve_context env request.(ChatRequest.query)
      request.(ChatRequest.book_id)
      (int_or (Some request.(ChatRequest.max_chunks)) 5) log
    = (Return [], log') ->
    refuses_at (ChatApi.rag_chat env request) log log'.

(** The exception with which a call answers, if it does, when issued after
    [history]. *)
Definition raised_by (env : Env) (history : list Call) (c : Call) : option Exception.t :=
  match c with
  | EmbeddingsCreate input =>
      match env.(embeddings_create) history input with
      | Raise e => Some e
      | Return _ => None
      end
  | QueryPoints query limit query_filter score_threshold =>
      match env.(query_points) history query limit query_filter score_threshold with
      | Raise e => Some e
      | Return _ => None
      end
  | ChatCompletionsCreate messages temperature max_tokens =>
      match env.(chat_completions_create) history messages temperature max_tokens with
      | Raise e => Some e
      | Return _ => None
      end
  end.

(** The first exception among the calls [new] issued after [history]. *)
Fixpoint first_fault (env : Env) (history new : list Call) : option Exception.t :=
  match new with
  | [] => None
  | c :: r =>
      match raised_by env history c with
      | Some e => Some e
      | None => first_fault env (history ++ [c]) r
      end
  end.

(** A handler stops at the first call that answers with an exception and
    raises that exception. *)
Definition propagates {A : Type} (env : Env) (m : M A) : Prop :=
  forall log, exists new,
    snd (m log) = log ++ new
    /\ forall e, first_fault env log new = Some e -> fst (m log) = Raise e.

(** The endpoint [rag_chat] turns every fault of a call into a refusal. *)
Definition endpoint_refuses_on_fault : Prop :=
  forall (env : Env) (request : ChatRequest.t) (log new : list Call)
         (o : outcome ChatResponse.t) (e : Exception.t),
    ChatApi.rag_chat env request log = (o, log ++ new) ->
    first_fault env log new = Some e ->
    exists r, o = Return r /\ is_refusal r.

(** The dictionary of the [except] branch of [RAGAgent.chat]. *)
Definition fallback_result (self : RAGAgent.t) (mode : str) : ChatResponse.t :=
  {| ChatResponse.answer := RAGAgent.FALLBACK_RESPONSE;
     ChatResponse.citations := [];
     ChatResponse.mode := mode;
     ChatResponse.chunks_retrieved := 0;
     ChatResponse.model_used := self.(RAGAgent.chat_model) |}.

(** The response of the [except] branch of [rag_chat]. *)
Definition error_response (env : Env) (e : Exception.t) : ChatResponse.t :=
  {| ChatResponse.answer := ChatApi.error_prefix ++ e.(Exception.message);
     ChatResponse.citations := [];
     ChatResponse.mode := py "rag";
     ChatResponse.chunks_retrieved := 0;
     ChatResponse.model_used := CohereService.chat_model env |}.

(** The request takes the whole-corpus branch of [RAGAgent.chat]. *)
Definition whole_corpus (request : ChatRequest.t) (mode : str) : bool :=
  negb (str_eqb mode (py "selected_text")
        && truthy_opt request.(ChatRequest.selected_text)).

(** The messages of the general-purpose fallback of [rag_chat]. *)
Definition simple_messages (request : ChatRequest.t) : list Message.t :=
  [ Message.mk (py "system") ChatApi.SIMPLE_SYSTEM_PROMPT;
    Message.mk (py "user") request.(ChatRequest.query) ].

(** [r] with another value under the key [mode]. *)
Definition with_mode (mode : str) (r : ChatResponse.t) : ChatResponse.t :=
  {| ChatResponse.answer := r.(ChatResponse.answer);
     ChatResponse.citations := r.(ChatResponse.citations);
     ChatResponse.mode := mode;
     ChatResponse.chunks_retrieved := r.(ChatResponse.chunks_retrieved);
     ChatResponse.model_used := r.(ChatResponse.model_used) |}.

(** A request in mode ["selected_text"] without a selection gets the very
    result of mode ["full_book"]. *)
Definition same_result_as_full_book : Prop :=
  forall (self : RAGAgent.t) (env : Env) (request : ChatRequest.t) (log : list Call),
    truthy_opt request.(ChatRequest.selected_text) = false ->
    RAGAgent.chat self env request (py "selected_text") log
    = RAGAgent.chat self env request (py "full_book") log.

(** *** The router, in the words of the specification *)




(** *** Citations, in the words of the specification *)

(** [snippet] is the snippet of [text]: its first 200 code points and the
    three dots when it is longer than 200, and [text] itself otherwise. *)
Definition is_snippet_of (text snippet : str) : Prop :=
  (200 < len text -> snippet = firstn 200 text ++ py "..." /\ len snippet = 203)
  /\ (len text <= 200 -> snippet = text).

(** [c] is the citation of the retrieved unit [ch]. *)
Definition cites_retrieved (ch : RetrieverAgent.chunk) (c : Citation.t) : Prop :=
  exists s,
    ch.(RetrieverAgent.text) = Some s
    /\ is_snippet_of s c.(Citation.text)
    /\ ch.(RetrieverAgent.chunk_id) = Some c.(Citation.chunk_id)
    /\ ch.(RetrieverAgent.source_file) = Some c.(Citation.source)
    /\ c.(Citation.chapter) = ch.(RetrieverAgent.chapter)
    /\ c.(Citation.section) = ch.(RetrieverAgent.section)
    /\ c.(Citation.score) = ch.(RetrieverAgent.score).

(** The same for the units of the endpoint. *)
Definition cites_relevant (ch : ChatApi.chunk) (c : Citation.t) : Prop :=
  exists s,
    ch.(ChatApi.text) = Some s
    /\ is_snippet_of s c.(Citation.text)
    /\ ch.(ChatApi.chunk_id) = Some c.(Citation.chunk_id)
    /\ ch.(ChatApi.source_file) = Some c.(Citation.source)
    /\ c.(Citation.chapter) = ch.(ChatApi.chapter)
    /\ c.(Citation.section) = ch.(ChatApi.section)
    /\ c.(Citation.score) = ch.(ChatApi.score).

(** The same for the units retrieved in addition to a selection. *)
Definition cites_additional (ch : SelectedTextAgent.chunk) (c : Citation.t) : Prop :=
  exists s,
    ch.(SelectedTextAgent.text) = Some s
    /\ is_snippet_of s c.(Citation.text)
    /\ ch.(SelectedTextAgent.chunk_id) = Some c.(Citation.chunk_id)
    /\ ch.(SelectedTextAgent.source) = Some c.(Citation.source)
    /\ c.(Citation.chapter) = None
    /\ c.(Citation.section) = None
    /\ c.(Citation.score) = ch.(SelectedTextAgent.score).

(** The payload names its unit, its text and its source. *)
Definition payload_complete (p : ScoredPoint.t) : Prop :=
  p.(ScoredPoint.payload).(Payload.chunk_id) <> None
  /\ p.(ScoredPoint.payload).(Payload.text) <> None
  /\ p.(ScoredPoint.payload).(Payload.source_file) <> None.

(** Every call is answered, and the index returns complete payloads. *)
Definition healthy (env : Env) : Prop :=
  env.(qdrant_client) = true
  /\ (forall history input, exists v,
         env.(embeddings_create) history input = Return v)
  /\ (forall history query limit query_filter score_threshold, exists points,
         env.(query_points) history query limit query_filter score_threshold
         = Return points
         /\ Forall payload_complete points)
  /\ (forall history messages temperature max_tokens, exists reply,
         env.(chat_completions_create) history messages temperature max_tokens
         = Return reply).

(** The citation of the selection of the user. *)
Definition is_user_selection (selected : str) (c : Citation.t) : Prop :=
  c.(Citation.chunk_id) = py "selected"
  /\ c.(Citation.score) = 1%float
  /\ c.(Citation.source) = py "User Selection"
  /\ c.(Citation.chapter) = None
  /\ c.(Citation.section) = None
  /\ is_snippet_of selected c.(Citation.text).

(** An index with two units, the second with a long text. *)
Definition two_units : list ScoredPoint.t :=
  [ ScoredPoint.mk
      (Payload.mk (Some (py "b-0")) (Some (py "X is a letter."))
         (Some (py "book.md")) (Some (py "Ch1")) None (Some 0))
      0x1.ccccccccccccdp-1%float;
    ScoredPoint.mk
      (Payload.mk (Some (py "b-1")) (Some (repeat 120%N 250))
         (Some (py "book.md")) None None (Some 1))
      0x1.3333333333333p-1%float ].

Definition two_units_env : Env :=
  {| settings := default_settings;
     qdrant_client := true;
     embeddings_create := fun _ _ => Return [1%float];
     query_points := fun _ _ _ _ _ => Return two_units;
     chat_completions_create := fun _ _ _ _ => Return (py "X is a letter [Ch1](book.md).");
     validation_error_text := fun _ _ => py "validation error" |}.

(** The same index, and a model that is down. *)
Definition model_down_env : Env :=
  {| settings := default_settings;
     qdrant_client := true;
     embeddings_create := fun _ _ => Return [1%float];
     query_points := fun _ _ _ _ _ => Return two_units;
     chat_completions_create :=
       fun _ _ _ _ => Raise (Exception.mk (py "RateLimitError") (py "Too many requests"));
     validation_error_text := fun _ _ => py "validation error" |}.

(** A request with a selection. *)
Definition explain_this : ChatRequest.t :=
  ChatRequest.mk (py "Explain this") (Some (py "  RAG stands for Retrieval-Augmented Generation. "))
    None (Some (py "selected_text")) 3.

(** *** Segmentation, seen from its result *)

(** What the buffer of a unit starts with when it follows the unit of text
    [prev]: the overlap words of [prev] and a blank line when the overlap is
    positive, and nothing for the first unit or without overlap. *)
Definition header (self : ChunkingService.t) (prev : option str) : str :=
  match prev with
  | Some v =>
      if Z.gtb self.(ChunkingService.overlap) 0
      then ChunkingService._get_overlap_text self v ++ ChunkingService.blank
      else []
  | None => []
  end.

(** The texts of the units made from consecutive groups of paragraphs:
    each is its header followed by the paragraphs of its group, separated
    by blank lines. *)
Fixpoint texts_of (self : ChunkingService.t) (prev : option str)
         (groups : list (list str)) : list str :=
  match groups with
  | [] => []
  | g :: r =>
      let t := header self prev ++ join ChunkingService.blank g in
      t :: texts_of self (Some t) r
  end.

(** The last of [texts], or [prev] when there is none. *)
Definition last_or (prev : option str) (texts : list str) : option str :=
  match rev texts with
  | [] => prev
  | t :: _ => Some t
  end.

(** The buffer that holds the group [g] after the texts [texts]. *)
Definition buffer_of (self : ChunkingService.t) (texts : list str) (g : list str)
  : str :=
  match g with
  | [] => []
  | _ :: _ => header self (last_or None texts) ++ join ChunkingService.blank g
  end.

(** The loop of [chunk_text] after the paragraphs [done]: the closed units
    and the buffer come from a cutting of [done] into groups. *)
Definition grouped (self : ChunkingService.t) (st : ChunkingService.loop)
           (done : list str) : Prop :=
  exists groups g,
    List.concat groups ++ g = done
    /\ Forall (fun x => x <> []) groups
    /\ map Chunk.text st.(ChunkingService.chunks) = texts_of self None groups
    /\ st.(ChunkingService.current_chunk)
       = buffer_of self (texts_of self None groups) g
    /\ (st.(ChunkingService.current_chunk) = [] -> g = []).

(** A word: not empty, and without a space. *)
Definition is_word (w : str) : bool :=
  (truthy w && forallb (fun c => negb (isspace c)) w)%bool.

(** Without a line feed. *)
Definition one_line (s : str) : bool :=
  forallb (fun c => negb (N.eqb c newline)) s.

(** *** Ingestion, seen from its result *)

(** The units that segmentation makes of a file, none when it cannot be
    read. *)
Definition units_of_file (service : ChunkingService.t) (file : str * outcome str)
  : list Chunk.t :=
  match snd file with
  | Return text => ChunkingService.chunk_text service text (fst file)
  | Raise _ => []
  end.

Definition unreadable (file : str * outcome str) : bool :=
  match snd file with
  | Return _ => false
  | Raise _ => true
  end.

(** The batches as they are sent when the i-th batch is sent [counts[i]]
    times. *)
Fixpoint sent {P : Type} (counts : list nat) (batches : list (list P))
  : list (list P) :=
  match counts, batches with
  | c :: cs, b :: bs => repeat b c ++ sent cs bs
  | _, _ => []
  end.

(** Every batch of [batches], sent in order after [history], ends stored:
    [counts] tells of each whether its first attempt succeeded (1), or its
    first attempt failed and its second, sent right after, succeeded (2). *)
Fixpoint stored_in {P : Type} (upsert : list (list P) -> list P -> outcome unit)
         (history : list (list P)) (counts : list nat) (batches : list (list P))
  : Prop :=
  match counts, batches with
  | [], [] => True
  | c :: cs, b :: bs =>
      ((c = 1%nat /\ upsert history b = Return tt)
       \/ (c = 2%nat
           /\ (exists e, upsert history b = Raise e)
           /\ upsert (history ++ [b]) b = Return tt))
      /\ stored_in upsert (history ++ repeat b c) cs bs
  | _, _ => False
  end.

(** *** The handlers, seen from their calls *)

(** The calls of one request: the embedding first; then the search, with
    the vector that the embedding returned and without a score floor; then
    the model, only after the search returned. *)
Definition follows_protocol (env : Env) (log new : list Call) : Prop :=
  match new with
  | [EmbeddingsCreate _] => True
  | [EmbeddingsCreate input; QueryPoints v _ _ None] =>
      env.(embeddings_create) log input = Return v
  | [EmbeddingsCreate input; QueryPoints v limit query_filter None;
     ChatCompletionsCreate _ _ _] =>
      env.(embeddings_create) log input = Return v
      /\ exists points,
           env.(query_points) (log ++ [EmbeddingsCreate input]) v limit
             query_filter None = Return points
  | _ => False
  end.

(** A retrieval: it sends the embedding and then the search; when it
    returns, both calls were sent and both returned. *)
Definition retrieval_like {A : Type} (env : Env) (m : M A) : Prop :=
  forall log, exists new,
    snd (m log) = log ++ new
    /\ match fst (m log) with
       | Return _ =>
           exists input v limit query_filter points,
             new = [EmbeddingsCreate input; QueryPoints v limit query_filter None]
             /\ env.(embeddings_create) log input = Return v
             /\ env.(query_points) (log ++ [EmbeddingsCreate input]) v limit
                  query_filter None = Return points
       | Raise _ =>
           follows_protocol env log new /\ (List.length new <= 2)%nat
       end.

(** A step that sends at most one call, to the model. *)
Definition at_most_chat {A : Type} (m : M A) : Prop :=
  forall log,
    snd (m log) = log
    \/ exists messages temperature max_tokens,
         snd (m log) = log ++ [ChatCompletionsCreate messages temperature max_tokens].

(** Whatever happens, the first call of the handler is [c]. *)
Definition begins_with {A : Type} (c : Call) (m : M A) : Prop :=
  forall log, exists rest, snd (m log) = log ++ c :: rest.

(** [qdrant_service.initialize] was not run. *)
Definition no_client_env : Env :=
  {| settings := default_settings;
     qdrant_client := false;
     embeddings_create := fun _ _ => Return [1%float];
     query_points := fun _ _ _ _ _ => Return [];
     chat_completions_create := fun _ _ _ _ => Return (py "Hello");
     validation_error_text := fun _ _ => py "validation error" |}.

Definition not_initialized : Exception.t :=
  Exception.mk (py "RuntimeError") (py "Qdrant client not initialized").

(** [request] with another [book_id]. *)
Definition with_book (book_id : option str) (request : ChatRequest.t) : ChatRequest.t :=
  ChatRequest.mk request.(ChatRequest.query) request.(ChatRequest.selected_text)
    book_id request.(ChatRequest.mode) request.(ChatRequest.max_chunks).

(** The replies of the embedding service to the batches sent in order
    after [sent], up to the first fault. *)
Fixpoint replies
         (embed_batch : list (list str) -> list str -> outcome (list (list float)))
         (sent : list (list str)) (batches : list (list str))
  : list (list (list float)) * option Exception.t :=
  match batches with
  | [] => ([], None)
  | batch :: rest =>
      match embed_batch sent batch with
      | Raise e => ([], Some e)
      | Return embeddings =>
          let (rs, fault) := replies embed_batch (sent ++ [batch]) rest in
          (embeddings :: rs, fault)
      end
  end.

(** The chunks, the k-th of them carrying the k-th vector. *)
Fixpoint embedded (vectors : list (list float)) (chunks : list Chunk.t)
  : list Chunk.t :=
  match vectors, chunks with
  | v :: vs, c :: r =>
      BookIngestionOrchestrator.set_embedding v c :: embedded vs r
  | _, _ => chunks
  end.

Definition outcome_of (fault : option Exception.t) : outcome unit :=
  match fault with
  | None => Return tt
  | Some e => Raise e
  end.

(** The service returns one vector per text. *)
Definition one_vector_per_text
           (embed_batch : list (list str) -> list str -> outcome (list (list float)))
  : Prop :=
  forall sent batch embeddings,
    embed_batch sent batch = Return embeddings ->
    List.length embeddings = List.length batch.

(** Twelve units of one word each. *)
Definition twelve_units : list Chunk.t :=
  map (fun k => Chunk.mk (py "word") (py "a.md") None None (Z.of_nat k) 1 None)
      (seq 0 12).

(** The unit lacks its identifier, its text or its source. *)
Definition incomplete (ch : RetrieverAgent.chunk) : Prop :=
  ch.(RetrieverAgent.text) = None
  \/ ch.(RetrieverAgent.chunk_id) = None
  \/ ch.(RetrieverAgent.source_file) = None.

(** An index with one unit of low score, and one with a unit without
    text. *)
Definition faint_unit : list ScoredPoint.t :=
  [ ScoredPoint.mk
      (Payload.mk (Some (py "b-0")) (Some (py "X is a letter."))
         (Some (py "book.md")) None None (Some 0))
      0x1.999999999999ap-4%float ].

Definition faint_env : Env :=
  {| settings := default_settings;
     qdrant_client := true;
     embeddings_create := fun _ _ => Return [1%float];
     query_points := fun _ _ _ _ _ => Return faint_unit;
     chat_completions_create := fun _ _ _ _ => Return (py "Hello");
     validation_error_text := fun _ _ => py "validation error" |}.

Definition textless_unit : list ScoredPoint.t :=
  [ ScoredPoint.mk
      (Payload.mk (Some (py "b-0")) None (Some (py "book.md")) None None (Some 0))
      0x1.ccccccccccccdp-1%float ].

Definition textless_env : Env :=
  {| settings := default_settings;
     qdrant_client := true;
     embeddings_create := fun _ _ => Return [1%float];
     query_points := fun _ _ _ _ _ => Return textless_unit;
     chat_completions_create := fun _ _ _ _ => Return (py "Hello");
     validation_error_text := fun _ _ => py "validation error" |}.

(** A request in mode ["selected_text"] whose selection is three spaces. *)
Definition blank_selection : ChatRequest.t :=
  ChatRequest.mk (py "Explain this") (Some (py "   ")) None
    (Some (py "selected_text")) 3.

(** The positions [0, 1, ..., n-1]. *)
Definition count_from_zero (n : nat) : list Z := map Z.of_nat (seq 0 n).

Lemma starts_clean_app (a b : str) :
  starts_clean a = true -> starts_clean (a ++ b) = true.
Proof. destruct a; simpl; intros H; [discriminate | exact H]. Qed.

Lemma starts_clean_nonempty (s : str) : starts_clean s = true -> s <> [].
Proof. destruct s; simpl; [discriminate | intros _ H; discriminate H]. Qed.

Lemma ends_clean_app (a b : str) :
  starts_clean (rev b) = true -> starts_clean (rev (a ++ b)) = true.
Proof. intros H. rewrite rev_app_distr. now apply starts_clean_app. Qed.

Lemma lstrip_fixed (s : str) : starts_clean s = true -> lstrip s = s.
Proof.
  destruct s as [|c r]; simpl; [reflexivity|].
  destruct (isspace c); simpl; [discriminate | reflexivity].
Qed.

Lemma lstrip_starts (s : str) : lstrip s = [] \/ starts_clean (lstrip s) = true.
Proof.
  induction s as [|c r IH]; simpl; [now left|].
  destruct (isspace c) eqn:E; [exact IH|].
  right. simpl. now rewrite E.
Qed.

Lemma lstrip_app_last (a : str) (c : char) :
  isspace c = false -> lstrip (a ++ [c]) = lstrip a ++ [c].
Proof.
  intros Hc. induction a as [|x a IH]; simpl.
  - now rewrite Hc.
  - destruct (isspace x); [exact IH | reflexivity].
Qed.

Lemma strip_clean (s : str) : strip s <> [] -> clean (strip s) = true.
Proof.
  unfold strip, rstrip, clean. intros Hne.
  destruct (lstrip_starts s) as [E | E].
  - rewrite E in Hne. simpl in Hne. now elim Hne.
  - destruct (lstrip s) as [|c r] eqn:Es; [discriminate|].
    simpl in E. apply negb_true_iff in E.
    simpl rev. rewrite lstrip_app_last by exact E.
    rewrite rev_app_distr. simpl. rewrite E. simpl.
    rewrite rev_involutive.
    destruct (lstrip_starts (rev r)) as [E' | E'].
    + rewrite E'. simpl. now rewrite E.
    + now apply starts_clean_app.
Qed.

Lemma clean_strip (s : str) : clean s = true -> strip s = s.
Proof.
  unfold clean, strip, rstrip. intros H. apply andb_true_iff in H as [H1 H2].
  rewrite (lstrip_fixed s H1), (lstrip_fixed (rev s) H2).
  apply rev_involutive.
Qed.

Lemma clean_nonempty (s : str) : clean s = true -> s <> [].
Proof.
  unfold clean. intros H. apply andb_true_iff in H as [H _].
  now apply starts_clean_nonempty.
Qed.

Lemma truthy_nonempty (s : str) : truthy s = true <-> s <> [].
Proof. destruct s; simpl; split; congruence. Qed.

(** The words of [split] start with a code point that is not a space. *)
Lemma split_from_words (s word : str) :
  word = [] \/ starts_clean word = true ->
  Forall (fun w => starts_clean w = true) (split_from word s).
Proof.
  revert word. induction s as [|c r IH]; intros word Hw; simpl.
  - destruct word; [constructor|].
    destruct Hw as [Hw | Hw]; [discriminate|]. now repeat constructor.
  - destruct (isspace c) eqn:E.
    + destruct word eqn:Ew.
      * apply IH. now left.
      * destruct Hw as [Hw | Hw]; [discriminate|].
        constructor; [exact Hw | apply IH; now left].
    + apply IH. right. destruct Hw as [-> | Hw].
      * simpl. now rewrite E.
      * now apply starts_clean_app.
Qed.

Lemma split_from_nonempty (s word : str) : word <> [] -> split_from word s <> [].
Proof.
  revert word. induction s as [|c r IH]; intros word Hw; simpl.
  - destruct word; [now elim Hw | discriminate].
  - destruct (isspace c).
    + destruct word; [now elim Hw | discriminate].
    + apply IH. destruct word; discriminate.
Qed.

Lemma split_nonempty (s : str) : starts_clean s = true -> split s <> [].
Proof.
  destruct s as [|c r]; simpl; [discriminate|]. intros H.
  unfold split. simpl. apply negb_true_iff in H. rewrite H.
  apply split_from_nonempty. discriminate.
Qed.

Lemma last_items_nonempty {A : Type} (k : Z) (l : list A) :
  0 < k -> l <> [] -> last_items k l <> [].
Proof.
  unfold last_items. intros Hk Hl E.
  assert (Hlen : List.length (skipn (List.length l - Z.to_nat k) l) = 0%nat)
    by now rewrite E.
  rewrite length_skipn in Hlen.
  destruct l; [now elim Hl|]. simpl List.length in Hlen. lia.
Qed.

Lemma last_items_Forall {A : Type} (P : A -> Prop) (k : Z) (l : list A) :
  Forall P l -> Forall P (last_items k l).
Proof.
  unfold last_items. intros H.
  rewrite <- (firstn_skipn (List.length l - Z.to_nat k) l) in H.
  now apply Forall_app in H.
Qed.

Lemma join_starts (sep : str) (parts : list str) :
  parts <> [] -> Forall (fun w => starts_clean w = true) parts ->
  starts_clean (join sep parts) = true.
Proof.
  destruct parts as [|w rest]; [now intros H; elim H|].
  intros _ H. inversion H; subst. simpl.
  destruct rest; [assumption | now apply starts_clean_app].
Qed.

Lemma overlap_text_starts (self : ChunkingService.t) (s : str) :
  0 < self.(ChunkingService.overlap) -> starts_clean s = true ->
  starts_clean (ChunkingService._get_overlap_text self s) = true.
Proof.
  intros Hk Hs. unfold ChunkingService._get_overlap_text.
  assert (G : Z.gtb self.(ChunkingService.overlap) 0 = true) by now apply Z.gtb_lt.
  rewrite G. apply join_starts.
  - apply last_items_nonempty; [exact Hk | now apply split_nonempty].
  - apply last_items_Forall. apply split_from_words. now left.
Qed.

(** Every paragraph is clean. *)
Lemma paragraphs_clean (text : str) :
  Forall (fun p => clean p = true) (ChunkingService._split_into_paragraphs text).
Proof.
  unfold ChunkingService._split_into_paragraphs.
  apply Forall_forall. intros p Hp.
  apply in_map_iff in Hp as [q [<- Hq]].
  apply filter_In in Hq as [_ Hq].
  apply strip_clean. now apply truthy_nonempty.
Qed.

(** ** The loop of [chunk_text] *)

Lemma fold_left_invariant {S X : Type} (f : S -> X -> S) (P : S -> Prop)
      (Q : X -> Prop) (l : list X) (init : S) :
  Forall Q l -> P init ->
  (forall st x, Q x -> P st -> P (f st x)) ->
  P (fold_left f l init).
Proof.
  intros Hl Hinit Hstep. revert init Hinit.
  induction Hl as [|x l Hx _ IH]; intros init Hinit; simpl.
  - exact Hinit.
  - apply IH. now apply Hstep.
Qed.

Lemma clean_app3 (a p : str) :
  starts_clean a = true -> clean p = true ->
  clean (a ++ ChunkingService.blank ++ p) = true.
Proof.
  intros Ha Hp. unfold clean in *. apply andb_true_iff in Hp as [_ Hp].
  apply andb_true_iff. split.
  - now apply starts_clean_app.
  - now do 2 apply ends_clean_app.
Qed.

Lemma clean_starts (s : str) : clean s = true -> starts_clean s = true.
Proof. unfold clean. intros H. now apply andb_true_iff in H as [H _]. Qed.

Lemma clean_truthy (s : str) : clean s = true -> truthy s = true.
Proof. intros H. apply truthy_nonempty. now apply clean_nonempty. Qed.

Lemma len_app_one_pos {A : Type} (l : list A) (x : A) : Z.gtb (len (l ++ [x])) 0 = true.
Proof. apply Z.gtb_lt. unfold len. rewrite length_app. simpl. lia. Qed.

Section ChunkLoop.

Variable self : ChunkingService.t.
Variable source : str.

Local Abbreviation step := (ChunkingService.step self source).

(** The buffer is empty before the first paragraph, and clean after. *)
Lemma step_buffer_ok (st : ChunkingService.loop) (p : str) :
  clean p = true -> buffer_ok st -> buffer_ok (step st p).
Proof.
  intros Hp Hst. destruct st as [chunks cur pos].
  unfold ChunkingService.step, buffer_ok in *. simpl in *.
  destruct (Z.gtb (_ + _) _).
  - destruct Hst as [[-> ->] | Hc].
    + simpl. rewrite andb_false_r. simpl. now right.
    + rewrite (clean_truthy _ Hc). simpl.
      rewrite len_app_one_pos, andb_true_r.
      destruct (Z.gtb (ChunkingService.overlap self) 0) eqn:Ho; simpl; right.
      * apply clean_app3; [|exact Hp].
        apply overlap_text_starts; [now apply Z.gtb_lt | now apply clean_starts].
      * exact Hp.
  - simpl. right. destruct Hst as [[-> _] | Hc].
    + simpl. exact Hp.
    + rewrite (clean_truthy _ Hc). apply clean_app3; [|exact Hp].
      now apply clean_starts.
Qed.

Lemma start_buffer_ok : buffer_ok ChunkingService.start.
Proof. left. split; reflexivity. Qed.

(** What the loop appends, and when. *)
Lemma step_chunks (st : ChunkingService.loop) (p : str) :
  (step st p).(ChunkingService.chunks) = st.(ChunkingService.chunks)
  /\ (step st p).(ChunkingService.current_position)
     = st.(ChunkingService.current_position)
  \/
  st.(ChunkingService.current_chunk) <> []
  /\ Z.gtb (len st.(ChunkingService.current_chunk) + len p)
           self.(ChunkingService.size) = true
  /\ (step st p).(ChunkingService.chunks)
     = st.(ChunkingService.chunks) ++ [ChunkingService.close source st]
  /\ (step st p).(ChunkingService.current_position)
     = st.(ChunkingService.current_position) + 1.
Proof.
  unfold ChunkingService.step.
  destruct (Z.gtb (_ + _) _).
  - destruct (truthy (ChunkingService.current_chunk st)) eqn:Ht.
    + right. apply truthy_nonempty in Ht.
      destruct (_ && _)%bool; simpl; auto.
    + left. destruct (_ && _)%bool; simpl; auto.
  - left. simpl. auto.
Qed.

(** A property of the units that holds for every buffer the loop closes
    holds for all the units of the result. *)
Lemma chunks_invariant (R : Chunk.t -> Prop) (I : ChunkingService.loop -> Prop)
      (paragraphs : list str) (Q : str -> Prop) :
  Forall Q paragraphs ->
  I ChunkingService.start ->
  (forall st p, Q p -> I st -> I (step st p)) ->
  (forall st, I st -> st.(ChunkingService.current_chunk) <> [] ->
              R (ChunkingService.close source st)) ->
  Forall R (ChunkingService.chunk_paragraphs self source paragraphs).
Proof.
  intros HQ Hstart Hstep Hclose.
  unfold ChunkingService.chunk_paragraphs.
  assert (H : I (fold_left step paragraphs ChunkingService.start)
              /\ Forall R (fold_left step paragraphs ChunkingService.start).(ChunkingService.chunks)).
  { apply (fold_left_invariant step
             (fun st => I st /\ Forall R st.(ChunkingService.chunks)) Q).
    - exact HQ.
    - split; [exact Hstart | constructor].
    - intros st p Hp [HI HR]. split; [now apply Hstep|].
      destruct (step_chunks st p) as [[E _] | [Hne [_ [E _]]]]; rewrite E.
      + exact HR.
      + apply Forall_app. split; [exact HR|].
        constructor; [now apply Hclose | constructor]. }
  destruct H as [HI HR].
  unfold ChunkingService.finish.
  destruct (truthy (strip _)) eqn:Ht; [|exact HR].
  apply Forall_app. split; [exact HR|].
  constructor; [|constructor]. apply Hclose; [exact HI|].
  intros E. rewrite E in Ht. discriminate Ht.
Qed.

End ChunkLoop.

(** ** Positions *)

Lemma count_from_zero_S (n : nat) :
  count_from_zero (S n) = count_from_zero n ++ [Z.of_nat n].
Proof. unfold count_from_zero. now rewrite seq_S, map_app. Qed.

Lemma seq_sorted (a n : nat) : StronglySorted Z.lt (map Z.of_nat (seq a n)).
Proof.
  revert a. induction n as [|n IH]; intros a; simpl; constructor.
  - apply IH.
  - apply Forall_forall. intros z Hz.
    apply in_map_iff in Hz as [i [<- Hi]]. apply in_seq in Hi. lia.
Qed.

Lemma loop_positions (self : ChunkingService.t) (source : str) (paragraphs : list str) :
  let st := fold_left (ChunkingService.step self source) paragraphs ChunkingService.start in
  map Chunk.position st.(ChunkingService.chunks)
  = count_from_zero (List.length st.(ChunkingService.chunks))
  /\ st.(ChunkingService.current_position) = len st.(ChunkingService.chunks).
Proof.
  apply (fold_left_invariant (ChunkingService.step self source)
           (fun st => map Chunk.position st.(ChunkingService.chunks)
                      = count_from_zero (List.length st.(ChunkingService.chunks))
                      /\ st.(ChunkingService.current_position)
                         = len st.(ChunkingService.chunks))
           (fun _ => True)).
  - apply Forall_forall. trivial.
  - split; reflexivity.
  - intros st p _ [Hm Hp].
    destruct (step_chunks self source st p) as [[E1 E2] | [_ [_ [E1 E2]]]];
      rewrite E1, E2.
    + now split.
    + rewrite map_app, length_app, Hm. simpl. split.
      * rewrite Nat.add_1_r, count_from_zero_S. now rewrite Hp.
      * rewrite Hp. unfold len. rewrite length_app. simpl. lia.
Qed.

Lemma chunk_paragraphs_positions (self : ChunkingService.t) (source : str)
      (paragraphs : list str) :
  map Chunk.position (ChunkingService.chunk_paragraphs self source paragraphs)
  = count_from_zero
      (List.length (ChunkingService.chunk_paragraphs self source paragraphs)).
Proof.
  unfold ChunkingService.chunk_paragraphs, ChunkingService.finish.
  destruct (loop_positions self source paragraphs) as [Hm Hp].
  destruct (truthy _); [|exact Hm].
  rewrite map_app, length_app, Hm. simpl.
  rewrite Nat.add_1_r, count_from_zero_S. now rewrite Hp.
Qed.

Lemma chunk_paragraphs_source (self : ChunkingService.t) (source : str)
      (paragraphs : list str) :
  Forall (fun u => u.(Chunk.source_file) = source)
         (ChunkingService.chunk_paragraphs self source paragraphs).
Proof.
  apply (chunks_invariant self source _ (fun _ => True) paragraphs (fun _ => True)).
  - apply Forall_forall. trivial.
  - exact I.
  - trivial.
  - reflexivity.
Qed.

Lemma offset_seq (n m : nat) :
  map (fun i => Z.of_nat n + Z.of_nat i) (seq 0 m) = map Z.of_nat (seq (0 + n) m).
Proof.
  induction m as [|m IH]; [reflexivity|].
  rewrite !seq_S, !map_app, IH. simpl. f_equal. f_equal. lia.
Qed.

Lemma renumber_spec (cs : list Chunk.t) (p : Z) :
  map Chunk.position (fst (BookIngestionOrchestrator.renumber p cs))
  = map (fun i => p + Z.of_nat i) (seq 0 (List.length cs))
  /\ snd (BookIngestionOrchestrator.renumber p cs) = p + len cs.
Proof.
  revert p. induction cs as [|c r IH]; intros p; simpl.
  - split; [reflexivity | unfold len; simpl; lia].
  - specialize (IH (p + 1)).
    destruct (BookIngestionOrchestrator.renumber (p + 1) r) as [r' p'].
    simpl in *. destruct IH as [IH1 IH2]. split.
    + f_equal; [lia|]. rewrite IH1, <- seq_shift, map_map.
      apply map_ext. intros i. lia.
    + rewrite IH2. unfold len. simpl List.length. lia.
Qed.

Lemma process_files_positions (service : ChunkingService.t)
      (files : list (str * outcome str)) :
  let st := BookIngestionOrchestrator._process_files service files in
  map Chunk.position st.(BookIngestionOrchestrator.chunks)
  = count_from_zero (List.length st.(BookIngestionOrchestrator.chunks)).
Proof.
  assert (H : let st := BookIngestionOrchestrator._process_files service files in
              map Chunk.position st.(BookIngestionOrchestrator.chunks)
              = count_from_zero (List.length st.(BookIngestionOrchestrator.chunks))
              /\ st.(BookIngestionOrchestrator.position)
                 = len st.(BookIngestionOrchestrator.chunks)).
  { apply (fold_left_invariant (BookIngestionOrchestrator.step service)
             (fun st => map Chunk.position st.(BookIngestionOrchestrator.chunks)
                        = count_from_zero
                            (List.length st.(BookIngestionOrchestrator.chunks))
                        /\ st.(BookIngestionOrchestrator.position)
                           = len st.(BookIngestionOrchestrator.chunks))
             (fun _ => True)).
    - apply Forall_forall. trivial.
    - split; reflexivity.
    - intros st [path read] _ [Hm Hp]. unfold BookIngestionOrchestrator.step.
      simpl. destruct read as [text|e]; simpl; [|now split].
      pose proof (renumber_spec (ChunkingService.chunk_text service text path)
                    (BookIngestionOrchestrator.position st)) as [R1 R2].
      destruct (BookIngestionOrchestrator.renumber _ _) as [cs' p'] eqn:ER.
      simpl in *.
      assert (Hlen : List.length cs'
                     = List.length (ChunkingService.chunk_text service text path)).
      { rewrite <- (length_map Chunk.position cs'), R1.
        now rewrite length_map, length_seq. }
      split.
      + rewrite map_app, length_app, Hm, R1, Hlen, Hp.
        unfold count_from_zero, len.
        now rewrite seq_app, map_app, offset_seq.
      + rewrite R2, Hp. unfold len. rewrite length_app, Hlen. lia. }
  exact (proj1 H).
Qed.

(** C7.  The units that [chunk_text] produces for one source carry the
    positions 0, 1, 2, ... in the order of emission and all name that
    source, so their positions increase strictly; after [_process_files] has
    renumbered the units of all files, the positions of the units it holds
    are again 0, 1, 2, ... in order, so they still increase strictly. *)
Theorem positions_sequential :
  (forall (self : ChunkingService.t) (text source : str),
      map Chunk.position (ChunkingService.chunk_text self text source)
      = count_from_zero (List.length (ChunkingService.chunk_text self text source))
      /\ Forall (fun u => u.(Chunk.source_file) = source)
                (ChunkingService.chunk_text self text source)
      /\ StronglySorted Z.lt
           (map Chunk.position (ChunkingService.chunk_text self text source)))
  /\ (forall (service : ChunkingService.t) (files : list (str * outcome str)),
         StronglySorted Z.lt
           (map Chunk.position
              (BookIngestionOrchestrator._process_files service files)
                .(BookIngestionOrchestrator.chunks))).
Proof.
  split.
  - intros self text source. unfold ChunkingService.chunk_text.
    pose proof (chunk_paragraphs_positions self source
                  (ChunkingService._split_into_paragraphs text)) as Hp.
    repeat split.
    + exact Hp.
    + apply chunk_paragraphs_source.
    + rewrite Hp. apply seq_sorted.
  - intros service files.
    rewrite (process_files_positions service files). apply seq_sorted.
Qed.

(** ** Token estimates *)

Lemma close_token (source : str) (st : ChunkingService.loop) :
  buffer_ok st -> st.(ChunkingService.current_chunk) <> [] ->
  (ChunkingService.close source st).(Chunk.text) = st.(ChunkingService.current_chunk).
Proof.
  intros [[H _] | H] Hne; [contradiction|]. simpl. now apply clean_strip.
Qed.

(** C5.  The estimate stored in a unit is the length of the text stored in
    that unit divided by four and rounded down. *)
Theorem token_estimate_of_text (self : ChunkingService.t) (text source : str)
        (u : Chunk.t) :
  In u (ChunkingService.chunk_text self text source) ->
  u.(Chunk.token_count) = len u.(Chunk.text) / 4
  /\ 4 * u.(Chunk.token_count) <= len u.(Chunk.text) < 4 * u.(Chunk.token_count) + 4.
Proof.
  intros Hu.
  assert (E : u.(Chunk.token_count) = len u.(Chunk.text) / 4).
  { revert u Hu. apply Forall_forall. unfold ChunkingService.chunk_text.
    apply (chunks_invariant self source _ buffer_ok _ (fun p => clean p = true)).
    - apply paragraphs_clean.
    - apply start_buffer_ok.
    - intros st p. apply step_buffer_ok.
    - intros st Hst Hne. rewrite (close_token source st Hst Hne). reflexivity. }
  split; [exact E|]. rewrite E.
  pose proof (Z.div_mod (len (Chunk.text u)) 4 ltac:(lia)) as Hd.
  pose proof (Z.mod_pos_bound (len (Chunk.text u)) 4 ltac:(lia)). lia.
Qed.

Lemma token_estimate_of_text_witness :
  In (Chunk.mk (repeat 97%N 60) (py "test.txt") None None 0 15 None)
     (ChunkingService.chunk_text fixture_service two_paragraphs (py "test.txt"))
  /\ 15 = len (repeat 97%N 60) / 4.
Proof.
  split.
  - vm_compute. left. reflexivity.
  - apply (token_estimate_of_text fixture_service two_paragraphs (py "test.txt")
             (Chunk.mk (repeat 97%N 60) (py "test.txt") None None 0 15 None)).
    vm_compute. left. reflexivity.
Defined.

(** ** The size of the units *)

Lemma last_text_snoc (units : list Chunk.t) (u : Chunk.t) :
  last_text (units ++ [u]) = Some u.(Chunk.text).
Proof. unfold last_text. now rewrite rev_unit. Qed.

Lemma fresh_buffer_shape (self : ChunkingService.t) (paragraphs : list str)
      (prev : option str) (p : str) :
  In p paragraphs -> buffer_shape self paragraphs prev p.
Proof.
  intros Hp. destruct (Z_le_gt_dec (len p) (ChunkingService.size self)).
  - left. lia.
  - right. left. exists p. repeat split; [exact Hp | lia].
Qed.

Lemma joined_buffer_shape (self : ChunkingService.t) (paragraphs : list str)
      (prev : option str) (cur p : str) :
  Z.gtb (len cur + len p) self.(ChunkingService.size) = false ->
  buffer_shape self paragraphs prev (cur ++ ChunkingService.blank ++ p)
  /\ buffer_shape self paragraphs prev p.
Proof.
  intros Hgt.
  assert (H : ~ ChunkingService.size self < len cur + len p).
  { intros C. apply Z.gtb_lt in C. rewrite C in Hgt. discriminate. }
  split; left; unfold len in *; rewrite ?length_app; simpl List.length; lia.
Qed.

(** The invariant of the loop for the shapes of the units. *)
Lemma step_units_shaped (self : ChunkingService.t) (source : str)
      (paragraphs : list str) (st : ChunkingService.loop) (p : str) :
  clean p = true -> In p paragraphs ->
  buffer_ok st
  /\ units_shaped self paragraphs st.(ChunkingService.chunks)
  /\ (st.(ChunkingService.current_chunk) = []
      \/ buffer_shape self paragraphs (last_text st.(ChunkingService.chunks))
           st.(ChunkingService.current_chunk)) ->
  buffer_ok (ChunkingService.step self source st p)
  /\ units_shaped self paragraphs
       (ChunkingService.step self source st p).(ChunkingService.chunks)
  /\ buffer_shape self paragraphs
       (last_text (ChunkingService.step self source st p).(ChunkingService.chunks))
       (ChunkingService.step self source st p).(ChunkingService.current_chunk).
Proof.
  intros Hc Hp (Hb & Hu & Hs). split; [now apply step_buffer_ok|].
  destruct st as [chunks cur pos]. unfold ChunkingService.step, buffer_ok in *.
  simpl in *.
  destruct (Z.gtb (_ + _) _) eqn:Hgt.
  - destruct Hb as [[-> ->] | Hcl].
    + simpl. rewrite andb_false_r. simpl. split; [exact Hu|].
      now apply fresh_buffer_shape.
    + rewrite (clean_truthy _ Hcl). simpl.
      rewrite len_app_one_pos, andb_true_r.
      assert (Hu' : units_shaped self paragraphs
                      (chunks ++ [ChunkingService.close source
                                    (ChunkingService.mkLoop chunks cur pos)])).
      { constructor; [exact Hu | |]; simpl; rewrite (clean_strip _ Hcl).
        - destruct Hs as [Hs | Hs]; [|exact Hs].
          now apply clean_nonempty in Hcl.
        - reflexivity. }
      destruct (Z.gtb (ChunkingService.overlap self) 0) eqn:Ho; simpl;
        (split; [exact Hu'|]).
      * right. right. split; [now apply Z.gtb_lt|].
        exists cur, p. rewrite last_text_snoc. simpl.
        rewrite (clean_strip _ Hcl). now repeat split.
      * now apply fresh_buffer_shape.
  - simpl. split; [exact Hu|].
    destruct (joined_buffer_shape self paragraphs (last_text chunks) cur p Hgt)
      as [H1 H2].
    destruct (truthy cur); assumption.
Qed.

Lemma chunk_text_shaped (self : ChunkingService.t) (text source : str) :
  units_shaped self (ChunkingService._split_into_paragraphs text)
               (ChunkingService.chunk_text self text source).
Proof.
  unfold ChunkingService.chunk_text, ChunkingService.chunk_paragraphs.
  set (paragraphs := ChunkingService._split_into_paragraphs text).
  assert (H : buffer_ok (fold_left (ChunkingService.step self source) paragraphs
                           ChunkingService.start)
              /\ units_shaped self paragraphs
                   (fold_left (ChunkingService.step self source) paragraphs
                      ChunkingService.start).(ChunkingService.chunks)
              /\ ((fold_left (ChunkingService.step self source) paragraphs
                     ChunkingService.start).(ChunkingService.current_chunk) = []
                  \/ buffer_shape self paragraphs
                       (last_text (fold_left (ChunkingService.step self source)
                                     paragraphs ChunkingService.start)
                                    .(ChunkingService.chunks))
                       (fold_left (ChunkingService.step self source) paragraphs
                          ChunkingService.start).(ChunkingService.current_chunk))).
  { apply (fold_left_invariant (ChunkingService.step self source)
             (fun st => buffer_ok st
                        /\ units_shaped self paragraphs st.(ChunkingService.chunks)
                        /\ (st.(ChunkingService.current_chunk) = []
                            \/ buffer_shape self paragraphs
                                 (last_text st.(ChunkingService.chunks))
                                 st.(ChunkingService.current_chunk)))
             (fun p => clean p = true /\ In p paragraphs)).
    - apply Forall_forall. intros p Hp. split; [|exact Hp].
      pose proof (paragraphs_clean text) as Hc.
      rewrite Forall_forall in Hc. now apply Hc.
    - split; [apply start_buffer_ok|]. split; [constructor | now left].
    - intros st p [Hc Hp] H.
      destruct (step_units_shaped self source paragraphs st p Hc Hp H)
        as (H1 & H2 & H3).
      split; [exact H1|]. split; [exact H2 | now right]. }
  destruct H as (Hb & Hu & Hs). unfold ChunkingService.finish.
  destruct (truthy (strip _)) eqn:Ht; [|exact Hu].
  assert (Hne : ChunkingService.current_chunk
                  (fold_left (ChunkingService.step self source) paragraphs
                     ChunkingService.start) <> []).
  { intros E. rewrite E in Ht. discriminate Ht. }
  constructor; [exact Hu | |]; rewrite (close_token source _ Hb Hne).
  - destruct Hs as [Hs | Hs]; [contradiction | exact Hs].
  - reflexivity.
Qed.

Lemma units_shaped_at (self : ChunkingService.t) (paragraphs : list str)
      (units : list Chunk.t) :
  units_shaped self paragraphs units ->
  forall pre u post,
    units = pre ++ u :: post ->
    buffer_shape self paragraphs (last_text pre) u.(Chunk.text)
    /\ u.(Chunk.token_count) = len u.(Chunk.text) / 4.
Proof.
  induction 1 as [|units x Hu IH Hs Ht]; intros pre u post E.
  - now destruct pre.
  - destruct post as [|z post0].
    + apply app_inj_tail in E as [-> ->]. now split.
    + assert (Hne : z :: post0 <> []) by discriminate.
      destruct (exists_last Hne) as [post' [y Epost]]. rewrite Epost in E.
      change (units ++ [x] = pre ++ (u :: post') ++ [y]) in E.
      rewrite app_assoc in E. apply app_inj_tail in E as [-> _].
      now apply (IH pre u post').
Qed.

(** C4, as the code has it.  The estimate of a unit is at most a quarter of
    the size limit plus the two code points of one separator, except for a
    unit that is one paragraph longer than the limit on its own, and, when
    the overlap is positive, for a unit made of the overlap words of the
    unit before it, a blank line and one paragraph, whose length is not
    compared with the limit. *)
Theorem unit_size_bound (self : ChunkingService.t) (text source : str)
        (pre : list Chunk.t) (u : Chunk.t) (post : list Chunk.t) :
  ChunkingService.chunk_text self text source = pre ++ u :: post ->
  u.(Chunk.token_count) <= (self.(ChunkingService.size) + 2) / 4
  \/ (exists p,
         In p (ChunkingService._split_into_paragraphs text)
         /\ u.(Chunk.text) = p /\ self.(ChunkingService.size) < len p)
  \/ (0 < self.(ChunkingService.overlap)
      /\ exists v p,
           last_text pre = Some v
           /\ In p (ChunkingService._split_into_paragraphs text)
           /\ u.(Chunk.text)
              = ChunkingService._get_overlap_text self v
                  ++ ChunkingService.blank ++ p).
Proof.
  intros E.
  destruct (units_shaped_at self _ _ (chunk_text_shaped self text source)
              pre u post E) as [[Hs | Hs] Ht].
  - left. rewrite Ht. apply Z.div_le_mono; lia.
  - right. exact Hs.
Qed.

Lemma unit_size_bound_witness :
  ChunkingService.chunk_text fixture_service two_paragraphs (py "test.txt")
  = [Chunk.mk (repeat 97%N 60) (py "test.txt") None None 0 15 None]
      ++ Chunk.mk two_paragraphs (py "test.txt") None None 1 30 None :: []
  /\ (30 <= (100 + 2) / 4
      \/ (exists p,
             In p (ChunkingService._split_into_paragraphs two_paragraphs)
             /\ two_paragraphs = p /\ 100 < len p)
      \/ (0 < 20
          /\ exists v p,
               Some (repeat 97%N 60) = Some v
               /\ In p (ChunkingService._split_into_paragraphs two_paragraphs)
               /\ two_paragraphs
                  = ChunkingService._get_overlap_text fixture_service v
                      ++ ChunkingService.blank ++ p)).
Proof.
  split.
  - vm_compute. reflexivity.
  - apply (unit_size_bound fixture_service two_paragraphs (py "test.txt")
             [Chunk.mk (repeat 97%N 60) (py "test.txt") None None 0 15 None]
             (Chunk.mk two_paragraphs (py "test.txt") None None 1 30 None) []).
    vm_compute. reflexivity.
Defined.

(** C4, as stated, fails.  With the limit 100 and the overlap 20 of the unit
    tests, two paragraphs of 60 code points give a second unit of 122 code
    points, estimated at 30 tokens, although no paragraph is longer than the
    limit. *)
Lemma segmentation_bound_fails :
  ~ segmentation_bound fixture_service two_paragraphs (py "test.txt").
Proof.
  intros H.
  destruct (H (Chunk.mk (repeat 97%N 60 ++ ChunkingService.blank ++ repeat 98%N 60)
                 (py "test.txt") None None 1 30 None)) as [C | C].
  - vm_compute. right. left. reflexivity.
  - vm_compute in C. apply C. reflexivity.
  - apply Exists_exists in C as [p [Hin Hlt]].
    vm_compute in Hin. destruct Hin as [<- | [<- | []]];
      vm_compute in Hlt; discriminate Hlt.
Qed.

(** Without overlap the separator alone can carry a unit over the quarter
    of the limit: limit 102, two paragraphs of 51 code points. *)
Example separator_overhead :
  map (fun u => (len u.(Chunk.text), u.(Chunk.token_count)))
      (ChunkingService.chunk_text (ChunkingService.mk 102 0)
         (repeat 97%N 51 ++ ChunkingService.blank ++ repeat 98%N 51) (py "test.txt"))
  = [(104, 26)]
  /\ 102 / 4 = 25.
Proof. vm_compute. split; reflexivity. Qed.

(** The scenario of the specification: one unit, with both headings. *)
Example scenario_headings :
  map (fun c => (c.(Chunk.chapter), c.(Chunk.section), c.(Chunk.position)))
      (ChunkingService.chunk_text (ChunkingService.mk 1000 50) scenario_text
         (py "book.md"))
  = [(Some (py "Ch1"), Some (py "Sec1"), 0)].
Proof. vm_compute. reflexivity. Qed.

(** ** The grounding policy *)

#[local] Opaque RAGAgent.SYSTEM_PROMPT ChatApi.RAG_SYSTEM_PROMPT
  ChatApi.SIMPLE_SYSTEM_PROMPT RAGAgent.FALLBACK_RESPONSE ChatApi.error_prefix.

Ltac unfold_handlers :=
  unfold RAGAgent.chat, RAGAgent._chat_full_book, RAGAgent._chat_with_selected_text,
    ChatApi.rag_chat, ChatApi.retrieve_context, RetrieverAgent.retrieve,
    SelectedTextAgent.answer_with_selected_text, QdrantService.search,
    CohereService.embed_text, CohereService.chat,
    try_except, bind, ret, raise, lift in *.

(** Retrieval sends nothing to the model. *)
Lemma retrieve_calls (env : Env) (query : str) (book_id : option str) (top_k : Z)
      (score_threshold : option float) (log : list Call) :
  exists new,
    snd (RetrieverAgent.retrieve env query book_id top_k score_threshold log) = log ++ new
    /\ model_not_invoked new = true.
Proof.
  unfold_handlers.
  destruct (embeddings_create env log query) as [v|e]; simpl.
  - destruct (negb (qdrant_client env)); simpl.
    + now exists [EmbeddingsCreate query].
    + destruct (query_points env _ _ _ _ _); simpl;
        rewrite <- app_assoc; eexists; split; reflexivity.
  - now exists [EmbeddingsCreate query].
Qed.

(** On the whole-corpus branch, [chat] wraps [_chat_full_book]. *)
Lemma chat_whole_corpus (self : RAGAgent.t) (env : Env) (request : ChatRequest.t)
      (mode : str) (log : list Call) :
  whole_corpus request mode = true ->
  RAGAgent.chat self env request mode log
  = match RAGAgent._chat_full_book env request log with
    | (Return result, log') =>
        (Return {| ChatResponse.answer := result.(RAGAgent.answer);
                   ChatResponse.citations := result.(RAGAgent.citations);
                   ChatResponse.mode := mode;
                   ChatResponse.chunks_retrieved := result.(RAGAgent.chunks_retrieved);
                   ChatResponse.model_used := self.(RAGAgent.chat_model) |}, log')
    | (Raise e, log') => (Return (fallback_result self mode), log')
    end.
Proof.
  unfold whole_corpus. intros H. apply negb_true_iff in H.
  unfold RAGAgent.chat, try_except, bind, ret. rewrite H.
  destruct (RAGAgent._chat_full_book env request log) as [[result|e] log'];
    reflexivity.
Qed.

Lemma full_book_empty (env : Env) (request : ChatRequest.t) (log log' : list Call) :
  RetrieverAgent.retrieve env request.(ChatRequest.query) request.(ChatRequest.book_id)
    request.(ChatRequest.max_chunks) None log = (Return [], log') ->
  RAGAgent._chat_full_book env request log
  = (Return {| RAGAgent.answer := RAGAgent.FALLBACK_RESPONSE;
               RAGAgent.citations := [];
               RAGAgent.chunks_retrieved := 0 |}, log').
Proof.
  intros H. unfold RAGAgent._chat_full_book, bind. rewrite H. reflexivity.
Qed.

(** C1, as the code has it.  When retrieval returns no unit, the
    orchestrator [RAGAgent.chat] on its whole-corpus branch returns the fixed
    refusal with no citation and zero units, and the calls of the request
    are those of retrieval, none of them to the model: this needs nothing of
    the model, which may reply or fail.  The endpoint [rag_chat], when its
    own retrieval returns no unit, instead sends the question to the model
    under the general-purpose prompt, and returns the reply of the model
    with no citation, zero units and mode ["simple"], or its apology when
    the model fails. *)
Theorem empty_retrieval_policy (self : RAGAgent.t) (env : Env)
        (request : ChatRequest.t) (mode : str) (log log1 : list Call) :
  whole_corpus request mode = true ->
  RetrieverAgent.retrieve env request.(ChatRequest.query) request.(ChatRequest.book_id)
    request.(ChatRequest.max_chunks) None log = (Return [], log1) ->
  RAGAgent.chat self env request mode log = (Return (fallback_result self mode), log1)
  /\ (exists new, log1 = log ++ new /\ model_not_invoked new = true)
  /\ (forall log2 : list Call,
        ChatApi.retrieve_context env request.(ChatRequest.query)
          request.(ChatRequest.book_id)
          (int_or (Some request.(ChatRequest.max_chunks)) 5) log = (Return [], log2) ->
        snd (ChatApi.rag_chat env request log)
        = log2 ++ [ChatCompletionsCreate (simple_messages request)
                     CohereService.default_temperature
                     CohereService.default_max_tokens]
        /\ fst (ChatApi.rag_chat env request log)
           = match env.(chat_completions_create) log2 (simple_messages request)
                     CohereService.default_temperature
                     CohereService.default_max_tokens with
             | Return reply =>
                 Return {| ChatResponse.answer := reply;
                           ChatResponse.citations := [];
                           ChatResponse.mode := py "simple";
                           ChatResponse.chunks_retrieved := 0;
                           ChatResponse.model_used := CohereService.chat_model env |}
             | Raise e => Return (error_response env e)
             end).
Proof.
  intros Hw H1. split; [|split].
  - rewrite (chat_whole_corpus self env request mode log Hw).
    now rewrite (full_book_empty env request log log1 H1).
  - destruct (retrieve_calls env request.(ChatRequest.query)
                request.(ChatRequest.book_id) request.(ChatRequest.max_chunks)
                None log) as [new [E Hn]].
    rewrite H1 in E. simpl in E. now exists new.
  - intros log2 H2.
    unfold ChatApi.rag_chat, try_except, bind. rewrite H2. simpl.
    unfold CohereService.chat, ret. fold (simple_messages request).
    destruct (env.(chat_completions_create) log2 (simple_messages request)
                CohereService.default_temperature CohereService.default_max_tokens);
      split; reflexivity.
Qed.

Lemma empty_retrieval_policy_witness :
  RAGAgent.chat (RAGAgent.init default_settings) empty_index_env what_is_x
    (py "full_book") []
  = (Return (fallback_result (RAGAgent.init default_settings) (py "full_book")),
     [EmbeddingsCreate (py "What is X?");
      QueryPoints [1%float] 5 None None])
  /\ fst (ChatApi.rag_chat empty_index_env what_is_x [])
     = Return {| ChatResponse.answer := py "Hello";
                 ChatResponse.citations := [];
                 ChatResponse.mode := py "simple";
                 ChatResponse.chunks_retrieved := 0;
                 ChatResponse.model_used := py "command-a-03-2025" |}.
Proof.
  destruct (empty_retrieval_policy (RAGAgent.init default_settings) empty_index_env
              what_is_x (py "full_book") []
              [EmbeddingsCreate (py "What is X?"); QueryPoints [1%float] 5 None None])
    as [H1 [_ H2]].
  - vm_compute. reflexivity.
  - vm_compute. reflexivity.
  - split; [exact H1|].
    destruct (H2 [EmbeddingsCreate (py "What is X?");
                  QueryPoints [1%float] 5 None None]) as [_ H3].
    + vm_compute. reflexivity.
    + rewrite H3. reflexivity.
Defined.

(** C1, as stated, fails at the endpoint: over an index that holds nothing,
    [rag_chat] answers the question with the reply of the model. *)
Lemma endpoint_answers_on_empty_retrieval : ~ endpoint_refuses_on_empty_retrieval.
Proof.
  intros H.
  destruct (H empty_index_env what_is_x []
              [EmbeddingsCreate (py "What is X?"); QueryPoints [1%float] 5 None None])
    as [r [Hr _]].
  - vm_compute. reflexivity.
  - vm_compute in Hr. discriminate Hr.
Qed.

(** ** Faults of the external calls *)

Lemma first_fault_app (env : Env) (new1 new2 history : list Call) :
  first_fault env history (new1 ++ new2)
  = match first_fault env history new1 with
    | Some e => Some e
    | None => first_fault env (history ++ new1) new2
    end.
Proof.
  revert history. induction new1 as [|c r IH]; intros history; simpl.
  - now rewrite app_nil_r.
  - destruct (raised_by env history c); [reflexivity|].
    rewrite IH, <- app_assoc. reflexivity.
Qed.

Section Propagation.

Variable env : Env.

Lemma propagates_ret {A : Type} (a : A) : propagates env (ret a).
Proof. intros log. exists []. rewrite app_nil_r. split; [reflexivity | discriminate]. Qed.

Lemma propagates_raise {A : Type} (e : Exception.t) : propagates env (@raise A e).
Proof. intros log. exists []. rewrite app_nil_r. split; [reflexivity | discriminate]. Qed.

Lemma propagates_lift {A : Type} (o : outcome A) : propagates env (lift o).
Proof. intros log. exists []. rewrite app_nil_r. split; [reflexivity | discriminate]. Qed.

Lemma propagates_bind {A B : Type} (m : M A) (k : A -> M B) :
  propagates env m -> (forall a, propagates env (k a)) -> propagates env (bind m k).
Proof.
  intros Hm Hk log. destruct (Hm log) as [new1 [E1 F1]]. unfold bind.
  destruct (m log) as [[a|e0] log1]; simpl in *; subst log1.
  - destruct (Hk a (log ++ new1)) as [new2 [E2 F2]].
    exists (new1 ++ new2). rewrite app_assoc. split; [exact E2|].
    intros e He. rewrite first_fault_app in He.
    destruct (first_fault env log new1) as [e1|].
    + specialize (F1 e1 eq_refl). discriminate F1.
    + now apply F2.
  - exists new1. split; [reflexivity|]. intros e He.
    specialize (F1 e He). now injection F1 as ->.
Qed.

Lemma propagates_embed_text (text : str) :
  propagates env (CohereService.embed_text env text).
Proof.
  intros log. exists [EmbeddingsCreate text]. split; [reflexivity|].
  unfold CohereService.embed_text. simpl.
  destruct (embeddings_create env log text); intros e0 H; congruence.
Qed.

Lemma propagates_chat (messages : list Message.t) :
  propagates env (CohereService.chat env messages).
Proof.
  intros log. eexists [_]. split; [reflexivity|].
  unfold CohereService.chat. simpl.
  destruct (chat_completions_create env log messages _ _); intros e0 H; congruence.
Qed.

Lemma propagates_search (query_vector : list float) (limit : Z)
      (score_threshold : option float) (book_id : option str) :
  propagates env (QdrantService.search env query_vector limit score_threshold book_id).
Proof.
  unfold QdrantService.search. destruct (negb (qdrant_client env)).
  - apply propagates_raise.
  - intros log. eexists [_]. split; [reflexivity|]. simpl.
    destruct (query_points env log query_vector limit _ score_threshold);
      intros e0 H; congruence.
Qed.

Lemma propagates_retrieve (query : str) (book_id : option str) (top_k : Z)
      (score_threshold : option float) :
  propagates env (RetrieverAgent.retrieve env query book_id top_k score_threshold).
Proof.
  apply propagates_bind; [apply propagates_embed_text|]. intros v.
  apply propagates_bind; [apply propagates_search|]. intros points.
  apply propagates_ret.
Qed.

Lemma propagates_full_book (request : ChatRequest.t) :
  propagates env (RAGAgent._chat_full_book env request).
Proof.
  apply propagates_bind; [apply propagates_retrieve|]. intros [|c chunks].
  - apply propagates_ret.
  - apply propagates_bind; [apply propagates_chat|]. intros answer.
    apply propagates_bind; [apply propagates_lift|]. intros citations.
    apply propagates_ret.
Qed.

Lemma propagates_answer_with_selected_text (query selected : str)
      (book_id : option str) (retrieve_additional : bool) :
  propagates env
    (SelectedTextAgent.answer_with_selected_text env query selected book_id
       retrieve_additional).
Proof.
  apply propagates_bind.
  - destruct retrieve_additional; [|apply propagates_ret].
    apply propagates_bind; [apply propagates_embed_text|]. intros v.
    apply propagates_bind; [apply propagates_search|]. intros points.
    apply propagates_ret.
  - intros chunks. apply propagates_ret.
Qed.

Lemma propagates_selected (request : ChatRequest.t) :
  propagates env (RAGAgent._chat_with_selected_text env request).
Proof.
  unfold RAGAgent._chat_with_selected_text.
  destruct (ChatRequest.selected_text request) as [selected|];
    [|apply propagates_raise].
  apply propagates_bind; [apply propagates_answer_with_selected_text|].
  intros result.
  apply propagates_bind; [apply propagates_chat|]. intros answer.
  apply propagates_bind; [apply propagates_lift|]. intros first.
  apply propagates_bind; [apply propagates_lift|]. intros others.
  apply propagates_ret.
Qed.

Lemma propagates_rag_body (request : ChatRequest.t) (k : list ChatApi.chunk -> M ChatResponse.t) :
  (forall chunks, propagates env (k chunks)) ->
  propagates env
    (bind (ChatApi.retrieve_context env request.(ChatRequest.query)
             request.(ChatRequest.book_id)
             (int_or (Some request.(ChatRequest.max_chunks)) 5)) k).
Proof.
  intros Hk. apply propagates_bind; [|exact Hk].
  apply propagates_bind; [apply propagates_embed_text|]. intros v.
  apply propagates_bind; [apply propagates_search|]. intros points.
  apply propagates_ret.
Qed.

(** [try: body except Exception as e: return handler(e)] returns, and
    returns [handler e] when a call of the body answered with [e]. *)
Lemma try_except_fault {A : Type} (body : M A) (handler : Exception.t -> A) :
  propagates env body ->
  forall log, exists r new,
    try_except body (fun e => ret (handler e)) log = (Return r, log ++ new)
    /\ forall e, first_fault env log new = Some e -> r = handler e.
Proof.
  intros Hb log. destruct (Hb log) as [new [E F]]. unfold try_except, ret.
  destruct (body log) as [[a|e0] log1]; simpl in *; subst log1.
  - exists a, new. split; [reflexivity|]. intros e He.
    specialize (F e He). discriminate F.
  - exists (handler e0), new. split; [reflexivity|]. intros e He.
    specialize (F e He). now injection F as ->.
Qed.

End Propagation.

Lemma chat_fault_trace (self : RAGAgent.t) (env : Env) (request : ChatRequest.t)
      (mode : str) (log : list Call) :
  exists r new,
    RAGAgent.chat self env request mode log = (Return r, log ++ new)
    /\ forall e, first_fault env log new = Some e -> r = fallback_result self mode.
Proof.
  apply (try_except_fault env _ (fun _ => fallback_result self mode)).
  apply propagates_bind.
  - destruct (_ && _)%bool; [apply propagates_selected | apply propagates_full_book].
  - intros result. apply propagates_ret.
Qed.

Lemma rag_chat_fault_trace (env : Env) (request : ChatRequest.t) (log : list Call) :
  exists r new,
    ChatApi.rag_chat env request log = (Return r, log ++ new)
    /\ forall e, first_fault env log new = Some e -> r = error_response env e.
Proof.
  apply (try_except_fault env _ (error_response env)).
  apply propagates_rag_body. intros chunks.
  destruct (filter _ chunks).
  - apply propagates_bind; [apply propagates_chat|]. intros answer.
    apply propagates_ret.
  - apply propagates_bind; [apply propagates_chat|]. intros answer.
    apply propagates_bind; [apply propagates_lift|]. intros citations.
    apply propagates_ret.
Qed.

(** C2, as the code has it.  [RAGAgent.chat] always returns; when a call to
    the embedding endpoint, the index or the model answered with an
    exception, what it returns is the fixed refusal with no citation and
    zero units, the very result it returns when retrieval finds nothing.
    The endpoint [rag_chat] always returns as well, but on such an
    exception its answer is the apology followed by the text of the
    exception, with no citation and zero units. *)
Theorem fault_policy (self : RAGAgent.t) (env : Env) (request : ChatRequest.t)
        (mode : str) (log : list Call) :
  (exists r new,
      RAGAgent.chat self env request mode log = (Return r, log ++ new)
      /\ forall e, first_fault env log new = Some e -> r = fallback_result self mode)
  /\ (forall log1,
         whole_corpus request mode = true ->
         RetrieverAgent.retrieve env request.(ChatRequest.query)
           request.(ChatRequest.book_id) request.(ChatRequest.max_chunks) None log
         = (Return [], log1) ->
         RAGAgent.chat self env request mode log
         = (Return (fallback_result self mode), log1))
  /\ (exists r new,
         ChatApi.rag_chat env request log = (Return r, log ++ new)
         /\ forall e, first_fault env log new = Some e -> r = error_response env e).
Proof.
  split; [apply chat_fault_trace | split; [|apply rag_chat_fault_trace]].
  intros log1 Hw H.
  rewrite (chat_whole_corpus self env request mode log Hw).
  now rewrite (full_book_empty env request log log1 H).
Qed.

(** The embedding endpoint is down: the orchestrator refuses, the endpoint
    apologises. *)
Example embedding_fault :
  first_fault embedding_down_env [] [EmbeddingsCreate (py "What is X?")]
  = Some (Exception.mk (py "APIConnectionError") (py "Connection error."))
  /\ RAGAgent.chat (RAGAgent.init default_settings) embedding_down_env what_is_x
       (py "full_book") []
     = (Return (fallback_result (RAGAgent.init default_settings) (py "full_book")),
        [EmbeddingsCreate (py "What is X?")])
  /\ (fst (ChatApi.rag_chat embedding_down_env what_is_x []))
     = Return (error_response embedding_down_env
                 (Exception.mk (py "APIConnectionError") (py "Connection error."))).
Proof. vm_compute. repeat split. Qed.

(** The index is down, or the model is down after units were found, in
    either mode: the orchestrator refuses; the endpoint apologises. *)
Example later_faults :
  fst (RAGAgent.chat (RAGAgent.init default_settings) index_down_env what_is_x
         (py "full_book") [])
  = Return (fallback_result (RAGAgent.init default_settings) (py "full_book"))
  /\ fst (RAGAgent.chat (RAGAgent.init default_settings) model_down_env what_is_x
            (py "full_book") [])
     = Return (fallback_result (RAGAgent.init default_settings) (py "full_book"))
  /\ fst (RAGAgent.chat (RAGAgent.init default_settings) model_down_env explain_this
            (py "selected_text") [])
     = Return (fallback_result (RAGAgent.init default_settings) (py "selected_text"))
  /\ List.length (snd (RAGAgent.chat (RAGAgent.init default_settings) model_down_env
                         explain_this (py "selected_text") [])) = 3%nat
  /\ fst (ChatApi.rag_chat model_down_env what_is_x [])
     = Return (error_response model_down_env
                 (Exception.mk (py "RateLimitError") (py "Too many requests"))).
Proof. vm_compute. repeat split. Qed.

(** C2, as stated, fails at the endpoint: with the embedding endpoint down,
    the answer of [rag_chat] is not the refusal. *)
Lemma endpoint_apologises_on_fault : ~ endpoint_refuses_on_fault.
Proof.
  intros H.
  destruct (H embedding_down_env what_is_x [] [EmbeddingsCreate (py "What is X?")]
              (Return (error_response embedding_down_env
                         (Exception.mk (py "APIConnectionError")
                                       (py "Connection error."))))
              (Exception.mk (py "APIConnectionError") (py "Connection error.")))
    as [r [Hr [Ha _]]].
  - vm_compute. reflexivity.
  - vm_compute. reflexivity.
  - injection Hr as <-. vm_compute in Ha. discriminate Ha.
Qed.

(** ** A request in mode ["selected_text"] without a selection *)

Lemma whole_corpus_full_book (request : ChatRequest.t) :
  whole_corpus request (py "full_book") = true.
Proof. reflexivity. Qed.

Lemma whole_corpus_no_selection (request : ChatRequest.t) (mode : str) :
  truthy_opt request.(ChatRequest.selected_text) = false ->
  whole_corpus request mode = true.
Proof. unfold whole_corpus. intros ->. now rewrite andb_false_r. Qed.

(** C10, as the code has it.  A request in mode ["selected_text"] whose
    selection is absent or empty is handled by the whole-corpus path: it
    issues the calls of mode ["full_book"] and returns the result of mode
    ["full_book"] in every field but [mode], which repeats the mode that was
    asked for. *)
Theorem no_selection_uses_full_book (self : RAGAgent.t) (env : Env)
        (request : ChatRequest.t) (log : list Call) :
  truthy_opt request.(ChatRequest.selected_text) = false ->
  exists r log',
    RAGAgent.chat self env request (py "full_book") log = (Return r, log')
    /\ RAGAgent.chat self env request (py "selected_text") log
       = (Return (with_mode (py "selected_text") r), log').
Proof.
  intros H.
  rewrite (chat_whole_corpus self env request _ log (whole_corpus_full_book request)).
  rewrite (chat_whole_corpus self env request _ log
             (whole_corpus_no_selection request _ H)).
  destruct (RAGAgent._chat_full_book env request log) as [[result|e] log'];
    do 2 eexists; split; reflexivity.
Qed.

Lemma no_selection_uses_full_book_witness :
  exists r log',
    RAGAgent.chat (RAGAgent.init default_settings) empty_index_env what_is_x
      (py "full_book") [] = (Return r, log')
    /\ RAGAgent.chat (RAGAgent.init default_settings) empty_index_env what_is_x
         (py "selected_text") []
       = (Return (with_mode (py "selected_text") r), log').
Proof.
  apply (no_selection_uses_full_book (RAGAgent.init default_settings)
           empty_index_env what_is_x []).
  reflexivity.
Defined.

(** C10, as stated, fails: the two results differ under the key [mode]. *)
Lemma mode_key_differs : ~ same_result_as_full_book.
Proof.
  intros H.
  specialize (H (RAGAgent.init default_settings) empty_index_env what_is_x []
                eq_refl).
  vm_compute in H. discriminate H.
Qed.

(** ** Mode routing *)

Lemma lstrip_all_space (s : str) : forallb isspace s = true -> lstrip s = [].
Proof.
  induction s as [|c r IH]; simpl; [reflexivity|].
  destruct (isspace c); simpl; [exact IH | discriminate].
Qed.

Lemma lstrip_some_letter (s : str) : forallb isspace s = false -> lstrip s <> [].
Proof.
  induction s as [|c r IH]; simpl; [discriminate|].
  destruct (isspace c); simpl; [exact IH | discriminate].
Qed.

(** Trimming leaves something exactly when some code point is not a
    space. *)
Lemma strip_truthy (s : str) : truthy (strip s) = negb (forallb isspace s).
Proof.
  destruct (forallb isspace s) eqn:E; simpl.
  - unfold strip. now rewrite (lstrip_all_space s E).
  - apply truthy_nonempty. unfold strip, rstrip.
    pose proof (lstrip_some_letter s E) as Hne.
    destruct (lstrip_starts s) as [H | H]; [contradiction|].
    destruct (lstrip s) as [|c r]; [discriminate|].
    simpl in H. apply negb_true_iff in H.
    simpl rev. rewrite (lstrip_app_last _ _ H), rev_app_distr. discriminate.
Qed.





(** A request built from the field declarations carries a mode even when
    none was given, so the router honours the default ["full_book"]
    whatever the selection. *)
Remark validated_request_has_mode (query : str) (selected_text book_id : option str)
       (max_chunks : option Z) (request : ChatRequest.t) :
  ChatRequest.validate query selected_text book_id None max_chunks = Some request ->
  RouterAgent.detect_mode request = py "full_book".
Proof.
  unfold ChatRequest.validate. destruct (_ && _)%bool; [|discriminate].
  intros H. injection H as <-. reflexivity.
Qed.

(** ** Citations *)

Lemma snippet_spec (s : str) :
  is_snippet_of s (if Z.gtb (len s) 200 then upto 200 s ++ py "..." else s).
Proof.
  unfold is_snippet_of, upto, len.
  destruct (Z.gtb_spec (Z.of_nat (List.length s)) 200) as [H | H]; split; intros H'.
  - split; [reflexivity|]. rewrite length_app, length_firstn.
    change (List.length (py "...")) with 3%nat. lia.
  - lia.
  - lia.
  - reflexivity.
Qed.

Lemma for_each_Forall2 {A B : Type} (f : A -> outcome B) (xs : list A) (ys : list B) :
  for_each f xs = Return ys <-> Forall2 (fun x y => f x = Return y) xs ys.
Proof.
  revert ys. induction xs as [|x r IH]; intros ys; simpl.
  - split; intros H.
    + injection H as <-. constructor.
    + inversion H. reflexivity.
  - split; intros H.
    + destruct (f x) as [y|e] eqn:Ex; [|discriminate].
      destruct (for_each f r) as [ys'|e]; [|discriminate].
      injection H as <-. constructor; [exact Ex | now apply IH].
    + inversion H as [|? y ? ys' Hx Hr]; subst. rewrite Hx.
      apply IH in Hr. now rewrite Hr.
Qed.

Lemma Citation_new_inv (env : Env) (i t s ch sec : option str) (sc : float)
      (c : Citation.t) :
  Citation.new env i t s ch sec sc = Return c ->
  i = Some c.(Citation.chunk_id) /\ t = Some c.(Citation.text)
  /\ s = Some c.(Citation.source) /\ c.(Citation.chapter) = ch
  /\ c.(Citation.section) = sec /\ c.(Citation.score) = sc.
Proof.
  unfold Citation.new. destruct i, t, s; try discriminate.
  intros H. injection H as <-. simpl. repeat split.
Qed.

Lemma Citation_new_complete (env : Env) (i t s ch sec : option str) (sc : float) :
  i <> None -> t <> None -> s <> None ->
  exists c, Citation.new env i t s ch sec sc = Return c.
Proof.
  destruct i, t, s; try congruence. intros _ _ _. eexists. reflexivity.
Qed.

Lemma Forall2_impl {A B : Type} (R R' : A -> B -> Prop) (xs : list A) (ys : list B) :
  (forall x y, R x y -> R' x y) -> Forall2 R xs ys -> Forall2 R' xs ys.
Proof. intros HR H. induction H; constructor; auto. Qed.

Lemma Forall_exists_Forall2 {A B : Type} (R : A -> B -> Prop) (xs : list A) :
  Forall (fun x => exists y, R x y) xs -> exists ys, Forall2 R xs ys.
Proof.
  induction 1 as [|x r [y Hy] _ [ys IH]].
  - exists []. constructor.
  - exists (y :: ys). now constructor.
Qed.

Lemma extract_citations_retrieved (env : Env) (chunks : list RetrieverAgent.chunk)
      (cites : list Citation.t) :
  RAGAgent._extract_citations env chunks = Return cites ->
  Forall2 cites_retrieved chunks cites.
Proof.
  intros H. apply for_each_Forall2 in H. revert H. apply Forall2_impl.
  intros ch c Hc. destruct (RetrieverAgent.text ch) as [s|] eqn:Et; [|discriminate].
  apply Citation_new_inv in Hc as (Hi & Ht & Hs & Hch & Hsec & Hsc).
  exists s. split; [assumption|]. split.
  { injection Ht as Ht. rewrite <- Ht. apply snippet_spec. }
  repeat (split; [assumption|]). assumption.
Qed.

Lemma extract_citations_relevant (env : Env) (chunks : list ChatApi.chunk)
      (cites : list Citation.t) :
  ChatApi.extract_citations env chunks = Return cites ->
  Forall2 cites_relevant chunks cites.
Proof.
  intros H. apply for_each_Forall2 in H. revert H. apply Forall2_impl.
  intros ch c Hc. destruct (ChatApi.text ch) as [s|] eqn:Et; [|discriminate].
  apply Citation_new_inv in Hc as (Hi & Ht & Hs & Hch & Hsec & Hsc).
  exists s. split; [assumption|]. split.
  { injection Ht as Ht. rewrite <- Ht. apply snippet_spec. }
  repeat (split; [assumption|]). assumption.
Qed.

(** What [_chat_with_selected_text] returns, when it returns. *)
Lemma selected_result_shape (env : Env) (request : ChatRequest.t)
      (log log' : list Call) (r : RAGAgent.result) :
  RAGAgent._chat_with_selected_text env request log = (Return r, log') ->
  exists selected res log1 first others,
    request.(ChatRequest.selected_text) = Some selected
    /\ SelectedTextAgent.answer_with_selected_text env request.(ChatRequest.query)
         selected request.(ChatRequest.book_id) true log = (Return res, log1)
    /\ r.(RAGAgent.citations) = first :: others
    /\ is_user_selection selected first
    /\ Forall2 cites_additional res.(SelectedTextAgent.additional_chunks) others
    /\ r.(RAGAgent.chunks_retrieved) = len others + 1.
Proof.
  unfold RAGAgent._chat_with_selected_text.
  destruct (ChatRequest.selected_text request) as [selected|]; [|discriminate].
  unfold bind at 1.
  destruct (SelectedTextAgent.answer_with_selected_text env _ selected _ true log)
    as [[res|e] log1] eqn:Eres; [|discriminate].
  unfold bind at 1.
  destruct (CohereService.chat env _ log1) as [[answer|e] log2]; [|discriminate].
  unfold bind, lift, ret. cbn -[upto len].
  destruct (for_each _ (SelectedTextAgent.additional_chunks res)) as [others|e] eqn:Eo;
    [|discriminate].
  intros H. injection H as <- <-. cbn -[upto len].
  apply for_each_Forall2 in Eo.
  assert (HF : Forall2 cites_additional (SelectedTextAgent.additional_chunks res) others).
  { revert Eo. apply Forall2_impl. intros ch c Hc.
    destruct (SelectedTextAgent.text ch) as [s|] eqn:Et; [|discriminate].
    apply Citation_new_inv in Hc as (Hi & Ht & Hs & Hch & Hsec & Hsc).
    injection Ht as Ht.
    exists s. split; [assumption|]. split; [rewrite <- Ht; apply snippet_spec|].
    repeat (split; [assumption|]). assumption. }
  exists selected, res, log1. do 2 eexists.
  split; [reflexivity|]. split; [exact Eres|]. split; [reflexivity|].
  split; [|split; [exact HF|]].
  - unfold is_user_selection. cbn -[upto len].
    repeat (split; [reflexivity|]). apply snippet_spec.
  - apply Forall2_length in HF. unfold len. now rewrite HF.
Qed.

Lemma extract_citations_retrieved_total (env : Env) (chunks : list RetrieverAgent.chunk) :
  Forall (fun ch => ch.(RetrieverAgent.chunk_id) <> None
                    /\ ch.(RetrieverAgent.text) <> None
                    /\ ch.(RetrieverAgent.source_file) <> None) chunks ->
  exists cites, RAGAgent._extract_citations env chunks = Return cites.
Proof.
  intros H. unfold RAGAgent._extract_citations.
  match goal with
  | |- exists cites, for_each ?f _ = _ =>
      destruct (Forall_exists_Forall2 (fun x y => f x = Return y) chunks) as [cites Hc]
  end.
  - revert H. apply Forall_impl. intros ch (Hi & Ht & Hs).
    destruct (RetrieverAgent.text ch); [|congruence].
    apply Citation_new_complete; congruence.
  - exists cites. now apply for_each_Forall2.
Qed.

Lemma extract_citations_relevant_total (env : Env) (chunks : list ChatApi.chunk) :
  Forall (fun ch => ch.(ChatApi.chunk_id) <> None
                    /\ ch.(ChatApi.text) <> None
                    /\ ch.(ChatApi.source_file) <> None) chunks ->
  exists cites, ChatApi.extract_citations env chunks = Return cites.
Proof.
  intros H. unfold ChatApi.extract_citations.
  match goal with
  | |- exists cites, for_each ?f _ = _ =>
      destruct (Forall_exists_Forall2 (fun x y => f x = Return y) chunks) as [cites Hc]
  end.
  - revert H. apply Forall_impl. intros ch (Hi & Ht & Hs).
    destruct (ChatApi.text ch); [|congruence].
    apply Citation_new_complete; congruence.
  - exists cites. now apply for_each_Forall2.
Qed.

(** C6.  At each place where citations are built -- [_extract_citations] of
    the orchestrator, [extract_citations] of the endpoint, and the two
    constructions of [_chat_with_selected_text] -- the citations are in
    one-to-one correspondence, in order, with the units, and the snippet of
    a unit whose text is longer than 200 code points is its first 200 code
    points followed by three dots, while the snippet of a shorter text is
    the text itself.  The two extraction functions return whenever every
    unit names its identifier, its text and its source. *)
Theorem citation_snippets (env : Env) :
  (forall chunks cites,
      RAGAgent._extract_citations env chunks = Return cites ->
      Forall2 cites_retrieved chunks cites)
  /\ (forall chunks,
         Forall (fun ch => ch.(RetrieverAgent.chunk_id) <> None
                           /\ ch.(RetrieverAgent.text) <> None
                           /\ ch.(RetrieverAgent.source_file) <> None) chunks ->
         exists cites, RAGAgent._extract_citations env chunks = Return cites)
  /\ (forall chunks cites,
         ChatApi.extract_citations env chunks = Return cites ->
         Forall2 cites_relevant chunks cites)
  /\ (forall chunks,
         Forall (fun ch => ch.(ChatApi.chunk_id) <> None
                           /\ ch.(ChatApi.text) <> None
                           /\ ch.(ChatApi.source_file) <> None) chunks ->
         exists cites, ChatApi.extract_citations env chunks = Return cites)
  /\ (forall request log r log',
         RAGAgent._chat_with_selected_text env request log = (Return r, log') ->
         exists selected res log1 first others,
           request.(ChatRequest.selected_text) = Some selected
           /\ SelectedTextAgent.answer_with_selected_text env
                request.(ChatRequest.query) selected request.(ChatRequest.book_id)
                true log = (Return res, log1)
           /\ r.(RAGAgent.citations) = first :: others
           /\ is_snippet_of selected first.(Citation.text)
           /\ Forall2 cites_additional res.(SelectedTextAgent.additional_chunks) others).
Proof.
  split; [apply extract_citations_retrieved|].
  split; [apply extract_citations_retrieved_total|].
  split; [apply extract_citations_relevant|].
  split; [apply extract_citations_relevant_total|].
  intros request log r log' H.
  destruct (selected_result_shape env request log log' r H)
    as (selected & res & log1 & first & others & Hs & Hres & Hc & Hf & Ho & _).
  exists selected, res, log1, first, others.
  repeat (split; [assumption|]). split; [|exact Ho].
  now destruct Hf as (_ & _ & _ & _ & _ & Hf).
Qed.

(** The snippets of a short and of a long unit. *)
Example two_snippets :
  match RAGAgent._extract_citations two_units_env
          (map RetrieverAgent.of_point two_units) with
  | Return cites =>
      map (fun c => len c.(Citation.text)) cites = [14; 203]
      /\ map Citation.text cites
         = [py "X is a letter."; repeat 120%N 200 ++ py "..."]
  | Raise _ => False
  end.
Proof. vm_compute. split; reflexivity. Qed.

(** ** The pinned-passage path *)

Lemma selected_total (env : Env) (request : ChatRequest.t) (log : list Call) :
  healthy env -> request.(ChatRequest.selected_text) <> None ->
  exists r log', RAGAgent._chat_with_selected_text env request log = (Return r, log').
Proof.
  intros (Hc & Hemb & Hqry & Hgen) Hsel.
  unfold RAGAgent._chat_with_selected_text.
  destruct (ChatRequest.selected_text request) as [selected|]; [|congruence].
  unfold SelectedTextAgent.answer_with_selected_text, QdrantService.search,
    CohereService.embed_text, CohereService.chat, bind, ret, lift.
  rewrite Hc. cbn -[upto len].
  destruct (Hemb log (upto 5000 (strip selected))) as [v ->].
  match goal with
  | |- context [query_points env ?h ?q ?l ?f ?s] =>
      destruct (Hqry h q l f s) as [points [-> Hp]]
  end.
  cbn -[upto len].
  match goal with
  | |- context [chat_completions_create env ?h ?m ?t ?k] =>
      destruct (Hgen h m t k) as [reply ->]
  end.
  match goal with
  | |- context [for_each ?f ?l] =>
      destruct (Forall_exists_Forall2 (fun x y => f x = Return y) l) as [others Ho]
  end.
  - apply Forall_forall. intros ch Hch. apply in_map_iff in Hch as [p [<- Hin]].
    rewrite Forall_forall in Hp. destruct (Hp p Hin) as (Hi & Ht & Hs).
    unfold SelectedTextAgent.of_point. cbn -[upto len].
    destruct (Payload.text (ScoredPoint.payload p)); [|congruence].
    apply Citation_new_complete; congruence.
  - apply for_each_Forall2 in Ho. rewrite Ho. do 2 eexists. reflexivity.
Qed.

(** C8.  Whenever [_chat_with_selected_text] returns, its citation list is
    the citation of the selection -- identifier ["selected"], score 1.0,
    source ["User Selection"] -- followed by one citation for each unit that
    the handler of the selection retrieved in addition, in the same order,
    and the count of units is one more than those.  It does return when
    the request has a selection, every call is answered and the payloads
    are complete. *)
Theorem pinned_citations (env : Env) (request : ChatRequest.t) (log : list Call) :
  (forall r log',
      RAGAgent._chat_with_selected_text env request log = (Return r, log') ->
      exists selected res log1 first others,
        request.(ChatRequest.selected_text) = Some selected
        /\ SelectedTextAgent.answer_with_selected_text env
             request.(ChatRequest.query) selected request.(ChatRequest.book_id)
             true log = (Return res, log1)
        /\ r.(RAGAgent.citations) = first :: others
        /\ is_user_selection selected first
        /\ Forall2 cites_additional res.(SelectedTextAgent.additional_chunks) others
        /\ r.(RAGAgent.chunks_retrieved) = len others + 1)
  /\ (healthy env -> request.(ChatRequest.selected_text) <> None ->
      exists r log',
        RAGAgent._chat_with_selected_text env request log = (Return r, log')).
Proof.
  split.
  - intros r log'. apply selected_result_shape.
  - apply selected_total.
Qed.

(** The environment of the next example answers every call with complete
    payloads. *)
Example two_units_env_healthy : healthy two_units_env.
Proof.
  split; [reflexivity|]. split; [intros; eexists; reflexivity|].
  split; [|intros; eexists; reflexivity].
  intros. exists two_units. split; [reflexivity|].
  repeat constructor; discriminate.
Qed.

(** A selection over an index of two units: three citations, the first one
    of the selection. *)
Example pinned_three_citations :
  match fst (RAGAgent.chat (RAGAgent.init default_settings) two_units_env
               explain_this (py "selected_text") []) with
  | Return r =>
      map (fun c => (c.(Citation.chunk_id), c.(Citation.source)))
          r.(ChatResponse.citations)
      = [ (py "selected", py "User Selection");
          (py "b-0", py "book.md");
          (py "b-1", py "book.md") ]
      /\ r.(ChatResponse.chunks_retrieved) = 3
  | Raise _ => False
  end.
Proof. vm_compute. split; reflexivity. Qed.

(** ** The handler of a selection *)

(** C9.  [answer_with_selected_text] trims the selection and keeps at most
    its first 5000 code points; it never rejects a selection for its
    length; the forced context is the heading line followed by that text,
    verbatim.  Without additional retrieval it sends nothing.  With
    additional retrieval its first call embeds that text (not the
    question), and its second call, sent when the embedding came back and
    the index client exists, searches with that embedding, the limit 3 and
    no score floor; the units found are returned beside the forced
    context. *)
Theorem selected_passage_handler (env : Env) (query selected_text : str)
        (book_id : option str) (log : list Call) :
  let kept := upto 5000 (strip selected_text) in
  let forced := py "[Selected Text]" ++ nl ++ kept ++ nl in
  let query_filter := if truthy_opt book_id then book_id else None in
  kept = firstn 5000 (strip selected_text)
  /\ len kept = Z.min 5000 (len (strip selected_text))
  /\ SelectedTextAgent.answer_with_selected_text env query selected_text book_id
       false log
     = (Return (SelectedTextAgent.mkResult forced kept [] (py "selected_text")), log)
  /\ match env.(embeddings_create) log kept with
     | Raise e =>
         SelectedTextAgent.answer_with_selected_text env query selected_text book_id
           true log
         = (Raise e, log ++ [EmbeddingsCreate kept])
     | Return v =>
         if env.(qdrant_client)
         then
           match env.(query_points) (log ++ [EmbeddingsCreate kept]) v 3
                   query_filter None with
           | Raise e =>
               SelectedTextAgent.answer_with_selected_text env query selected_text
                 book_id true log
               = (Raise e,
                  log ++ [EmbeddingsCreate kept; QueryPoints v 3 query_filter None])
           | Return points =>
               SelectedTextAgent.answer_with_selected_text env query selected_text
                 book_id true log
               = (Return (SelectedTextAgent.mkResult forced kept
                            (map SelectedTextAgent.of_point points)
                            (py "selected_text")),
                  log ++ [EmbeddingsCreate kept; QueryPoints v 3 query_filter None])
           end
         else
           SelectedTextAgent.answer_with_selected_text env query selected_text
             book_id true log
           = (Raise (Exception.mk (py "RuntimeError")
                       (py "Qdrant client not initialized")),
              log ++ [EmbeddingsCreate kept])
     end.
Proof.
  cbv zeta. split; [reflexivity|]. split.
  { unfold upto, len. rewrite length_firstn. lia. }
  split; [reflexivity|].
  unfold SelectedTextAgent.answer_with_selected_text, QdrantService.search,
    CohereService.embed_text, bind, ret, raise.
  destruct (embeddings_create env log (upto 5000 (strip selected_text))) as [v|e];
    [|reflexivity].
  destruct (qdrant_client env); cbn [negb]; [|reflexivity].
  destruct (query_points env _ v 3 _ None) as [points|e];
    rewrite <- app_assoc; reflexivity.
Qed.

(** A selection of 6000 letters between spaces: 5000 letters are kept and
    embedded, and the search asks for three units without a floor. *)
Example long_selection_is_cut :
  match SelectedTextAgent.answer_with_selected_text two_units_env (py "Why?")
          (py "  " ++ repeat 97%N (Z.to_nat 6000) ++ py " ") None true [] with
  | (Return res, calls) =>
      res.(SelectedTextAgent.selected_text) = repeat 97%N 5000
      /\ calls = [EmbeddingsCreate (repeat 97%N 5000);
                  QueryPoints [1%float] 3 None None]
      /\ List.length res.(SelectedTextAgent.additional_chunks) = 2%nat
  | (Raise _, _) => False
  end.
Proof. vm_compute. repeat split. Qed.

(* ===================================================================== *)
(** * Further properties of the code *)
(* ===================================================================== *)

(** ** Deltas and batches *)

Lemma firstn_add {A : Type} (a b : nat) (l : list A) :
  firstn (a + b) l = firstn a l ++ firstn b (skipn a l).
Proof.
  revert l. induction a as [|a IH]; intros l; [reflexivity|].
  destruct l as [|x l]; simpl.
  - now rewrite firstn_nil.
  - now rewrite IH.
Qed.

Lemma slices_prefix {A : Type} (n m : nat) (xs : list A) :
  List.concat (map (fun k => firstn n (skipn (k * n) xs)) (seq 0 m))
  = firstn (m * n) xs.
Proof.
  induction m as [|m IH]; [reflexivity|].
  rewrite seq_S, map_app, concat_app, IH. simpl.
  rewrite app_nil_r, (Nat.add_comm n (m * n)). symmetry. apply firstn_add.
Qed.

Lemma slices_count {A : Type} (n : nat) (xs : list A) :
  (0 < n)%nat ->
  (List.length xs <= ((List.length xs + n - 1) / n) * n)%nat
  /\ (forall k, (k < (List.length xs + n - 1) / n)%nat -> (k * n < List.length xs)%nat).
Proof.
  intros Hn.
  pose proof (Nat.div_mod_eq (List.length xs + n - 1) n) as E.
  pose proof (Nat.mod_upper_bound (List.length xs + n - 1) n ltac:(lia)) as B.
  split; [nia|]. intros k Hk. nia.
Qed.

Lemma slices_concat {A : Type} (n : nat) (xs : list A) :
  (0 < n)%nat -> List.concat (slices n xs) = xs.
Proof.
  intros Hn. unfold slices. rewrite slices_prefix.
  apply firstn_all2. now apply slices_count.
Qed.

Lemma slices_nth {A : Type} (n : nat) (xs : list A) (k : nat) (s : list A) :
  nth_error (slices n xs) k = Some s ->
  (k < (List.length xs + n - 1) / n)%nat /\ s = firstn n (skipn (k * n) xs).
Proof.
  unfold slices. rewrite nth_error_map. intros H.
  destruct (nth_error (seq 0 _) k) as [j|] eqn:E; [|discriminate].
  assert (Hk : (k < List.length (seq 0 ((List.length xs + n - 1) / n)))%nat).
  { apply nth_error_Some. congruence. }
  rewrite length_seq in Hk. rewrite nth_error_seq in E.
  destruct (Nat.ltb_spec k ((List.length xs + n - 1) / n)); [|lia].
  injection E as <-. injection H as <-. now split.
Qed.

Lemma slices_sizes {A : Type} (n : nat) (xs : list A) :
  (0 < n)%nat ->
  Forall (fun s => (1 <= List.length s <= n)%nat) (slices n xs).
Proof.
  intros Hn. apply Forall_forall. intros s Hs.
  apply In_nth_error in Hs as [k Hk]. apply slices_nth in Hk as [Hk ->].
  destruct (slices_count n xs Hn) as [_ Hc]. specialize (Hc k Hk).
  rewrite length_firstn, length_skipn. lia.
Qed.

(** X1.  Cutting a list by steps of [n > 0], as the stream does with the
    answer (24) and the ingestion with the texts (10) and the points (50),
    loses and reorders nothing: the slices put end to end are the list;
    no slice is empty or longer than [n]; every slice but the last has
    exactly [n] items. *)
Theorem slices_partition {A : Type} (n : nat) (xs : list A) :
  (0 < n)%nat ->
  List.concat (slices n xs) = xs
  /\ Forall (fun s => (1 <= List.length s <= n)%nat) (slices n xs)
  /\ (forall k s,
         nth_error (slices n xs) k = Some s ->
         (S k < List.length (slices n xs))%nat -> List.length s = n)
  /\ List.length (slices n xs) = ((List.length xs + n - 1) / n)%nat.
Proof.
  intros Hn. split; [now apply slices_concat|]. split; [now apply slices_sizes|].
  assert (Hlen : List.length (slices n xs) = ((List.length xs + n - 1) / n)%nat).
  { unfold slices. now rewrite length_map, length_seq. }
  split; [|exact Hlen].
  intros k s Hk Hlast. rewrite Hlen in Hlast.
  apply slices_nth in Hk as [_ ->].
  destruct (slices_count n xs Hn) as [_ Hc]. specialize (Hc (S k) Hlast).
  rewrite length_firstn, length_skipn. simpl in Hc. lia.
Qed.

Lemma slices_partition_witness :
  (0 < 24)%nat
  /\ List.concat (slices 24 (repeat 97%N 50)) = repeat 97%N 50
  /\ map (@List.length char) (slices 24 (repeat 97%N 50)) = [24; 24; 2]%nat.
Proof.
  split; [lia|]. split.
  - apply (slices_partition 24 (repeat 97%N 50)). lia.
  - reflexivity.
Defined.

(** X2.  The stream of [chat_stream] never yields an error event: it
    yields the answer of [rag_chat] cut into deltas of at most 24 code
    points, none empty, which put end to end are that answer, and then one
    final event with the citations, the mode, the count and the model of
    that response; it sends no call beyond those of [rag_chat]. *)
Theorem stream_events (env : Env) (request : ChatRequest.t) (log : list Call) :
  exists response log' deltas,
    ChatApi.rag_chat env request log = (Return response, log')
    /\ ChatApi.event_generator env request log
       = (Return (map ChatApi.Delta deltas
                  ++ [ChatApi.Final response.(ChatResponse.citations)
                        response.(ChatResponse.mode)
                        response.(ChatResponse.chunks_retrieved)
                        response.(ChatResponse.model_used)]),
          log')
    /\ List.concat deltas = response.(ChatResponse.answer)
    /\ Forall (fun d => (1 <= List.length d <= 24)%nat) deltas.
Proof.
  destruct (rag_chat_fault_trace env request log) as (r & new & E & _).
  exists r, (log ++ new), (slices 24 r.(ChatResponse.answer)).
  split; [exact E|]. split.
  - unfold ChatApi.event_generator, try_except, bind. rewrite E. reflexivity.
  - split; [apply slices_concat | apply slices_sizes]; lia.
Qed.

(** ** Segmentation, seen from its result *)

Lemma pieces_all_space (s piece : str) (pending : nat) :
  forallb isspace piece = true -> forallb isspace s = true ->
  Forall (fun p => forallb isspace p = true)
         (ChunkingService.re_split_blank piece pending s).
Proof.
  revert piece pending. induction s as [|c r IH]; intros piece pending Hp Hs; simpl.
  - destruct pending as [|[|k]]; repeat constructor; try assumption.
    rewrite forallb_app, Hp. reflexivity.
  - simpl in Hs. apply andb_true_iff in Hs as [Hc Hr].
    destruct (N.eqb c newline).
    + now apply IH.
    + destruct pending as [|[|k]].
      * apply IH; [|exact Hr]. rewrite forallb_app, Hp. simpl. now rewrite Hc.
      * apply IH; [|exact Hr]. rewrite forallb_app, Hp. simpl. now rewrite Hc.
      * constructor; [exact Hp|]. apply IH; [|exact Hr]. simpl. now rewrite Hc.
Qed.

Lemma pieces_some_letter (s piece : str) (pending : nat) :
  forallb isspace (piece ++ s) = false ->
  Exists (fun p => forallb isspace p = false)
         (ChunkingService.re_split_blank piece pending s).
Proof.
  revert piece pending. induction s as [|c r IH]; intros piece pending H; simpl.
  - rewrite app_nil_r in H.
    destruct pending as [|[|k]]; constructor; try assumption.
    rewrite forallb_app, H. reflexivity.
  - rewrite forallb_app in H. simpl in H.
    destruct (N.eqb_spec c newline) as [-> | Hc].
    + apply IH. rewrite forallb_app.
      change (isspace newline) with true in H. exact H.
    + destruct pending as [|[|k]].
      * apply IH. rewrite <- app_assoc, forallb_app. exact H.
      * apply IH. rewrite <- app_assoc, forallb_app. simpl.
        destruct (forallb isspace piece); [exact H | reflexivity].
      * destruct (forallb isspace piece) eqn:Ep.
        -- apply Exists_cons_tl. apply IH. exact H.
        -- now apply Exists_cons_hd.
Qed.

Lemma paragraphs_nil_iff (text : str) :
  ChunkingService._split_into_paragraphs text = [] <-> forallb isspace text = true.
Proof.
  unfold ChunkingService._split_into_paragraphs. split; intros H.
  - destruct (forallb isspace text) eqn:E; [reflexivity|].
    pose proof (pieces_some_letter text [] 0 E) as Hex.
    apply Exists_exists in Hex as [p [Hin Hp]].
    assert (Hf : In p (filter (fun p => truthy (strip p))
                         (ChunkingService.re_split_blank [] 0 text))).
    { apply filter_In. split; [exact Hin|]. now rewrite strip_truthy, Hp. }
    apply (in_map strip) in Hf. rewrite H in Hf. destruct Hf.
  - pose proof (pieces_all_space text [] 0 eq_refl H) as Hall.
    rewrite Forall_forall in Hall.
    destruct (filter _ _) as [|p l] eqn:Ef; [reflexivity|].
    assert (Hin : In p (filter (fun p => truthy (strip p))
                          (ChunkingService.re_split_blank [] 0 text)))
      by (rewrite Ef; now left).
    apply filter_In in Hin as [Hin Hp].
    rewrite strip_truthy, (Hall p Hin) in Hp. discriminate Hp.
Qed.

Lemma step_buffer_clean (self : ChunkingService.t) (source : str)
      (st : ChunkingService.loop) (p : str) :
  clean p = true -> buffer_ok st ->
  clean (ChunkingService.step self source st p).(ChunkingService.current_chunk) = true.
Proof.
  intros Hp Hst.
  destruct (step_buffer_ok self source st p Hp Hst) as [[E _] | H]; [|exact H].
  exfalso. revert E. destruct st as [chunks cur pos].
  unfold ChunkingService.step. simpl.
  apply clean_nonempty in Hp.
  destruct (Z.gtb (_ + _) _).
  - destruct (truthy cur); simpl; destruct (_ && _)%bool; simpl; try assumption;
      intros E; apply app_eq_nil in E as [_ E]; discriminate E.
  - simpl. destruct (truthy cur); [|assumption].
    intros E. apply app_eq_nil in E as [_ E]. discriminate E.
Qed.

Lemma fold_buffer_clean (self : ChunkingService.t) (source : str)
      (paragraphs : list str) (st : ChunkingService.loop) :
  Forall (fun p => clean p = true) paragraphs ->
  buffer_ok st ->
  (paragraphs <> [] \/ clean st.(ChunkingService.current_chunk) = true) ->
  clean (fold_left (ChunkingService.step self source) paragraphs st)
          .(ChunkingService.current_chunk) = true.
Proof.
  intros Hall. revert st. induction Hall as [|p l Hp _ IH]; intros st Hb Hne; simpl.
  - destruct Hne as [Hne | Hc]; [now elim Hne | exact Hc].
  - apply IH.
    + now apply step_buffer_ok.
    + right. now apply step_buffer_clean.
Qed.

(** X3.  Segmentation produces no unit exactly when the text has no code
    point other than spaces (the empty text included); any other text gives
    at least one unit. *)
Theorem no_unit_iff_blank (self : ChunkingService.t) (text source : str) :
  ChunkingService.chunk_text self text source = [] <-> forallb isspace text = true.
Proof.
  rewrite <- paragraphs_nil_iff. unfold ChunkingService.chunk_text. split; intros H.
  - destruct (ChunkingService._split_into_paragraphs text) as [|p l] eqn:E;
      [reflexivity|].
    exfalso. revert H. unfold ChunkingService.chunk_paragraphs, ChunkingService.finish.
    assert (Hc : clean (fold_left (ChunkingService.step self source) (p :: l)
                          ChunkingService.start).(ChunkingService.current_chunk)
                 = true).
    { apply fold_buffer_clean.
      - rewrite <- E. apply paragraphs_clean.
      - apply start_buffer_ok.
      - left. discriminate. }
    rewrite (clean_strip _ Hc), (clean_truthy _ Hc).
    intros H. apply app_eq_nil in H as [_ H]. discriminate H.
  - rewrite H. reflexivity.
Qed.

(** X4.  The text of every unit is not empty and has no space at either
    end, so trimming it again changes nothing. *)
Theorem units_trimmed (self : ChunkingService.t) (text source : str) :
  Forall (fun u => clean u.(Chunk.text) = true /\ strip u.(Chunk.text) = u.(Chunk.text))
         (ChunkingService.chunk_text self text source).
Proof.
  unfold ChunkingService.chunk_text.
  apply (chunks_invariant self source _ buffer_ok _ (fun p => clean p = true)).
  - apply paragraphs_clean.
  - apply start_buffer_ok.
  - intros st p. apply step_buffer_ok.
  - intros st Hst Hne. rewrite (close_token source st Hst Hne).
    destruct Hst as [[H _] | H]; [contradiction|].
    split; [exact H | now apply clean_strip].
Qed.

Lemma last_or_cons (prev : option str) (t : str) (l : list str) :
  last_or prev (t :: l) = last_or (Some t) l.
Proof.
  unfold last_or. simpl. destruct (rev l); reflexivity.
Qed.

Lemma last_or_snoc (prev : option str) (l : list str) (t : str) :
  last_or prev (l ++ [t]) = Some t.
Proof. unfold last_or. now rewrite rev_unit. Qed.

Lemma texts_of_snoc (self : ChunkingService.t) (groups : list (list str))
      (g : list str) (prev : option str) :
  texts_of self prev (groups ++ [g])
  = texts_of self prev groups
    ++ [header self (last_or prev (texts_of self prev groups))
        ++ join ChunkingService.blank g].
Proof.
  revert prev. induction groups as [|g0 r IH]; intros prev; simpl.
  - reflexivity.
  - rewrite IH, last_or_cons. reflexivity.
Qed.

Lemma join_snoc (sep : str) (g : list str) (p : str) :
  g <> [] -> join sep (g ++ [p]) = join sep g ++ sep ++ p.
Proof.
  induction g as [|x r IH]; intros Hne; [now elim Hne|].
  destruct r as [|y r]; [reflexivity|].
  change (join sep ((x :: y :: r) ++ [p]))
    with (x ++ sep ++ join sep ((y :: r) ++ [p])).
  rewrite IH by discriminate.
  change (join sep (x :: y :: r)) with (x ++ sep ++ join sep (y :: r)).
  now rewrite <- !app_assoc.
Qed.

Lemma buffer_of_nonempty (self : ChunkingService.t) (texts : list str) (g : list str) :
  buffer_of self texts g <> [] -> g <> [].
Proof. destruct g; [intros H; now elim H | discriminate]. Qed.

Lemma step_grouped (self : ChunkingService.t) (source : str)
      (st : ChunkingService.loop) (done : list str) (p : str) :
  clean p = true -> buffer_ok st -> grouped self st done ->
  grouped self (ChunkingService.step self source st p) (done ++ [p]).
Proof.
  intros Hp Hb (groups & g & Hdone & Hne & Ht & Hcur & Hnil).
  pose proof (clean_nonempty _ Hp) as Hpne.
  destruct st as [chunks cur pos].
  unfold ChunkingService.step, buffer_ok, grouped in *. simpl in *.
  destruct (Z.gtb (_ + _) _).
  - destruct Hb as [[-> ->] | Hcl].
    + simpl. rewrite andb_false_r. simpl.
      rewrite (Hnil eq_refl) in Hdone.
      exists groups, [p]. rewrite <- Ht. simpl. repeat split; try assumption.
      * now rewrite <- Hdone, app_nil_r.
      * intros E. now elim Hpne.
    + rewrite (clean_truthy _ Hcl). simpl. rewrite len_app_one_pos, andb_true_r.
      assert (Hg : g <> []).
      { apply (buffer_of_nonempty self (texts_of self None groups)).
        rewrite <- Hcur. now apply clean_nonempty. }
      assert (Hbuf : header self (last_or None (texts_of self None groups))
                     ++ join ChunkingService.blank g = cur).
      { rewrite Hcur. unfold buffer_of. destruct g; [now elim Hg | reflexivity]. }
      assert (Hts : map Chunk.text
                      (chunks ++ [ChunkingService.close source
                                    (ChunkingService.mkLoop chunks cur pos)])
                    = texts_of self None (groups ++ [g])).
      { rewrite map_app, texts_of_snoc, Ht, Hbuf. simpl.
        now rewrite (clean_strip _ Hcl). }
      exists (groups ++ [g]), [p].
      split; [rewrite concat_app; simpl; rewrite app_nil_r, <- Hdone;
              reflexivity|].
      split; [apply Forall_app; split; [exact Hne | now constructor]|].
      destruct (Z.gtb (ChunkingService.overlap self) 0) eqn:Ho; simpl;
        (split; [exact Hts|]); split.
      * rewrite texts_of_snoc, Hbuf. unfold buffer_of.
        rewrite last_or_snoc. simpl. rewrite Ho. now rewrite <- app_assoc.
      * intros E. apply app_eq_nil in E as [_ E]. discriminate E.
      * rewrite texts_of_snoc, Hbuf. unfold buffer_of.
        rewrite last_or_snoc. simpl. now rewrite Ho.
      * intros E. now elim Hpne.
  - simpl. destruct Hb as [[-> ->] | Hcl].
    + simpl. rewrite (Hnil eq_refl) in Hdone.
      exists groups, [p]. rewrite <- Ht. simpl. repeat split; try assumption.
      * now rewrite <- Hdone, app_nil_r.
      * intros E. now elim Hpne.
    + rewrite (clean_truthy _ Hcl).
      assert (Hg : g <> []).
      { apply (buffer_of_nonempty self (texts_of self None groups)).
        rewrite <- Hcur. now apply clean_nonempty. }
      exists groups, (g ++ [p]).
      split; [now rewrite app_assoc, Hdone|].
      split; [exact Hne|]. split; [exact Ht|]. split.
      * rewrite Hcur. unfold buffer_of.
        destruct g as [|x r]; [now elim Hg|].
        change ((x :: r) ++ [p]) with (x :: (r ++ [p])).
        destruct (r ++ [p]) eqn:Er; [now destruct r|]. rewrite <- Er.
        change (x :: (r ++ [p])) with ((x :: r) ++ [p]).
        rewrite join_snoc by discriminate. now rewrite <- !app_assoc.
      * intros E. apply app_eq_nil in E as [_ E]. discriminate E.
Qed.

Lemma fold_grouped (self : ChunkingService.t) (source : str)
      (paragraphs : list str) (st : ChunkingService.loop) (done : list str) :
  Forall (fun p => clean p = true) paragraphs ->
  buffer_ok st -> grouped self st done ->
  buffer_ok (fold_left (ChunkingService.step self source) paragraphs st)
  /\ grouped self (fold_left (ChunkingService.step self source) paragraphs st)
             (done ++ paragraphs).
Proof.
  intros Hall. revert st done.
  induction Hall as [|p l Hp _ IH]; intros st done Hb Hg; simpl.
  - rewrite app_nil_r. now split.
  - change (p :: l) with ([p] ++ l). rewrite app_assoc. apply IH.
    + now apply step_buffer_ok.
    + now apply step_grouped.
Qed.

Lemma groups_count {A : Type} (groups : list (list A)) :
  Forall (fun x => x <> []) groups ->
  (List.length groups <= List.length (List.concat groups))%nat.
Proof.
  induction 1 as [|g r Hg _ IH]; simpl; [lia|].
  rewrite length_app. destruct g; [now elim Hg|]. simpl. lia.
Qed.

Lemma texts_of_length (self : ChunkingService.t) (groups : list (list str))
      (prev : option str) :
  List.length (texts_of self prev groups) = List.length groups.
Proof.
  revert prev. induction groups as [|g r IH]; intros prev; simpl; [reflexivity|].
  now rewrite IH.
Qed.

(** X5.  Segmentation cuts the sequence of paragraphs into consecutive
    non-empty groups, one per unit and in order, losing and repeating no
    paragraph: the text of the first unit is its paragraphs joined by blank
    lines, and the text of every later unit is, when the overlap is
    positive, the overlap words of the text of the unit before it and a
    blank line, followed by its own paragraphs joined by blank lines.  So
    there are at most as many units as paragraphs. *)
Theorem units_from_groups (self : ChunkingService.t) (text source : str) :
  exists groups,
    List.concat groups = ChunkingService._split_into_paragraphs text
    /\ Forall (fun g => g <> []) groups
    /\ map Chunk.text (ChunkingService.chunk_text self text source)
       = texts_of self None groups
    /\ (List.length (ChunkingService.chunk_text self text source)
        <= List.length (ChunkingService._split_into_paragraphs text))%nat.
Proof.
  unfold ChunkingService.chunk_text, ChunkingService.chunk_paragraphs.
  set (paragraphs := ChunkingService._split_into_paragraphs text).
  destruct (fold_grouped self source paragraphs ChunkingService.start []
              (paragraphs_clean text) (start_buffer_ok))
    as [Hb (groups & g & Hdone & Hne & Ht & Hcur & Hnil)].
  { exists [], []. simpl. repeat split; auto. }
  simpl in Hdone. fold paragraphs in Hdone.
  set (st := fold_left (ChunkingService.step self source) paragraphs
               ChunkingService.start) in *.
  assert (Hgoal : exists groups',
             List.concat groups' = paragraphs
             /\ Forall (fun x => x <> []) groups'
             /\ map Chunk.text (ChunkingService.finish source st)
                = texts_of self None groups').
  { unfold ChunkingService.finish. destruct Hb as [[Hc Hk] | Hcl].
    - rewrite Hc. simpl. rewrite (Hnil Hc), app_nil_r in Hdone.
      exists groups. now repeat split.
    - rewrite (clean_strip _ Hcl), (clean_truthy _ Hcl).
      assert (Hg : g <> []).
      { apply (buffer_of_nonempty self (texts_of self None groups)).
        rewrite <- Hcur. now apply clean_nonempty. }
      exists (groups ++ [g]).
      split; [rewrite concat_app; simpl; now rewrite app_nil_r|].
      split; [apply Forall_app; split; [exact Hne | now constructor]|].
      rewrite map_app, texts_of_snoc, Ht. simpl.
      rewrite (clean_strip _ Hcl), Hcur. unfold buffer_of.
      destruct g; [now elim Hg | reflexivity]. }
  destruct Hgoal as (groups' & H1 & H2 & H3).
  exists groups'. repeat split; try assumption.
  rewrite <- (length_map Chunk.text), H3, texts_of_length, <- H1.
  now apply groups_count.
Qed.

(** Three paragraphs under the limit 100 and the overlap 20: two groups. *)
Example three_paragraphs_two_groups :
  map Chunk.text
      (ChunkingService.chunk_text fixture_service
         (py "one two" ++ ChunkingService.blank ++ repeat 97%N 60
          ++ ChunkingService.blank ++ repeat 98%N 60) (py "t"))
  = texts_of fixture_service None
      [[py "one two"; repeat 97%N 60]; [repeat 98%N 60]].
Proof. vm_compute. reflexivity. Qed.

(** ** Overlap words *)

Lemma split_from_app_word (w r acc : str) :
  forallb (fun c => negb (isspace c)) w = true ->
  split_from acc (w ++ r) = split_from (acc ++ w) r.
Proof.
  revert acc. induction w as [|c w IH]; intros acc Hw; simpl.
  - now rewrite app_nil_r.
  - simpl in Hw. apply andb_true_iff in Hw as [Hc Hw].
    apply negb_true_iff in Hc. rewrite Hc, (IH _ Hw), <- app_assoc. reflexivity.
Qed.

Lemma split_from_are_words (s acc : str) :
  forallb (fun c => negb (isspace c)) acc = true ->
  Forall (fun w => is_word w = true) (split_from acc s).
Proof.
  revert acc. induction s as [|c r IH]; intros acc Ha; simpl.
  - destruct acc eqn:E; [constructor|]. rewrite <- E in *.
    repeat constructor. unfold is_word. rewrite Ha, E. reflexivity.
  - destruct (isspace c) eqn:Ec.
    + destruct acc eqn:E.
      * now apply IH.
      * rewrite <- E in *. constructor; [|now apply IH].
        unfold is_word. rewrite Ha, E. reflexivity.
    + apply IH. rewrite forallb_app, Ha. simpl. now rewrite Ec.
Qed.

Lemma split_from_space (c : char) (acc r : str) :
  isspace c = true -> acc <> [] ->
  split_from acc (c :: r) = acc :: split_from [] r.
Proof.
  intros Hc Ha. simpl. rewrite Hc. destruct acc; [now elim Ha | reflexivity].
Qed.

Lemma split_from_end (acc : str) : acc <> [] -> split_from acc [] = [acc].
Proof. destruct acc; [intros H; now elim H | reflexivity]. Qed.

Lemma split_join_words (ws : list str) :
  Forall (fun w => is_word w = true) ws -> split (join (py " ") ws) = ws.
Proof.
  unfold split. induction 1 as [|w r Hw Hr IH]; [reflexivity|].
  unfold is_word in Hw. apply andb_true_iff in Hw as [Hne Hw].
  apply truthy_nonempty in Hne.
  destruct r as [|w2 r].
  - change (join (py " ") [w]) with w.
    rewrite <- (app_nil_r w) at 1. rewrite (split_from_app_word _ _ _ Hw).
    now apply split_from_end.
  - change (join (py " ") (w :: w2 :: r))
      with (w ++ 32%N :: join (py " ") (w2 :: r)).
    rewrite (split_from_app_word _ _ _ Hw).
    change ([] ++ w) with w.
    rewrite split_from_space by (reflexivity || assumption).
    now rewrite IH.
Qed.

(** X6.  The overlap text of a buffer, split into words again, is the last
    [chunk_overlap] words of the buffer, in order (all its words when it has
    fewer), and nothing when the overlap is not positive; so it never has
    more than [chunk_overlap] words. *)
Theorem overlap_words (self : ChunkingService.t) (s : str) :
  split (ChunkingService._get_overlap_text self s)
  = (if Z.gtb self.(ChunkingService.overlap) 0
     then last_items self.(ChunkingService.overlap) (split s)
     else [])
  /\ len (split (ChunkingService._get_overlap_text self s))
     <= Z.max 0 self.(ChunkingService.overlap).
Proof.
  assert (E : split (ChunkingService._get_overlap_text self s)
              = (if Z.gtb self.(ChunkingService.overlap) 0
                 then last_items self.(ChunkingService.overlap) (split s)
                 else [])).
  { unfold ChunkingService._get_overlap_text.
    destruct (Z.gtb (ChunkingService.overlap self) 0); [|reflexivity].
    apply split_join_words. apply last_items_Forall.
    now apply split_from_are_words. }
  split; [exact E|]. rewrite E.
  destruct (Z.gtb (ChunkingService.overlap self) 0) eqn:Ho.
  - unfold last_items, len. rewrite length_skipn. apply Z.gtb_lt in Ho. lia.
  - unfold len. simpl. lia.
Qed.

(** The last two words of a buffer of three. *)
Example overlap_of_three_words :
  ChunkingService._get_overlap_text (ChunkingService.mk 100 2)
    (py "alpha  beta" ++ nl ++ py "gamma")
  = py "beta gamma".
Proof. vm_compute. reflexivity. Qed.

(** ** Headings *)

Lemma span_fst_all (f : char -> bool) (s : str) :
  forallb f (fst (ChunkingService.span f s)) = true.
Proof.
  induction s as [|c r IH]; simpl; [reflexivity|].
  destruct (f c) eqn:E; [|reflexivity].
  destruct (ChunkingService.span f r) as [a b]. simpl in *. now rewrite E.
Qed.

Lemma span_app_stop (f : char -> bool) (a tail : str) :
  forallb f a = true ->
  match tail with [] => True | c :: _ => f c = false end ->
  ChunkingService.span f (a ++ tail) = (a, tail).
Proof.
  intros Ha Ht. induction a as [|x a IH]; simpl.
  - destruct tail as [|c r]; [reflexivity|]. simpl. now rewrite Ht.
  - simpl in Ha. apply andb_true_iff in Ha as [Hx Ha].
    now rewrite Hx, (IH Ha).
Qed.

Lemma in_lstrip (c : char) (s : str) : In c (lstrip s) -> In c s.
Proof.
  induction s as [|x r IH]; simpl; [trivial|].
  destruct (isspace x); [intros H; right; now apply IH | trivial].
Qed.

Lemma in_strip (c : char) (s : str) : In c (strip s) -> In c s.
Proof.
  unfold strip, rstrip. intros H.
  apply in_rev in H. apply in_lstrip in H. apply in_rev in H.
  now apply in_lstrip.
Qed.

Lemma strip_one_line (s : str) : one_line s = true -> one_line (strip s) = true.
Proof.
  unfold one_line. rewrite !forallb_forall. intros H c Hc.
  apply H. now apply in_strip.
Qed.

Lemma strip_strip (s : str) : strip (strip s) = strip s.
Proof.
  destruct (strip s) as [|c r] eqn:E; [reflexivity|]. rewrite <- E.
  apply clean_strip, strip_clean. rewrite E. discriminate.
Qed.

Lemma last_inline_not_newline (l : str) (init : option char) (c : char) :
  fold_left (fun found x => if N.eqb x newline then found else Some x) l init
  = Some c ->
  init = Some c \/ N.eqb c newline = false.
Proof.
  revert init. induction l as [|x r IH]; intros init H; simpl in H; [now left|].
  destruct (N.eqb x newline) eqn:E.
  - now apply IH.
  - destruct (IH _ H) as [H' | H']; [|now right].
    injection H' as <-. now right.
Qed.

Lemma match_after_marker_one_line (rest g : str) :
  ChunkingService.match_after_marker rest = Some g -> one_line g = true.
Proof.
  unfold ChunkingService.match_after_marker.
  destruct (ChunkingService.span isspace rest) as [w r].
  destruct w as [|x w]; [discriminate|].
  destruct r as [|y r].
  - unfold ChunkingService.last_inline_after_first.
    match goal with
    | |- context [fold_left ?f w None] =>
        destruct (fold_left f w None) as [c|] eqn:E; [|discriminate]
    end.
    intros H. injection H as <-.
    apply last_inline_not_newline in E as [E | E]; [discriminate|].
    unfold one_line. simpl. now rewrite E.
  - intros H. injection H as <-.
    exact (span_fst_all (fun c => negb (N.eqb c newline)) (y :: r)).
Qed.

Lemma re_search_heading_one_line (marker s g : str) (bol : bool) :
  ChunkingService.re_search_heading marker bol s = Some g -> one_line g = true.
Proof.
  revert bol. induction s as [|c r IH]; intros bol; simpl; [discriminate|].
  destruct bol.
  - destruct (ChunkingService.strip_prefix marker (c :: r)) as [rest|].
    + destruct (ChunkingService.match_after_marker rest) as [g'|] eqn:E.
      * intros H. injection H as <-. now apply match_after_marker_one_line in E.
      * apply IH.
    + apply IH.
  - apply IH.
Qed.

(** X7.  A chapter or section tag, when one is found, is a single line
    without a space at either end (it may be empty). *)
Theorem heading_tags (text : str) :
  (forall t, ChunkingService._extract_chapter text = Some t ->
             one_line t = true /\ strip t = t)
  /\ (forall t, ChunkingService._extract_section text = Some t ->
                one_line t = true /\ strip t = t).
Proof.
  unfold ChunkingService._extract_chapter, ChunkingService._extract_section.
  split; intros t H.
  - destruct (ChunkingService.re_search_heading (py "#") true text) as [g|] eqn:E;
      [|discriminate].
    injection H as <-. split; [|apply strip_strip].
    apply strip_one_line. now apply re_search_heading_one_line in E.
  - destruct (ChunkingService.re_search_heading (py "##") true text) as [g|] eqn:E;
      [|discriminate].
    injection H as <-. split; [|apply strip_strip].
    apply strip_one_line. now apply re_search_heading_one_line in E.
Qed.

(** A marker followed only by spaces at the end of the text tags the unit
    with the empty string, not with nothing; a marker followed by a line
    feed takes the next line as its title. *)
Example empty_heading :
  ChunkingService._extract_chapter (py "intro" ++ nl ++ py "#  ") = Some []
  /\ ChunkingService._extract_chapter (py "#  " ++ nl ++ py "text")
     = Some (py "text").
Proof. vm_compute. split; reflexivity. Qed.

Lemma match_after_space (title tail : str) :
  starts_clean title = true -> one_line title = true ->
  match tail with [] => True | c :: _ => c = newline end ->
  ChunkingService.match_after_marker (32%N :: title ++ tail) = Some title.
Proof.
  intros Hs Hl Ht. unfold ChunkingService.match_after_marker.
  destruct title as [|c t]; [discriminate|].
  simpl in Hs. apply negb_true_iff in Hs.
  change (ChunkingService.span isspace (32%N :: (c :: t) ++ tail))
    with (let (a, b) := ChunkingService.span isspace ((c :: t) ++ tail) in
          (32%N :: a, b)).
  simpl ChunkingService.span at 1. rewrite Hs.
  change (c :: t ++ tail) with ((c :: t) ++ tail).
  rewrite (span_app_stop (fun x => negb (N.eqb x newline)) (c :: t) tail Hl).
  - reflexivity.
  - destruct tail as [|x r]; [exact I|]. subst x. reflexivity.
Qed.

Lemma re_search_heading_mid_line (marker s : str) :
  one_line s = true -> ChunkingService.re_search_heading marker false s = None.
Proof.
  induction s as [|c r IH]; intros H; simpl; [reflexivity|].
  simpl in H. apply andb_true_iff in H as [Hc Hr].
  apply negb_true_iff in Hc. rewrite Hc. now apply IH.
Qed.

Lemma re_search_heading_cons (marker : str) (bol : bool) (c : char) (r : str) :
  ChunkingService.re_search_heading marker bol (c :: r)
  = match (if bol
           then match ChunkingService.strip_prefix marker (c :: r) with
                | Some rest => ChunkingService.match_after_marker rest
                | None => None
                end
           else None) with
    | Some g => Some g
    | None => ChunkingService.re_search_heading marker (N.eqb c newline) r
    end.
Proof. reflexivity. Qed.

(** X8.  A text that opens with a level-1 heading line gets the title of
    that line as its chapter, and one that opens with a level-2 heading line
    gets its title as its section; a text that is a single level-2 heading
    has no chapter. *)
Theorem heading_at_start (title tail : str) :
  clean title = true -> one_line title = true ->
  match tail with [] => True | c :: _ => c = newline end ->
  ChunkingService._extract_chapter (py "# " ++ title ++ tail) = Some title
  /\ ChunkingService._extract_section (py "## " ++ title ++ tail) = Some title
  /\ ChunkingService._extract_chapter (py "## " ++ title) = None.
Proof.
  intros Hc Hl Ht.
  pose proof (match_after_space title tail (clean_starts _ Hc) Hl Ht) as Hm.
  unfold ChunkingService._extract_chapter, ChunkingService._extract_section.
  split; [|split].
  - change (py "# " ++ title ++ tail) with (35%N :: 32%N :: title ++ tail).
    change (py "#") with [35%N].
    cbn [ChunkingService.re_search_heading ChunkingService.strip_prefix].
    change (N.eqb 35 35) with true. cbv iota. rewrite Hm. simpl.
    now rewrite (clean_strip _ Hc).
  - change (py "## " ++ title ++ tail) with (35%N :: 35%N :: 32%N :: title ++ tail).
    change (py "##") with [35%N; 35%N].
    cbn [ChunkingService.re_search_heading ChunkingService.strip_prefix].
    change (N.eqb 35 35) with true. cbv iota. rewrite Hm. simpl.
    now rewrite (clean_strip _ Hc).
  - change (py "## " ++ title) with (35%N :: 35%N :: 32%N :: title).
    change (py "#") with [35%N].
    rewrite re_search_heading_cons.
    change (ChunkingService.strip_prefix [35%N] (35%N :: 35%N :: 32%N :: title))
      with (Some (35%N :: 32%N :: title)).
    change (ChunkingService.match_after_marker (35%N :: 32%N :: title))
      with (@None str).
    change (N.eqb 35 newline) with false. cbv iota.
    rewrite (re_search_heading_mid_line [35%N] (35%N :: 32%N :: title)).
    + reflexivity.
    + simpl. exact Hl.
Qed.

Lemma heading_at_start_witness :
  ChunkingService._extract_chapter (py "# " ++ py "Ch1" ++ nl ++ py "Para A.")
  = Some (py "Ch1").
Proof.
  apply (heading_at_start (py "Ch1") (nl ++ py "Para A.")); reflexivity.
Defined.

(** ** Ingestion, seen from its result *)

Lemma renumber_erase (cs : list Chunk.t) (p : Z) :
  map (Chunk.set_position 0) (fst (BookIngestionOrchestrator.renumber p cs))
  = map (Chunk.set_position 0) cs.
Proof.
  revert p. induction cs as [|c r IH]; intros p; simpl; [reflexivity|].
  specialize (IH (p + 1)).
  destruct (BookIngestionOrchestrator.renumber (p + 1) r) as [r' p'].
  simpl in *. now rewrite IH.
Qed.

Lemma process_files_from (service : ChunkingService.t)
      (files : list (str * outcome str)) (st : BookIngestionOrchestrator.loop) :
  map (Chunk.set_position 0)
      (fold_left (BookIngestionOrchestrator.step service) files st)
        .(BookIngestionOrchestrator.chunks)
  = map (Chunk.set_position 0) st.(BookIngestionOrchestrator.chunks)
    ++ map (Chunk.set_position 0) (List.concat (map (units_of_file service) files))
  /\ List.length (fold_left (BookIngestionOrchestrator.step service) files st)
                   .(BookIngestionOrchestrator.errors)
     = (List.length st.(BookIngestionOrchestrator.errors)
        + List.length (filter unreadable files))%nat.
Proof.
  revert st. induction files as [|[path read] files IH]; intros st; simpl.
  - rewrite app_nil_r. split; [reflexivity | lia].
  - destruct (IH (BookIngestionOrchestrator.step service st (path, read)))
      as [H1 H2].
    rewrite H1, H2. clear IH H1 H2.
    unfold BookIngestionOrchestrator.step, units_of_file, unreadable. simpl.
    destruct read as [text|e]; simpl.
    + pose proof (renumber_erase (ChunkingService.chunk_text service text path)
                    (BookIngestionOrchestrator.position st)) as R.
      destruct (BookIngestionOrchestrator.renumber _ _) as [cs' p']. simpl in *.
      rewrite !map_app, R, <- app_assoc. split; reflexivity.
    + rewrite length_app. simpl. split; [reflexivity | lia].
Qed.

Lemma process_files_count (service : ChunkingService.t)
      (files : list (str * outcome str)) (st : BookIngestionOrchestrator.loop) :
  st.(BookIngestionOrchestrator.position)
  = len st.(BookIngestionOrchestrator.chunks) ->
  (fold_left (BookIngestionOrchestrator.step service) files st)
    .(BookIngestionOrchestrator.position)
  = len (fold_left (BookIngestionOrchestrator.step service) files st)
          .(BookIngestionOrchestrator.chunks).
Proof.
  revert st. induction files as [|[path read] fs IH]; intros st Hst; simpl;
    [exact Hst|].
  apply IH. unfold BookIngestionOrchestrator.step. simpl.
  destruct read as [text|e]; simpl; [|exact Hst].
  pose proof (renumber_spec (ChunkingService.chunk_text service text path)
                (BookIngestionOrchestrator.position st)) as [R1 R2].
  destruct (BookIngestionOrchestrator.renumber _ _) as [cs' p']. simpl in *.
  rewrite R2, Hst. unfold len. rewrite length_app.
  rewrite <- (length_map Chunk.position cs'), R1, length_map, length_seq. lia.
Qed.

(** X9.  [_process_files] keeps the units of the files that can be read,
    file after file and in the order segmentation gave them, changing
    nothing in them but the position; a file that cannot be read adds no
    unit and exactly one error message; the running position ends at the
    number of units kept. *)
Theorem process_files_contents (service : ChunkingService.t)
        (files : list (str * outcome str)) :
  map (Chunk.set_position 0)
      (BookIngestionOrchestrator._process_files service files)
        .(BookIngestionOrchestrator.chunks)
  = map (Chunk.set_position 0) (List.concat (map (units_of_file service) files))
  /\ List.length (BookIngestionOrchestrator._process_files service files)
                   .(BookIngestionOrchestrator.errors)
     = List.length (filter unreadable files)
  /\ (BookIngestionOrchestrator._process_files service files)
       .(BookIngestionOrchestrator.position)
     = len (List.concat (map (units_of_file service) files)).
Proof.
  destruct (process_files_from service files
              (BookIngestionOrchestrator.mkLoop 0 [] [])) as [H1 H2].
  split; [exact H1|]. split; [exact H2|].
  unfold BookIngestionOrchestrator._process_files.
  rewrite (process_files_count service files
             (BookIngestionOrchestrator.mkLoop 0 [] []) eq_refl).
  unfold len. f_equal. simpl in H1.
  rewrite <- (length_map (Chunk.set_position 0)), H1. apply length_map.
Qed.

(** Two files, the first unreadable: one error, and the units of the second
    numbered from 0. *)
Example skip_unreadable_file :
  let st := BookIngestionOrchestrator._process_files fixture_service
              [ (py "a.md", Raise (Exception.mk (py "UnicodeDecodeError") (py "bad byte")));
                (py "b.md", Return two_paragraphs) ] in
  map (fun u => (u.(Chunk.source_file), u.(Chunk.position)))
      st.(BookIngestionOrchestrator.chunks)
  = [(py "b.md", 0); (py "b.md", 1)]
  /\ st.(BookIngestionOrchestrator.errors) = [py "a.md: bad byte"].
Proof. vm_compute. split; reflexivity. Qed.

(** ** The upsert loop *)

Lemma upsert_batches_stored {P : Type}
      (upsert : list (list P) -> list P -> outcome unit)
      (stored : list (list P)) :
  forall (counts : list nat) (attempts rest : list (list P)) (k : Z),
    stored_in upsert attempts counts stored ->
    BookIngestionOrchestrator.upsert_batches upsert attempts (stored ++ rest) k
    = BookIngestionOrchestrator.upsert_batches upsert
        (attempts ++ sent counts stored) rest (k + len stored).
Proof.
  induction stored as [|b bs IH]; intros counts attempts rest k H.
  - destruct counts; [|contradiction]. simpl.
    rewrite app_nil_r. f_equal. unfold len. simpl. lia.
  - destruct counts as [|c cs]; [contradiction|].
    cbn [stored_in] in H. destruct H as [Hb Hr].
    cbn [app BookIngestionOrchestrator.upsert_batches sent].
    assert (Hk : k + 1 + len bs = k + len (b :: bs)).
    { unfold len. simpl List.length. lia. }
    destruct Hb as [[-> H1] | [-> [[e H1] H2]]].
    + rewrite H1. cbn [repeat] in *. rewrite (IH cs _ rest (k + 1) Hr).
      now rewrite <- app_assoc, Hk.
    + rewrite H1, H2.
      replace ((attempts ++ [b]) ++ [b]) with (attempts ++ repeat b 2)
        by (simpl; now rewrite <- app_assoc).
      rewrite (IH cs _ rest (k + 1) Hr).
      now rewrite <- app_assoc, Hk.
Qed.

(** X10.  The upsert loop sends the batches in order; a batch is sent a
    second time exactly when its first attempt failed, right after it.
    The loop returns exactly when every batch ends stored, by its first
    attempt or by its second, and then the counter has grown by the number
    of batches.  It raises exactly when some batch fails twice in a row
    after the batches before it were stored: the exception is that of the
    second failure, and no later batch is sent. *)
Theorem upsert_batches_outcome {P : Type}
        (upsert : list (list P) -> list P -> outcome unit)
        (batches : list (list P)) (attempts : list (list P)) (k : Z) :
  match BookIngestionOrchestrator.upsert_batches upsert attempts batches k with
  | (Return n, log) =>
      n = k + len batches
      /\ exists counts,
           stored_in upsert attempts counts batches
           /\ log = attempts ++ sent counts batches
  | (Raise e, log) =>
      exists stored batch rest counts e1,
        batches = stored ++ batch :: rest
        /\ stored_in upsert attempts counts stored
        /\ upsert (attempts ++ sent counts stored) batch = Raise e1
        /\ upsert ((attempts ++ sent counts stored) ++ [batch]) batch = Raise e
        /\ log = (attempts ++ sent counts stored) ++ [batch; batch]
  end
  /\ (forall counts,
        stored_in upsert attempts counts batches ->
        BookIngestionOrchestrator.upsert_batches upsert attempts batches k
        = (Return (k + len batches), attempts ++ sent counts batches))
  /\ (forall stored batch rest counts e1 e2,
        batches = stored ++ batch :: rest ->
        stored_in upsert attempts counts stored ->
        upsert (attempts ++ sent counts stored) batch = Raise e1 ->
        upsert ((attempts ++ sent counts stored) ++ [batch]) batch = Raise e2 ->
        BookIngestionOrchestrator.upsert_batches upsert attempts batches k
        = (Raise e2, (attempts ++ sent counts stored) ++ [batch; batch])).
Proof.
  split; [|split].
  - revert attempts k. induction batches as [|b bs IH]; intros attempts k;
      cbn [BookIngestionOrchestrator.upsert_batches].
    + split; [unfold len; simpl; lia|]. exists []. simpl.
      now rewrite app_nil_r.
    + destruct (upsert attempts b) as [u|e1] eqn:E1.
      * destruct u.
        specialize (IH (attempts ++ [b]) (k + 1)).
        destruct (BookIngestionOrchestrator.upsert_batches upsert (attempts ++ [b]) bs
                    (k + 1)) as [[n|e] log].
        -- destruct IH as [Hn (counts & Hs & Hlog)]. split.
           ++ rewrite Hn. unfold len. simpl List.length. lia.
           ++ exists (1%nat :: counts). cbn [stored_in sent repeat]. split.
              ** split; [left; now split | exact Hs].
              ** now rewrite Hlog, <- app_assoc.
        -- destruct IH as (stored & batch & rest & counts & e0 & Hb & Hs & H1 & H2
                           & Hlog).
           exists (b :: stored), batch, rest, (1%nat :: counts), e0.
           cbn [stored_in sent repeat app]. rewrite <- !app_assoc in *.
           cbn [app] in *.
           split; [now rewrite Hb|].
           split; [split; [left; now split | exact Hs]|].
           now repeat split.
      * destruct (upsert (attempts ++ [b]) b) as [u|e2] eqn:E2.
        -- destruct u.
           specialize (IH ((attempts ++ [b]) ++ [b]) (k + 1)).
           destruct (BookIngestionOrchestrator.upsert_batches upsert
                       ((attempts ++ [b]) ++ [b]) bs (k + 1)) as [[n|e] log].
           ++ destruct IH as [Hn (counts & Hs & Hlog)]. split.
              ** rewrite Hn. unfold len. simpl List.length. lia.
              ** exists (2%nat :: counts). cbn [stored_in sent repeat]. split.
                 --- split; [right; split; [reflexivity|]; split;
                             [now exists e1 | exact E2]|].
                     rewrite <- app_assoc in Hs. exact Hs.
                 --- now rewrite Hlog, <- !app_assoc.
           ++ destruct IH as (stored & batch & rest & counts & e0 & Hb & Hs & H1 & H2
                              & Hlog).
              exists (b :: stored), batch, rest, (2%nat :: counts), e0.
              cbn [stored_in sent repeat app]. rewrite <- !app_assoc in *.
              cbn [app] in *.
              split; [now rewrite Hb|].
              split; [split; [right; split; [reflexivity|]; split;
                              [now exists e1 | exact E2]
                             | exact Hs]|].
              now repeat split.
        -- exists [], b, bs, [], e1. cbn [stored_in sent app].
           rewrite !app_nil_r, <- app_assoc. now repeat split.
  - intros counts Hs.
    rewrite <- (app_nil_r batches) at 1.
    rewrite (upsert_batches_stored upsert batches counts attempts [] k Hs).
    reflexivity.
  - intros stored batch rest counts e1 e2 -> Hs H1 H2.
    rewrite (upsert_batches_stored upsert stored counts attempts (batch :: rest) k Hs).
    cbn [BookIngestionOrchestrator.upsert_batches]. rewrite H1, H2.
    now rewrite <- !app_assoc.
Qed.

(** A store that fails once on the second batch and recovers: three
    batches, four attempts, all stored. *)
Example retry_recovers :
  BookIngestionOrchestrator.upsert_batches
    (fun attempts batch =>
       if (Nat.eqb (List.length attempts) 1)
       then Raise (Exception.mk (py "TimeoutError") (py "timed out"))
       else Return tt)
    [] [[1%nat]; [2%nat]; [3%nat]] 0
  = (Return 3, [[1%nat]; [2%nat]; [2%nat]; [3%nat]]).
Proof. reflexivity. Qed.

(** ** The responses of the handlers *)

Lemma full_book_count (env : Env) (request : ChatRequest.t) (log log' : list Call)
      (r : RAGAgent.result) :
  RAGAgent._chat_full_book env request log = (Return r, log') ->
  r.(RAGAgent.chunks_retrieved) = len r.(RAGAgent.citations).
Proof.
  unfold RAGAgent._chat_full_book. unfold bind at 1.
  destruct (RetrieverAgent.retrieve env _ _ _ None log) as [[chunks|e] log1];
    [|discriminate].
  destruct chunks as [|c chunks].
  - unfold ret. intros H. injection H as <- _. reflexivity.
  - unfold bind at 1.
    destruct (CohereService.chat env _ log1) as [[answer|e] log2]; [|discriminate].
    unfold bind, lift, ret.
    destruct (RAGAgent._extract_citations env (c :: chunks)) as [cites|e] eqn:E;
      [|discriminate].
    intros H. injection H as <- _. cbn [RAGAgent.chunks_retrieved RAGAgent.citations].
    apply for_each_Forall2, Forall2_length in E. unfold len. now rewrite E.
Qed.

(** What [rag_chat] returns: no citation and a count of zero, or one
    citation for each unit that passed the floor. *)
Lemma rag_chat_shape (env : Env) (request : ChatRequest.t) (log : list Call) :
  exists r log',
    ChatApi.rag_chat env request log = (Return r, log')
    /\ (r.(ChatResponse.citations) = [] /\ r.(ChatResponse.chunks_retrieved) = 0
        \/ exists chunks,
             Forall2 cites_relevant
               (filter (fun c => PrimFloat.leb ChatApi.relevance_floor c.(ChatApi.score))
                       chunks)
               r.(ChatResponse.citations)
             /\ r.(ChatResponse.chunks_retrieved) = len r.(ChatResponse.citations)).
Proof.
  unfold ChatApi.rag_chat, try_except. unfold bind at 1.
  destruct (ChatApi.retrieve_context env _ _ _ log) as [[chunks|e] log1].
  - destruct (filter _ chunks) as [|c relevant] eqn:Ef.
    + unfold bind, ret.
      destruct (CohereService.chat env _ log1) as [[answer|e] log2];
        do 2 eexists; (split; [reflexivity|]); left; split; reflexivity.
    + unfold bind at 1.
      destruct (CohereService.chat env _ log1) as [[answer|e] log2].
      * unfold bind, lift, ret.
        destruct (ChatApi.extract_citations env (c :: relevant)) as [cites|e] eqn:E.
        -- do 2 eexists. split; [reflexivity|]. right. exists chunks.
           cbn [ChatResponse.citations ChatResponse.chunks_retrieved].
           apply extract_citations_relevant in E. rewrite Ef.
           split; [exact E|]. apply Forall2_length in E. unfold len. now rewrite E.
        -- do 2 eexists. split; [reflexivity|]. left. split; reflexivity.
      * do 2 eexists. split; [reflexivity|]. left. split; reflexivity.
  - do 2 eexists. split; [reflexivity|]. left. split; reflexivity.
Qed.

(** X11.  In every response of [RAGAgent.chat] and of [rag_chat] the count
    of units equals the number of citations. *)
Theorem count_matches_citations (self : RAGAgent.t) (env : Env)
        (request : ChatRequest.t) (mode : str) (log : list Call) :
  (exists r log',
      RAGAgent.chat self env request mode log = (Return r, log')
      /\ r.(ChatResponse.chunks_retrieved) = len r.(ChatResponse.citations))
  /\ (exists r log',
         ChatApi.rag_chat env request log = (Return r, log')
         /\ r.(ChatResponse.chunks_retrieved) = len r.(ChatResponse.citations)).
Proof.
  split.
  - unfold RAGAgent.chat, try_except. unfold bind at 1.
    destruct (_ && _)%bool.
    + destruct (RAGAgent._chat_with_selected_text env request log)
        as [[r|e] log'] eqn:E.
      * do 2 eexists. split; [reflexivity|].
        cbn [ChatResponse.chunks_retrieved ChatResponse.citations].
        destruct (selected_result_shape env request log log' r E)
          as (selected & res & log1 & first & others & _ & _ & Hc & _ & _ & Hn).
        rewrite Hn, Hc. unfold len. simpl List.length. lia.
      * do 2 eexists. split; reflexivity.
    + destruct (RAGAgent._chat_full_book env request log) as [[r|e] log'] eqn:E.
      * do 2 eexists. split; [reflexivity|].
        now apply full_book_count in E.
      * do 2 eexists. split; reflexivity.
  - destruct (rag_chat_shape env request log) as (r & log' & E & [[Hc Hn] | H]).
    + exists r, log'. split; [exact E|]. now rewrite Hc, Hn.
    + destruct H as (chunks & _ & Hn). now exists r, log'.
Qed.

Lemma Forall2_right {A B : Type} (R : A -> B -> Prop) (Q : B -> Prop)
      (P : A -> Prop) (xs : list A) (ys : list B) :
  (forall x y, P x -> R x y -> Q y) -> Forall P xs -> Forall2 R xs ys -> Forall Q ys.
Proof.
  intros H HP HR. induction HR as [|x y xs ys Hxy _ IH]; constructor.
  - inversion HP; subst. eauto.
  - inversion HP; subst. now apply IH.
Qed.

(** X12.  [rag_chat] never cites a unit whose score is below the floor
    0.4: every citation of its response carries a score of at least the
    floor. *)
Theorem citations_above_floor (env : Env) (request : ChatRequest.t) (log : list Call) :
  exists r log',
    ChatApi.rag_chat env request log = (Return r, log')
    /\ Forall (fun c => PrimFloat.leb ChatApi.relevance_floor c.(Citation.score) = true)
              r.(ChatResponse.citations).
Proof.
  destruct (rag_chat_shape env request log) as (r & log' & E & [[Hc _] | H]);
    exists r, log'; (split; [exact E|]).
  - rewrite Hc. constructor.
  - destruct H as (chunks & HF & _).
    apply (Forall2_right cites_relevant _
             (fun ch => PrimFloat.leb ChatApi.relevance_floor ch.(ChatApi.score) = true)
             _ _) with (3 := HF).
    + intros ch c Hs (s & _ & _ & _ & _ & _ & _ & Hsc). now rewrite Hsc.
    + apply Forall_forall. intros ch Hin. now apply filter_In in Hin as [_ Hin].
Qed.

(** X13.  When units were retrieved but none reaches the floor, [rag_chat]
    answers as [simple_chat] would after the retrieval: it sends the same
    single request to the model and returns the same response; only when the
    model fails do the two differ, in the mode of the apology. *)
Theorem below_floor_is_simple_chat (env : Env) (request : ChatRequest.t)
        (log log1 : list Call) (chunks : list ChatApi.chunk) :
  ChatApi.retrieve_context env request.(ChatRequest.query)
    request.(ChatRequest.book_id)
    (int_or (Some request.(ChatRequest.max_chunks)) 5) log = (Return chunks, log1) ->
  Forall (fun c => PrimFloat.leb ChatApi.relevance_floor c.(ChatApi.score) = false)
         chunks ->
  match env.(chat_completions_create) log1 (simple_messages request)
          CohereService.default_temperature CohereService.default_max_tokens with
  | Return reply =>
      ChatApi.rag_chat env request log = ChatApi.simple_chat env request log1
      /\ fst (ChatApi.rag_chat env request log)
         = Return {| ChatResponse.answer := reply;
                     ChatResponse.citations := [];
                     ChatResponse.mode := py "simple";
                     ChatResponse.chunks_retrieved := 0;
                     ChatResponse.model_used := CohereService.chat_model env |}
  | Raise e =>
      ChatApi.rag_chat env request log
      = (Return (error_response env e), snd (ChatApi.simple_chat env request log1))
      /\ fst (ChatApi.simple_chat env request log1)
         = Return (with_mode (py "simple") (error_response env e))
  end.
Proof.
  intros Hr Hlow.
  assert (Ef : filter (fun c => PrimFloat.leb ChatApi.relevance_floor c.(ChatApi.score))
                      chunks = []).
  { clear Hr. induction Hlow as [|c l Hc _ IH]; [reflexivity|].
    simpl. now rewrite Hc. }
  assert (Erag : ChatApi.rag_chat env request log
                 = match env.(chat_completions_create) log1 (simple_messages request)
                           CohereService.default_temperature
                           CohereService.default_max_tokens with
                   | Return reply =>
                       (Return {| ChatResponse.answer := reply;
                                  ChatResponse.citations := [];
                                  ChatResponse.mode := py "simple";
                                  ChatResponse.chunks_retrieved := 0;
                                  ChatResponse.model_used :=
                                    CohereService.chat_model env |},
                        log1 ++ [ChatCompletionsCreate (simple_messages request)
                                   CohereService.default_temperature
                                   CohereService.default_max_tokens])
                   | Raise e =>
                       (Return (error_response env e),
                        log1 ++ [ChatCompletionsCreate (simple_messages request)
                                   CohereService.default_temperature
                                   CohereService.default_max_tokens])
                   end).
  { unfold ChatApi.rag_chat, try_except. unfold bind at 1. rewrite Hr, Ef.
    unfold bind, CohereService.chat, ret. fold (simple_messages request).
    destruct (chat_completions_create env log1 (simple_messages request) _ _);
      reflexivity. }
  rewrite Erag. clear Erag.
  unfold ChatApi.simple_chat, try_except, bind, CohereService.chat, ret.
  fold (simple_messages request).
  destruct (chat_completions_create env log1 (simple_messages request) _ _);
    split; reflexivity.
Qed.

Lemma below_floor_is_simple_chat_witness :
  ChatApi.rag_chat faint_env what_is_x [] 
  = ChatApi.simple_chat faint_env what_is_x
      [EmbeddingsCreate (py "What is X?"); QueryPoints [1%float] 5 None None]
  /\ fst (ChatApi.rag_chat faint_env what_is_x [])
     = Return {| ChatResponse.answer := py "Hello";
                 ChatResponse.citations := [];
                 ChatResponse.mode := py "simple";
                 ChatResponse.chunks_retrieved := 0;
                 ChatResponse.model_used := py "command-a-03-2025" |}.
Proof.
  apply (below_floor_is_simple_chat faint_env what_is_x []
           [EmbeddingsCreate (py "What is X?"); QueryPoints [1%float] 5 None None]
           (map ChatApi.of_point faint_unit)).
  - vm_compute. reflexivity.
  - repeat constructor.
Defined.

(** ** The calls of a request *)

Lemma snd_try_except_ret {A : Type} (body : M A) (h : Exception.t -> A)
      (log : list Call) :
  snd (try_except body (fun e => ret (h e)) log) = snd (body log).
Proof. unfold try_except, ret. now destruct (body log) as [[a|e] l]. Qed.

Lemma snd_bind_ret {A B : Type} (m : M A) (f : A -> B) (log : list Call) :
  snd (bind m (fun a => ret (f a)) log) = snd (m log).
Proof. unfold bind, ret. now destruct (m log) as [[a|e] l]. Qed.

Lemma search_after_embed {A : Type} (env : Env) (input : str) (limit : Z)
      (book_id : option str) (g : list ScoredPoint.t -> A) :
  retrieval_like env
    (bind (CohereService.embed_text env input)
          (fun v => bind (QdrantService.search env v limit None book_id)
                         (fun results => ret (g results)))).
Proof.
  intros log. unfold bind, CohereService.embed_text, QdrantService.search, ret, raise.
  destruct (embeddings_create env log input) as [v|e] eqn:Ee.
  - destruct (qdrant_client env); cbn [negb].
    + destruct (query_points env (log ++ [EmbeddingsCreate input]) v limit _ None)
        as [points|e] eqn:Eq; eexists; (split; [rewrite <- app_assoc; reflexivity|]);
        cbn [fst app].
      * do 5 eexists. split; [reflexivity|]. split; [exact Ee | exact Eq].
      * split; [exact Ee | simpl; lia].
    + exists [EmbeddingsCreate input]. split; [reflexivity|]. simpl.
      split; [exact I | lia].
  - exists [EmbeddingsCreate input]. split; [reflexivity|]. simpl.
    split; [exact I | lia].
Qed.

Lemma retrieval_like_map {A B : Type} (env : Env) (m : M A) (f : A -> B) :
  retrieval_like env m -> retrieval_like env (bind m (fun a => ret (f a))).
Proof.
  intros H log. destruct (H log) as [new [E C]]. exists new.
  rewrite snd_bind_ret. split; [exact E|].
  unfold bind, ret. destruct (m log) as [[a|e] l]; exact C.
Qed.

Lemma protocol_bind {A B : Type} (env : Env) (m : M A) (k : A -> M B) :
  retrieval_like env m -> (forall a, at_most_chat (k a)) ->
  forall log, exists new,
    snd (bind m k log) = log ++ new /\ follows_protocol env log new.
Proof.
  intros Hm Hk log. destruct (Hm log) as [new [E C]]. unfold bind.
  destruct (m log) as [[a|e] l]; simpl in E, C; subst l.
  - destruct C as (input & v & limit & f & points & -> & Ee & Eq).
    destruct (Hk a (log ++ [EmbeddingsCreate input; QueryPoints v limit f None]))
      as [H | (messages & t & n & H)]; rewrite H.
    + eexists. split; [reflexivity|]. exact Ee.
    + eexists. split; [rewrite <- app_assoc; reflexivity|]. simpl.
      split; [exact Ee | now exists points].
  - exists new. split; [reflexivity | apply C].
Qed.

Lemma at_most_chat_then_pure {A B : Type} (env : Env) (messages : list Message.t)
      (o : str -> outcome A) (f : str -> A -> B) :
  at_most_chat (bind (CohereService.chat env messages)
                     (fun answer => bind (lift (o answer))
                                         (fun x => ret (f answer x)))).
Proof.
  intros log. right. exists messages, CohereService.default_temperature,
    CohereService.default_max_tokens.
  unfold bind, CohereService.chat, lift, ret.
  destruct (chat_completions_create env log messages _ _) as [answer|e];
    [|reflexivity].
  destruct (o answer); reflexivity.
Qed.

Lemma chat_protocol (self : RAGAgent.t) (env : Env) (request : ChatRequest.t)
      (mode : str) (log : list Call) :
  exists new,
    snd (RAGAgent.chat self env request mode log) = log ++ new
    /\ follows_protocol env log new.
Proof.
  unfold RAGAgent.chat.
  rewrite (snd_try_except_ret _ (fun _ => fallback_result self mode)), snd_bind_ret.
  destruct (_ && _)%bool eqn:Ec.
  - unfold RAGAgent._chat_with_selected_text.
    destruct (ChatRequest.selected_text request) as [selected|].
    + apply protocol_bind.
      * unfold SelectedTextAgent.answer_with_selected_text.
        apply retrieval_like_map. apply search_after_embed.
      * intros result log1. right.
        unfold bind, CohereService.chat, lift, ret.
        do 3 eexists.
        destruct (chat_completions_create env log1 _ _ _) as [answer|e];
          [|reflexivity].
        cbn -[upto len].
        destruct (for_each _ (SelectedTextAgent.additional_chunks result));
          reflexivity.
    + rewrite andb_false_r in Ec. discriminate Ec.
  - unfold RAGAgent._chat_full_book. apply protocol_bind.
    + apply search_after_embed.
    + intros [|c chunks]; [intros log1; now left|].
      apply (at_most_chat_then_pure env _
               (fun _ => RAGAgent._extract_citations env (c :: chunks))
               (fun answer citations =>
                  RAGAgent.mkResult answer citations (len (c :: chunks)))).
Qed.

Lemma rag_chat_protocol (env : Env) (request : ChatRequest.t) (log : list Call) :
  exists new,
    snd (ChatApi.rag_chat env request log) = log ++ new
    /\ follows_protocol env log new.
Proof.
  unfold ChatApi.rag_chat.
  rewrite (snd_try_except_ret _ (error_response env)).
  apply protocol_bind.
  - apply search_after_embed.
  - intros chunks. destruct (filter _ chunks) as [|c relevant].
    + intros log1. right. do 3 eexists.
      unfold bind, CohereService.chat, ret.
      destruct (chat_completions_create env log1 _ _ _); reflexivity.
    + apply (at_most_chat_then_pure env _
               (fun _ => ChatApi.extract_citations env (c :: relevant))
               (fun answer citations =>
                  ChatResponse.mk answer citations (py "rag") (len (c :: relevant))
                    (CohereService.chat_model env))).
Qed.

(** X14.  The calls of one request, in [RAGAgent.chat] and in [rag_chat],
    are the embedding, then at most one search, then at most one request to
    the model: the search is sent only with the vector that the embedding
    returned and never with a score floor, and the model is asked only
    after the search returned. *)
Theorem call_protocol (self : RAGAgent.t) (env : Env) (request : ChatRequest.t)
        (mode : str) (log : list Call) :
  (exists new,
      snd (RAGAgent.chat self env request mode log) = log ++ new
      /\ follows_protocol env log new)
  /\ (exists new,
         snd (ChatApi.rag_chat env request log) = log ++ new
         /\ follows_protocol env log new).
Proof. split; [apply chat_protocol | apply rag_chat_protocol]. Qed.

(** ** Units with missing fields *)

Lemma extract_incomplete (env : Env) (chunks : list RetrieverAgent.chunk) :
  Exists incomplete chunks ->
  exists e, RAGAgent._extract_citations env chunks = Raise e.
Proof.
  unfold RAGAgent._extract_citations.
  induction 1 as [ch r Hch | ch r Hr IH]; cbn [for_each].
  - destruct (RetrieverAgent.text ch) as [s|] eqn:Et; [|eexists; reflexivity].
    destruct Hch as [Hch | [Hch | Hch]]; [congruence | |];
      unfold Citation.new; rewrite Hch.
    + eexists. reflexivity.
    + destruct (RetrieverAgent.chunk_id ch); eexists; reflexivity.
  - match goal with
    | |- context [match ?x with Return _ => _ | Raise _ => _ end] =>
        destruct x as [c|e]
    end; [|eexists; reflexivity].
    destruct IH as [e ->]. eexists. reflexivity.
Qed.

(** X15.  When one retrieved unit lacks its text, its identifier or its
    source, [RAGAgent.chat] on its whole-corpus branch still sends the
    question to the model, and then returns the refusal whatever the model
    replied: the citation of that unit cannot be built. *)
Theorem incomplete_unit_refuses (self : RAGAgent.t) (env : Env)
        (request : ChatRequest.t) (mode : str) (log log1 : list Call)
        (chunks : list RetrieverAgent.chunk) :
  whole_corpus request mode = true ->
  RetrieverAgent.retrieve env request.(ChatRequest.query) request.(ChatRequest.book_id)
    request.(ChatRequest.max_chunks) None log = (Return chunks, log1) ->
  Exists incomplete chunks ->
  exists messages,
    RAGAgent.chat self env request mode log
    = (Return (fallback_result self mode),
       log1 ++ [ChatCompletionsCreate messages CohereService.default_temperature
                  CohereService.default_max_tokens]).
Proof.
  intros Hw Hr Hex.
  rewrite (chat_whole_corpus self env request mode log Hw).
  destruct (extract_incomplete env chunks Hex) as [e He].
  unfold RAGAgent._chat_full_book. unfold bind at 1. rewrite Hr.
  destruct chunks as [|c chunks]; [inversion Hex|].
  unfold bind, CohereService.chat, lift, ret. rewrite He.
  eexists.
  destruct (chat_completions_create env log1 _ _ _); reflexivity.
Qed.

Lemma incomplete_unit_refuses_witness :
  exists messages,
    RAGAgent.chat (RAGAgent.init default_settings) textless_env what_is_x
      (py "full_book") []
    = (Return (fallback_result (RAGAgent.init default_settings) (py "full_book")),
       [EmbeddingsCreate (py "What is X?"); QueryPoints [1%float] 5 None None]
       ++ [ChatCompletionsCreate messages CohereService.default_temperature
             CohereService.default_max_tokens]).
Proof.
  apply (incomplete_unit_refuses (RAGAgent.init default_settings) textless_env
           what_is_x (py "full_book") []
           [EmbeddingsCreate (py "What is X?"); QueryPoints [1%float] 5 None None]
           (map RetrieverAgent.of_point textless_unit)).
  - reflexivity.
  - vm_compute. reflexivity.
  - constructor. left. reflexivity.
Defined.

(** ** A selection made of spaces *)

Lemma begins_with_embed {A : Type} (env : Env) (input : str)
      (k : list float -> M A) :
  (forall v, propagates env (k v)) ->
  begins_with (EmbeddingsCreate input) (bind (CohereService.embed_text env input) k).
Proof.
  intros Hk log. unfold bind, CohereService.embed_text.
  destruct (embeddings_create env log input) as [v|e].
  - destruct (Hk v (log ++ [EmbeddingsCreate input])) as [new [E _]].
    exists new. rewrite E, <- app_assoc. reflexivity.
  - now exists [].
Qed.

Lemma begins_with_bind {A B : Type} (env : Env) (c : Call) (m : M A) (k : A -> M B) :
  begins_with c m -> (forall a, propagates env (k a)) -> begins_with c (bind m k).
Proof.
  intros Hm Hk log. destruct (Hm log) as [rest E]. unfold bind.
  destruct (m log) as [[a|e] l]; simpl in E; subst l.
  - destruct (Hk a (log ++ c :: rest)) as [new [E _]].
    exists (rest ++ new). rewrite E, <- app_assoc. reflexivity.
  - now exists rest.
Qed.

(** X16.  In mode ["selected_text"], a selection that is not empty but made
    of spaces only is not sent to the whole-corpus path: [RAGAgent.chat]
    takes the pinned-passage path, and its first call asks for the embedding
    of the empty string. *)
Theorem blank_selection_is_embedded (self : RAGAgent.t) (env : Env)
        (request : ChatRequest.t) (s : str) (log : list Call) :
  request.(ChatRequest.selected_text) = Some s ->
  s <> [] -> forallb isspace s = true ->
  exists rest,
    snd (RAGAgent.chat self env request (py "selected_text") log)
    = log ++ EmbeddingsCreate [] :: rest.
Proof.
  intros Hs Hne Hsp. unfold RAGAgent.chat.
  rewrite (snd_try_except_ret _ (fun _ => fallback_result self (py "selected_text"))),
    snd_bind_ret.
  rewrite Hs. change (str_eqb (py "selected_text") (py "selected_text")) with true.
  apply truthy_nonempty in Hne. cbn [truthy_opt andb]. rewrite Hne.
  unfold RAGAgent._chat_with_selected_text. rewrite Hs.
  assert (Hk : strip s = []).
  { pose proof (strip_truthy s) as H. rewrite Hsp in H.
    destruct (strip s); [reflexivity | discriminate]. }
  apply (begins_with_bind env).
  - unfold SelectedTextAgent.answer_with_selected_text. rewrite Hk.
    apply (begins_with_bind env); [|intros a; apply propagates_ret].
    apply begins_with_embed. intros v.
    apply propagates_bind; [apply propagates_search|].
    intros points. apply propagates_ret.
  - intros result.
    apply propagates_bind; [apply propagates_chat|]. intros answer.
    apply propagates_bind; [apply propagates_lift|]. intros first.
    apply propagates_bind; [apply propagates_lift|]. intros others.
    apply propagates_ret.
Qed.

Lemma blank_selection_is_embedded_witness :
  exists rest,
    snd (RAGAgent.chat (RAGAgent.init default_settings) empty_index_env
           blank_selection (py "selected_text") [])
    = [] ++ EmbeddingsCreate [] :: rest.
Proof.
  apply (blank_selection_is_embedded (RAGAgent.init default_settings)
           empty_index_env blank_selection (py "   ") []).
  - reflexivity.
  - discriminate.
  - reflexivity.
Defined.

(** ** The two copies of retrieval, context and citations *)

Lemma for_each_map {A B C : Type} (f : B -> outcome C) (g : A -> B) (xs : list A) :
  for_each f (map g xs) = for_each (fun x => f (g x)) xs.
Proof.
  induction xs as [|x r IH]; simpl; [reflexivity|]. now rewrite IH.
Qed.

(** X17.  The endpoint's own copies of retrieval, context assembly and
    citation extraction behave as the agents of the orchestrator do: on the
    same results of the index they build the same context and the same
    citations (or fail alike), and retrieval sends the same calls and
    returns the same results. *)
Theorem endpoint_copies_agree (env : Env) (points : list ScoredPoint.t)
        (query : str) (book_id : option str) (top_k : Z) (log : list Call) :
  ChatApi.build_context (map ChatApi.of_point points)
  = RAGAgent._build_context (map RetrieverAgent.of_point points)
  /\ ChatApi.extract_citations env (map ChatApi.of_point points)
     = RAGAgent._extract_citations env (map RetrieverAgent.of_point points)
  /\ snd (ChatApi.retrieve_context env query book_id top_k log)
     = snd (RetrieverAgent.retrieve env query book_id top_k None log)
  /\ match fst (ChatApi.retrieve_context env query book_id top_k log),
           fst (RetrieverAgent.retrieve env query book_id top_k None log) with
     | Return a, Return b =>
         exists results,
           a = map ChatApi.of_point results /\ b = map RetrieverAgent.of_point results
     | Raise e, Raise e' => e = e'
     | _, _ => False
     end.
Proof.
  split; [|split].
  - unfold ChatApi.build_context, RAGAgent._build_context.
    now rewrite !map_map.
  - unfold ChatApi.extract_citations, RAGAgent._extract_citations.
    now rewrite !for_each_map.
  - unfold ChatApi.retrieve_context, RetrieverAgent.retrieve, bind, ret,
      CohereService.embed_text, QdrantService.search, raise.
    destruct (embeddings_create env log query) as [v|e]; [|now split].
    destruct (qdrant_client env); cbn [negb]; [|now split].
    destruct (query_points env _ v top_k _ None) as [results|e]; cbn [fst snd].
    + split; [reflexivity|]. now exists results.
    + now split.
Qed.

(** ** The index client *)

(** X18.  While the client of the index does not exist, a request still
    asks for the embedding of the question, and when that returns no search
    is sent: [rag_chat] apologises with the text of the [RuntimeError], and
    [RAGAgent.chat] on its whole-corpus branch refuses; the model is not
    asked. *)
Theorem missing_client (self : RAGAgent.t) (env : Env) (request : ChatRequest.t)
        (mode : str) (log : list Call) (v : list float) :
  env.(qdrant_client) = false ->
  env.(embeddings_create) log request.(ChatRequest.query) = Return v ->
  whole_corpus request mode = true ->
  ChatApi.rag_chat env request log
  = (Return (error_response env not_initialized),
     log ++ [EmbeddingsCreate request.(ChatRequest.query)])
  /\ RAGAgent.chat self env request mode log
     = (Return (fallback_result self mode),
        log ++ [EmbeddingsCreate request.(ChatRequest.query)]).
Proof.
  intros Hc He Hw. split.
  - unfold ChatApi.rag_chat, ChatApi.retrieve_context, QdrantService.search,
      CohereService.embed_text, try_except, bind, raise, ret.
    rewrite He, Hc. reflexivity.
  - rewrite (chat_whole_corpus self env request mode log Hw).
    unfold RAGAgent._chat_full_book, RetrieverAgent.retrieve, QdrantService.search,
      CohereService.embed_text, bind, raise, ret.
    rewrite He, Hc. reflexivity.
Qed.

Lemma missing_client_witness :
  fst (ChatApi.rag_chat no_client_env what_is_x [])
  = Return (error_response no_client_env not_initialized)
  /\ RAGAgent.chat (RAGAgent.init default_settings) no_client_env what_is_x
       (py "full_book") []
     = (Return (fallback_result (RAGAgent.init default_settings) (py "full_book")),
        [EmbeddingsCreate (py "What is X?")]).
Proof.
  destruct (missing_client (RAGAgent.init default_settings) no_client_env what_is_x
              (py "full_book") [] [1%float] eq_refl eq_refl eq_refl) as [H1 H2].
  split; [now rewrite H1 | exact H2].
Defined.

(** X19.  A [book_id] that is the empty string is no [book_id]: the search
    is sent without a filter, and both handlers do exactly what they do for
    a request without [book_id]. *)
Theorem empty_book_id_is_none (self : RAGAgent.t) (env : Env)
        (request : ChatRequest.t) (mode : str) (log : list Call)
        (query_vector : list float) (limit : Z) (score_threshold : option float) :
  QdrantService.search env query_vector limit score_threshold (Some [])
  = QdrantService.search env query_vector limit score_threshold None
  /\ ChatApi.rag_chat env (with_book (Some []) request) log
     = ChatApi.rag_chat env (with_book None request) log
  /\ RAGAgent.chat self env (with_book (Some []) request) mode log
     = RAGAgent.chat self env (with_book None request) mode log.
Proof.
  split; [reflexivity|]. split.
  - unfold ChatApi.rag_chat, ChatApi.retrieve_context. reflexivity.
  - unfold RAGAgent.chat, RAGAgent._chat_full_book,
      RAGAgent._chat_with_selected_text, RetrieverAgent.retrieve,
      SelectedTextAgent.answer_with_selected_text.
    reflexivity.
Qed.

(** A batch that fails twice stops the loop: the third batch is never
    sent. *)
Example second_failure_is_fatal :
  BookIngestionOrchestrator.store_points
    (fun attempts batch =>
       if (Nat.leb 1 (List.length attempts))
       then Raise (Exception.mk (py "TimeoutError") (py "timed out"))
       else Return tt)
    (seq 0 120)
  = (Raise (Exception.mk (py "TimeoutError") (py "timed out")),
     [seq 0 50; seq 50 50; seq 50 50]).
Proof. vm_compute. reflexivity. Qed.

(** ** Embedding the units *)

Lemma slices_cons {A : Type} (n : nat) (xs : list A) :
  (0 < n)%nat -> xs <> [] ->
  slices n xs = firstn n xs :: slices n (skipn n xs).
Proof.
  intros Hn Hx. unfold slices. rewrite length_skipn.
  assert (Hl : (0 < List.length xs)%nat).
  { destruct xs; [congruence | simpl; lia]. }
  assert (E : ((List.length xs + n - 1) / n
               = S ((List.length xs - n + n - 1) / n))%nat).
  { destruct (Nat.le_gt_cases (List.length xs) n) as [Hle|Hgt].
    - replace (List.length xs - n)%nat with 0%nat by lia.
      rewrite (Nat.div_small (0 + n - 1) n) by lia.
      replace (List.length xs + n - 1)%nat
        with (1 * n + (List.length xs - 1))%nat by lia.
      rewrite Nat.div_add_l by lia.
      rewrite Nat.div_small by lia. reflexivity.
    - replace (List.length xs + n - 1)%nat
        with (1 * n + (List.length xs - n + n - 1))%nat by lia.
      rewrite Nat.div_add_l by lia. reflexivity. }
  rewrite E. cbn [seq map]. rewrite <- seq_shift, map_map. f_equal.
  apply map_ext. intros k. rewrite skipn_skipn. f_equal. f_equal. simpl. lia.
Qed.

Lemma set_item_app {A : Type} (done : list A) (x c : A) (r : list A) :
  BookIngestionOrchestrator.set_item (List.length done) x (done ++ c :: r)
  = done ++ x :: r.
Proof. induction done as [|d done IH]; simpl; [reflexivity | now rewrite IH]. Qed.

Lemma embedded_nil (vectors : list (list float)) : embedded vectors [] = [].
Proof. now destruct vectors. Qed.

Lemma embedded_length (vectors : list (list float)) (chunks : list Chunk.t) :
  List.length (embedded vectors chunks) = List.length chunks.
Proof.
  revert chunks. induction vectors as [|v vs IH]; intros [|c r]; simpl; auto.
Qed.

Lemma embedded_app (es fs : list (list float)) (a b : list Chunk.t) :
  List.length es = List.length a ->
  embedded (es ++ fs) (a ++ b) = embedded es a ++ embedded fs b.
Proof.
  revert a. induction es as [|e es IH]; intros [|c a] H; simpl in *;
    try discriminate; [reflexivity|].
  now rewrite IH by lia.
Qed.

Lemma embedded_all (vectors : list (list float)) (chunks : list Chunk.t) :
  List.length vectors = List.length chunks ->
  Forall (fun c => c.(Chunk.embedding) <> None) (embedded vectors chunks).
Proof.
  revert chunks. induction vectors as [|v vs IH]; intros [|c r] H; simpl in *;
    try discriminate; constructor; [discriminate | apply IH; lia].
Qed.

Lemma store_embeddings_app (es : list (list float)) :
  forall done todo : list Chunk.t,
    (List.length es <= List.length todo)%nat ->
    BookIngestionOrchestrator.store_embeddings (List.length done) es (done ++ todo)
    = (Return tt, done ++ embedded es todo).
Proof.
  induction es as [|e es IH]; intros done todo H; [reflexivity|].
  destruct todo as [|c t]; [simpl in H; lia|].
  cbn [BookIngestionOrchestrator.store_embeddings].
  rewrite nth_error_app2, Nat.sub_diag by lia. cbn [nth_error].
  rewrite set_item_app.
  replace (done ++ BookIngestionOrchestrator.set_embedding e c :: t)
    with ((done ++ [BookIngestionOrchestrator.set_embedding e c]) ++ t)
    by now rewrite <- app_assoc.
  replace (S (List.length done))
    with (List.length (done ++ [BookIngestionOrchestrator.set_embedding e c]))
    by (rewrite length_app; simpl; lia).
  rewrite IH by (simpl in H; lia). now rewrite <- app_assoc.
Qed.

Lemma embed_batches_spec
      (embed_batch : list (list str) -> list str -> outcome (list (list float))) :
  one_vector_per_text embed_batch ->
  forall (n : nat) (todo : list Chunk.t),
    (List.length todo <= n)%nat ->
    forall (done : list Chunk.t) (sent : list (list str)) (i : nat),
      todo = [] \/ i = List.length done ->
      BookIngestionOrchestrator.embed_batches embed_batch sent i
        (slices 10 (map Chunk.text todo)) (done ++ todo)
      = (outcome_of (snd (replies embed_batch sent (slices 10 (map Chunk.text todo)))),
         done ++ embedded
                   (List.concat
                      (fst (replies embed_batch sent (slices 10 (map Chunk.text todo)))))
                   todo).
Proof.
  intros H. induction n as [|n IH]; intros todo Hn done sent i Hi.
  - destruct todo; [|simpl in Hn; lia]. reflexivity.
  - destruct todo as [|c t] eqn:Et; [reflexivity|]. rewrite <- Et in *.
    assert (Hne : todo <> []) by (subst; discriminate).
    destruct Hi as [Hi|Hi]; [contradiction|]. subst i.
    rewrite (slices_cons 10 (map Chunk.text todo)) by
      (try lia; subst; discriminate).
    cbn [BookIngestionOrchestrator.embed_batches replies].
    destruct (embed_batch sent (firstn 10 (map Chunk.text todo))) as [es|e] eqn:Eb.
    + apply H in Eb. rewrite length_firstn, length_map in Eb.
      rewrite store_embeddings_app by lia.
      rewrite skipn_map.
      assert (Hsplit : embedded es todo
                       = embedded es (firstn 10 todo) ++ skipn 10 todo).
      { rewrite <- (firstn_skipn 10 todo) at 1.
        rewrite <- (app_nil_r es) at 1.
        rewrite embedded_app by (rewrite length_firstn; lia).
        reflexivity. }
      rewrite Hsplit, app_assoc.
      rewrite (IH (skipn 10 todo)).
      * destruct (replies embed_batch (sent ++ [firstn 10 (map Chunk.text todo)])
                    (slices 10 (map Chunk.text (skipn 10 todo)))) as [rs fault].
        cbn [fst snd List.concat]. f_equal.
        rewrite <- app_assoc. f_equal.
        rewrite <- (firstn_skipn 10 todo) at 3.
        rewrite embedded_app by (rewrite length_firstn; lia).
        reflexivity.
      * rewrite length_skipn. subst todo. simpl in Hn. simpl. lia.
      * destruct (Nat.le_gt_cases (List.length todo) 10) as [Hle|Hgt].
        -- left. now apply skipn_all2.
        -- right. rewrite length_app, embedded_length, length_firstn. lia.
    + cbn [fst snd List.concat outcome_of]. reflexivity.
Qed.

Lemma replies_length
      (embed_batch : list (list str) -> list str -> outcome (list (list float))) :
  one_vector_per_text embed_batch ->
  forall batches sent,
    snd (replies embed_batch sent batches) = None ->
    List.length (List.concat (fst (replies embed_batch sent batches)))
    = List.length (List.concat batches).
Proof.
  intros H. induction batches as [|b r IH]; intros sent Hf; [reflexivity|].
  cbn [replies] in *.
  destruct (embed_batch sent b) as [es|e] eqn:Eb; [|discriminate].
  specialize (IH (sent ++ [b])).
  destruct (replies embed_batch (sent ++ [b]) r) as [rs fault].
  cbn [fst snd List.concat] in *. rewrite !length_app, IH by assumption.
  now rewrite (H _ _ _ Eb).
Qed.

(** X20.  When the embedding service returns one vector per text,
    [_generate_embeddings] sends the texts of the units in batches of ten,
    in order, and leaves the k-th vector of the replies put end to end on
    the k-th unit, changing nothing else in the units.  When no batch
    fails, every unit ends with a vector; when a batch fails, its exception
    is raised, no later batch is sent, and the vectors of the batches
    before it stay on their units. *)
Theorem generate_embeddings_outcome
        (embed_batch : list (list str) -> list str -> outcome (list (list float)))
        (chunks : list Chunk.t) :
  one_vector_per_text embed_batch ->
  let answered := replies embed_batch [] (slices 10 (map Chunk.text chunks)) in
  BookIngestionOrchestrator._generate_embeddings embed_batch chunks
  = (outcome_of (snd answered), embedded (List.concat (fst answered)) chunks)
  /\ (snd answered = None ->
      List.length (List.concat (fst answered)) = List.length chunks
      /\ Forall (fun c => c.(Chunk.embedding) <> None)
                (snd (BookIngestionOrchestrator._generate_embeddings embed_batch chunks))).
Proof.
  intros H answered.
  assert (E : BookIngestionOrchestrator._generate_embeddings embed_batch chunks
              = (outcome_of (snd answered),
                 embedded (List.concat (fst answered)) chunks)).
  { unfold BookIngestionOrchestrator._generate_embeddings.
    exact (embed_batches_spec embed_batch H (List.length chunks) chunks
             (Nat.le_refl _) [] [] 0%nat (or_intror eq_refl)). }
  split; [exact E|]. intros Hf.
  assert (L : List.length (List.concat (fst answered)) = List.length chunks).
  { unfold answered. rewrite (replies_length embed_batch H _ _ Hf).
    rewrite slices_concat by lia. apply length_map. }
  split; [exact L|]. rewrite E. cbn [snd]. now apply embedded_all.
Qed.

Lemma generate_embeddings_outcome_witness :
  one_vector_per_text (fun _ batch => Return (map (fun _ => [1%float]) batch))
  /\ BookIngestionOrchestrator._generate_embeddings
       (fun _ batch => Return (map (fun _ => [1%float]) batch)) twelve_units
     = (Return tt, embedded (repeat [1%float] 12) twelve_units).
Proof.
  assert (H : one_vector_per_text
                (fun _ batch => Return (map (fun _ : str => [1%float]) batch))).
  { intros sent batch es E. injection E as <-. apply length_map. }
  split; [exact H|].
  exact (proj1 (generate_embeddings_outcome _ twelve_units H)).
Defined.

(** A reply that is one vector short leaves the last unit of its batch
    without a vector and raises nothing; a reply with one vector too many
    for the last batch raises [IndexError] after the units were embedded. *)
Example short_and_long_replies :
  map Chunk.embedding
      (snd (BookIngestionOrchestrator._generate_embeddings
              (fun _ batch => Return (map (fun _ => [1%float]) (tl batch)))
              (firstn 3 twelve_units)))
  = [Some [1%float]; Some [1%float]; None]
  /\ fst (BookIngestionOrchestrator._generate_embeddings
            (fun _ batch => Return (map (fun _ => [1%float]) (batch ++ batch)))
            (firstn 1 twelve_units))
     = Raise BookIngestionOrchestrator.index_error.
Proof. split; reflexivity. Qed.
